(** * The STL viewer of learn3D: loading, normalising, framing and reset

    A shallow embedding of [src/components/LearningDashboard.tsx]
    (components [STLModel] and [STLViewer]) together with the parts of
    three.js that the two components call.

    Numbers.  JavaScript numbers are IEEE-754 doubles and vertex data is
    stored as 32-bit floats.  The viewer ([Three] and the state machine
    built on it) works on finite numbers in exact rational arithmetic
    ([Q]); equalities between computed coordinates are stated with [==]
    (equality of rationals).  The normaliser is given a second time on
    numbers that include the infinities and NaN ([JsNumber],
    [FloatGeometry]), which a file can carry; a finite number is an
    exact rational there too.  Rounding is outside the model. *)

From Stdlib Require Import QArith Qminmax Qabs Qpower Lqa ZArith List String Ascii Bool Lia.
From Stdlib Require Import Strings.Byte DecimalString.
Import ListNotations.

Local Open Scope string_scope.
Local Open Scope list_scope.
Local Open Scope Q_scope.

(** ** three.js: vectors, boxes and buffer geometries *)

Module Three.

(** [THREE.Vector3]. *)
Record Vector3 : Type := mkVector3 { x : Q; y : Q; z : Q }.

(** Component-wise equality of rationals. *)
Definition veq (a b : Vector3) : Prop :=
  x a == x b /\ y a == y b /\ z a == z b.

Definition origin : Vector3 := mkVector3 0 0 0.

(** [a < b] on numbers, as a boolean. *)
Definition Qltb (a b : Q) : bool := negb (Qle_bool b a).

(** [Vector3.min(v)] and [Vector3.max(v)]: component-wise. *)
Definition vmin (a b : Vector3) : Vector3 :=
  mkVector3 (Qmin (x a) (x b)) (Qmin (y a) (y b)) (Qmin (z a) (z b)).
Definition vmax (a b : Vector3) : Vector3 :=
  mkVector3 (Qmax (x a) (x b)) (Qmax (y a) (y b)) (Qmax (z a) (z b)).

(** [Vector3.addVectors], [Vector3.subVectors], [Vector3.multiplyScalar]. *)
Definition addVectors (a b : Vector3) : Vector3 :=
  mkVector3 (x a + x b) (y a + y b) (z a + z b).
Definition subVectors (a b : Vector3) : Vector3 :=
  mkVector3 (x a - x b) (y a - y b) (z a - z b).
Definition multiplyScalar (a : Vector3) (s : Q) : Vector3 :=
  mkVector3 (x a * s) (y a * s) (z a * s).

(** [THREE.Box3].  [makeEmpty()] sets [min] to [+Infinity] and [max] to
    [-Infinity] on every axis; that box is [EmptyBox].  Any other box
    carries its two finite corners. *)
Inductive Box3 : Type :=
| EmptyBox
| Box (min max : Vector3).

(** [Box3.expandByPoint(p)]: [min.min(p); max.max(p)].  On the empty box
    the minimum with [+Infinity] and the maximum with [-Infinity] are
    both [p]. *)
Definition expandByPoint (b : Box3) (p : Vector3) : Box3 :=
  match b with
  | EmptyBox => Box p p
  | Box mn mx => Box (vmin mn p) (vmax mx p)
  end.

(** [Box3.setFromBufferAttribute(attribute)]: [makeEmpty()], then
    [expandByPoint] for every vertex in order. *)
Definition setFromBufferAttribute (ps : list Vector3) : Box3 :=
  fold_left expandByPoint ps EmptyBox.

(** [Box3.isEmpty()]:
    [max.x < min.x || max.y < min.y || max.z < min.z]. *)
Definition isEmpty (b : Box3) : bool :=
  match b with
  | EmptyBox => true
  | Box mn mx =>
      Qltb (x mx) (x mn) || Qltb (y mx) (y mn) || Qltb (z mx) (z mn)
  end.

(** [Box3.getCenter(target)]:
    [isEmpty() ? target.set(0,0,0)
               : target.addVectors(min, max).multiplyScalar(0.5)]. *)
Definition getCenter (b : Box3) : Vector3 :=
  match b with
  | EmptyBox => origin
  | Box mn mx =>
      if isEmpty b then origin
      else multiplyScalar (addVectors mn mx) (1 # 2)
  end.

(** [Box3.getSize(target)]:
    [isEmpty() ? target.set(0,0,0) : target.subVectors(max, min)]. *)
Definition getSize (b : Box3) : Vector3 :=
  match b with
  | EmptyBox => origin
  | Box mn mx => if isEmpty b then origin else subVectors mx mn
  end.

(** [THREE.BufferGeometry], reduced to its [position] attribute (one
    entry per vertex, three consecutive entries per triangle) and its
    [boundingBox] field ([null] until computed).  Normals are not
    tracked. *)
Record BufferGeometry : Type := mkGeometry {
  position : list Vector3;
  boundingBox : option Box3
}.

(** [BufferGeometry.computeBoundingBox()]. *)
Definition computeBoundingBox (g : BufferGeometry) : BufferGeometry :=
  mkGeometry (position g) (Some (setFromBufferAttribute (position g))).

(** [BufferGeometry.computeVertexNormals()] rewrites the [normal]
    attribute only. *)
Definition computeVertexNormals (g : BufferGeometry) : BufferGeometry := g.

(** [BufferGeometry.translate(tx, ty, tz)]: applies the translation to
    every vertex, then, as [applyMatrix4] does, recomputes the bounding
    box when one is already stored ([if (this.boundingBox !== null)
    this.computeBoundingBox()]). *)
Definition translate (g : BufferGeometry) (tx ty tz : Q) : BufferGeometry :=
  let moved := map (fun p => addVectors p (mkVector3 tx ty tz)) (position g) in
  mkGeometry moved
    (match boundingBox g with
     | None => None
     | Some _ => Some (setFromBufferAttribute moved)
     end).

(** Number of triangles of a non-indexed geometry. *)
Definition triangleCount (g : BufferGeometry) : nat :=
  Nat.div (List.length (position g)) 3.

End Three.

Import Three.

(** ** Numbers with infinities and NaN

    A file can carry any 32-bit pattern as a coordinate, the patterns of
    the infinities and of NaN included, and the loader keeps them.  The
    definitions below follow the same three.js code as [Three], on
    numbers that have those values.  A finite number is still an exact
    rational: rounding and overflow are not modelled, and neither is the
    sign of zero. *)

Module JsNumber.

Inductive t : Type :=
| Finite (q : Q)
| PlusInfinity
| MinusInfinity
| NaN.


(** [-a]. *)
Definition neg (a : t) : t :=
  match a with
  | Finite q => Finite (- q)
  | PlusInfinity => MinusInfinity
  | MinusInfinity => PlusInfinity
  | NaN => NaN
  end.

(** [a + b]. *)
Definition add (a b : t) : t :=
  match a, b with
  | NaN, _ => NaN
  | _, NaN => NaN
  | Finite p, Finite q => Finite (p + q)
  | PlusInfinity, MinusInfinity => NaN
  | MinusInfinity, PlusInfinity => NaN
  | PlusInfinity, _ => PlusInfinity
  | _, PlusInfinity => PlusInfinity
  | MinusInfinity, _ => MinusInfinity
  | _, MinusInfinity => MinusInfinity
  end.

(** [a - b]. *)
Definition sub (a b : t) : t := add a (neg b).

(** An infinity of the sign of [q], or NaN for zero. *)
Definition signedInfinity (positive : bool) (q : Q) : t :=
  match Qcompare q 0 with
  | Eq => NaN
  | Gt => if positive then PlusInfinity else MinusInfinity
  | Lt => if positive then MinusInfinity else PlusInfinity
  end.

(** [a * b]. *)
Definition mul (a b : t) : t :=
  match a, b with
  | NaN, _ => NaN
  | _, NaN => NaN
  | Finite p, Finite q => Finite (p * q)
  | PlusInfinity, Finite q => signedInfinity true q
  | MinusInfinity, Finite q => signedInfinity false q
  | Finite p, PlusInfinity => signedInfinity true p
  | Finite p, MinusInfinity => signedInfinity false p
  | PlusInfinity, PlusInfinity => PlusInfinity
  | MinusInfinity, MinusInfinity => PlusInfinity
  | PlusInfinity, MinusInfinity => MinusInfinity
  | MinusInfinity, PlusInfinity => MinusInfinity
  end.

(** [a / b]; a zero divisor is taken as [+0]. *)
Definition div (a b : t) : t :=
  match a, b with
  | NaN, _ => NaN
  | _, NaN => NaN
  | Finite p, Finite q =>
      if Qeq_bool q 0 then signedInfinity true p else Finite (p / q)
  | Finite _, _ => Finite 0
  | PlusInfinity, Finite q =>
      if Qeq_bool q 0 then PlusInfinity else signedInfinity true q
  | MinusInfinity, Finite q =>
      if Qeq_bool q 0 then MinusInfinity else signedInfinity false q
  | _, _ => NaN
  end.

(** [a < b]. *)
Definition ltb (a b : t) : bool :=
  match a, b with
  | NaN, _ => false
  | _, NaN => false
  | Finite p, Finite q => Qltb p q
  | MinusInfinity, MinusInfinity => false
  | MinusInfinity, _ => true
  | _, PlusInfinity =>
      match a with
      | PlusInfinity => false
      | _ => true
      end
  | _, _ => false
  end.

(** [Math.min(a, b)] and [Math.max(a, b)]: NaN when either is NaN. *)
Definition min (a b : t) : t :=
  match a, b with
  | NaN, _ => NaN
  | _, NaN => NaN
  | MinusInfinity, _ => MinusInfinity
  | _, MinusInfinity => MinusInfinity
  | PlusInfinity, _ => b
  | _, PlusInfinity => a
  | Finite p, Finite q => Finite (Qmin p q)
  end.

Definition max (a b : t) : t :=
  match a, b with
  | NaN, _ => NaN
  | _, NaN => NaN
  | PlusInfinity, _ => PlusInfinity
  | _, PlusInfinity => PlusInfinity
  | MinusInfinity, _ => b
  | _, MinusInfinity => a
  | Finite p, Finite q => Finite (Qmax p q)
  end.

(** [Math.max(a, b, c)]. *)
Definition max3 (a b c : t) : t := max (max a b) c.

(** Two numbers are the same finite value. *)
Definition sameFinite (a b : t) : Prop :=
  match a, b with
  | Finite p, Finite q => p == q
  | _, _ => False
  end.

End JsNumber.

(** The classes of [Three] on such numbers.  [Box3] keeps its two
    corners; [setFromBufferAttribute] expands the empty box point by
    point with [Math.min] and [Math.max], as three.js does, and
    [translate] goes through [Vector3.applyMatrix4] with the translation
    matrix. *)

Module FloatGeometry.

Import JsNumber.

Record Vector3 : Type := mkVector3 { x : t; y : t; z : t }.

Definition vmin (a b : Vector3) : Vector3 :=
  mkVector3 (min (x a) (x b)) (min (y a) (y b)) (min (z a) (z b)).
Definition vmax (a b : Vector3) : Vector3 :=
  mkVector3 (max (x a) (x b)) (max (y a) (y b)) (max (z a) (z b)).
Definition addVectors (a b : Vector3) : Vector3 :=
  mkVector3 (add (x a) (x b)) (add (y a) (y b)) (add (z a) (z b)).
Definition subVectors (a b : Vector3) : Vector3 :=
  mkVector3 (sub (x a) (x b)) (sub (y a) (y b)) (sub (z a) (z b)).
Definition multiplyScalar (a : Vector3) (s : t) : Vector3 :=
  mkVector3 (mul (x a) s) (mul (y a) s) (mul (z a) s).

(** [THREE.Box3]: its two corners. *)
Record Box3 : Type := mkBox3 { min : Vector3; max : Vector3 }.

(** [Box3.makeEmpty()]. *)
Definition makeEmpty : Box3 :=
  mkBox3 (mkVector3 PlusInfinity PlusInfinity PlusInfinity)
         (mkVector3 MinusInfinity MinusInfinity MinusInfinity).

Definition expandByPoint (b : Box3) (p : Vector3) : Box3 :=
  mkBox3 (vmin (min b) p) (vmax (max b) p).

Definition setFromBufferAttribute (ps : list Vector3) : Box3 :=
  fold_left expandByPoint ps makeEmpty.

Definition isEmpty (b : Box3) : bool :=
  ltb (x (max b)) (x (min b)) || ltb (y (max b)) (y (min b)) ||
  ltb (z (max b)) (z (min b)).

Definition getCenter (b : Box3) : Vector3 :=
  if isEmpty b then mkVector3 (Finite 0) (Finite 0) (Finite 0)
  else multiplyScalar (addVectors (min b) (max b)) (Finite (1 # 2)).

Definition getSize (b : Box3) : Vector3 :=
  if isEmpty b then mkVector3 (Finite 0) (Finite 0) (Finite 0)
  else subVectors (max b) (min b).

Record BufferGeometry : Type := mkGeometry {
  position : list Vector3;
  boundingBox : option Box3
}.

Definition computeBoundingBox (g : BufferGeometry) : BufferGeometry :=
  mkGeometry (position g) (Some (setFromBufferAttribute (position g))).

Definition computeVertexNormals (g : BufferGeometry) : BufferGeometry := g.

(** [THREE.Matrix4], by rows. *)
Record Matrix4 : Type := mkMatrix4 {
  n11 : t; n12 : t; n13 : t; n14 : t;
  n21 : t; n22 : t; n23 : t; n24 : t;
  n31 : t; n32 : t; n33 : t; n34 : t;
  n41 : t; n42 : t; n43 : t; n44 : t
}.

(** [Matrix4.makeTranslation(x, y, z)]. *)
Definition makeTranslation (tx ty tz : t) : Matrix4 :=
  mkMatrix4 (Finite 1) (Finite 0) (Finite 0) tx
            (Finite 0) (Finite 1) (Finite 0) ty
            (Finite 0) (Finite 0) (Finite 1) tz
            (Finite 0) (Finite 0) (Finite 0) (Finite 1).

(** [Vector3.applyMatrix4(m)]:
    [w = 1 / (e[3] * x + e[7] * y + e[11] * z + e[15])] and
    [x' = (e[0] * x + e[4] * y + e[8] * z + e[12]) * w], likewise for
    [y'] and [z']. *)
Definition applyMatrix4 (m : Matrix4) (v : Vector3) : Vector3 :=
  let row (a b c d : t) :=
    add (add (add (mul a (x v)) (mul b (y v))) (mul c (z v))) d in
  let w := div (Finite 1) (row (n41 m) (n42 m) (n43 m) (n44 m)) in
  mkVector3 (mul (row (n11 m) (n12 m) (n13 m) (n14 m)) w)
            (mul (row (n21 m) (n22 m) (n23 m) (n24 m)) w)
            (mul (row (n31 m) (n32 m) (n33 m) (n34 m)) w).

(** [BufferGeometry.translate(tx, ty, tz)]: [applyMatrix4] with the
    translation matrix on every vertex, then the bounding box again when
    one is stored. *)
Definition translate (g : BufferGeometry) (tx ty tz : t) : BufferGeometry :=
  let moved := map (applyMatrix4 (makeTranslation tx ty tz)) (position g) in
  mkGeometry moved
    (match boundingBox g with
     | None => None
     | Some _ => Some (setFromBufferAttribute moved)
     end).

Definition triangleCount (g : BufferGeometry) : nat :=
  Nat.div (List.length (position g)) 3.

(** Lines 107-122 of [STLModel], as [normalizeAndFrame] below has
    them. *)
Definition normalizeAndFrame (geometry : BufferGeometry)
  : BufferGeometry * option Vector3 :=
  let g1 := computeBoundingBox (computeVertexNormals geometry) in
  match boundingBox g1 with
  | Some box =>
      let center := getCenter box in
      let g2 := translate g1 (neg (x center)) (neg (y center)) (neg (z center)) in
      match boundingBox g2 with
      | Some box' =>
          let size := getSize box' in
          let maxDim := max3 (x size) (y size) (z size) in
          let distance := mul maxDim (Finite 2) in
          (g2, Some (mkVector3 distance distance distance))
      | None => (g2, None)
      end
  | None => (g1, None)
  end.

Definition framingDistance (geometry : BufferGeometry) : option t :=
  match snd (normalizeAndFrame geometry) with
  | Some p => Some (x p)
  | None => None
  end.

(** A vector, a box and a geometry of [Three] as finite values here. *)
Definition ofVector (v : Three.Vector3) : Vector3 :=
  mkVector3 (Finite (Three.x v)) (Finite (Three.y v)) (Finite (Three.z v)).

Definition ofBox (b : Three.Box3) : Box3 :=
  match b with
  | Three.EmptyBox => makeEmpty
  | Three.Box mn mx => mkBox3 (ofVector mn) (ofVector mx)
  end.

Definition ofGeometry (g : Three.BufferGeometry) : BufferGeometry :=
  mkGeometry (map ofVector (Three.position g))
             (option_map ofBox (Three.boundingBox g)).

(** The vector of [Three] behind a vector whose coordinates are all
    finite. *)
Definition toVector (v : Vector3) : option Three.Vector3 :=
  match x v, y v, z v with
  | Finite a, Finite b, Finite c => Some (Three.mkVector3 a b c)
  | _, _, _ => None
  end.

Fixpoint toVectors (vs : list Vector3) : option (list Three.Vector3) :=
  match vs with
  | [] => Some []
  | v :: rest =>
      match toVector v, toVectors rest with
      | Some q, Some qs => Some (q :: qs)
      | _, _ => None
      end
  end.



End FloatGeometry.

(** ** Byte buffers and text decoding *)

(** [ArrayBuffer]: an immutable sequence of bytes. *)
Definition ArrayBuffer : Type := list byte.

(** [ArrayBuffer.prototype.slice(begin, end)] for [0 <= begin <= end];
    both ends are clipped to the buffer's length. *)
Definition slice (b : ArrayBuffer) (start stop : nat) : ArrayBuffer :=
  firstn (stop - start) (skipn start b).

(** [new TextDecoder('utf-8').decode(bytes)].  An ASCII byte decodes to
    its own character.  A byte from 0x80 up takes part in a code point
    outside ASCII (or becomes U+FFFD); the model keeps it as the
    character with that byte's code, which is outside ASCII too, so a
    comparison with an ASCII word has the same outcome. *)
Definition decode (b : ArrayBuffer) : string := string_of_list_byte b.

(** [String.prototype.toLowerCase()] on one character: the letters
    [A]-[Z] move to [a]-[z].  No character outside ASCII lower-cases to
    an ASCII letter among [s o l i d]. *)
Definition lowerChar (c : ascii) : ascii :=
  let n := nat_of_ascii c in
  if (65 <=? n)%nat && (n <=? 90)%nat then ascii_of_nat (n + 32) else c.

Fixpoint toLowerCase (s : string) : string :=
  match s with
  | EmptyString => EmptyString
  | String c rest => String (lowerChar c) (toLowerCase rest)
  end.

(** ** The STL loader as seen from [STLModel] *)

(** The value carried by a thrown exception: its message. *)
Definition JsError : Type := string.

(** The completion of a call that may throw. *)
Inductive Completion (A : Type) : Type :=
| Returns (a : A)
| Throws (e : JsError).
Arguments Returns {A} a.
Arguments Throws {A} e.

(** The two entry points of three.js's [STLLoader] that [STLModel] calls:
    [loader.parse(arrayBuffer)] and [(loader as any).parseASCII(text)].
    Their code is part of three.js; every theorem below holds for every
    loader. *)
Record STLLoader : Type := mkLoader {
  parse : ArrayBuffer -> Completion BufferGeometry;
  parseASCII : string -> Completion BufferGeometry
}.

(** One line written to the console. *)
Inductive ConsoleEntry : Type :=
| ConsoleLog (msg : string)
| ConsoleWarn (msg : string) (e : JsError)
| ConsoleError (msg : string) (e : JsError).

(** The error raised at line 87 when the buffer does not begin with
    [solid]. *)
Definition notAsciiError : JsError :=
  "File does not appear to be a valid ASCII STL, and binary parsing failed.".

(** Lines 78-88, the body of the inner [try]: sniff the first five bytes
    and either re-parse the whole buffer as text or throw. *)
Definition asciiFallback (loader : STLLoader) (fileBuffer : ArrayBuffer)
  : Completion BufferGeometry * list ConsoleEntry :=
  let beginning := toLowerCase (decode (slice fileBuffer 0 5)) in
  if String.eqb beginning "solid" then
    let fileText := decode fileBuffer in
    (parseASCII loader fileText,
     [ConsoleLog "Detected ASCII file, re-parsing as text."])
  else
    (Throws notAsciiError, []).

(** Lines 70-94, the [onLoad] callback handed to [fileLoader.load]: the
    argument it passes to [setGeometry], and what it writes to the
    console. *)
Definition onLoad (loader : STLLoader) (fileBuffer : ArrayBuffer)
  : option BufferGeometry * list ConsoleEntry :=
  match parse loader fileBuffer with
  | Returns loadedGeometry =>
      (Some loadedGeometry,
       [ConsoleLog "Successfully parsed with standard method."])
  | Throws error =>
      let warn :=
        ConsoleWarn "Standard STL parsing failed, attempting fallback." error in
      match asciiFallback loader fileBuffer with
      | (Returns asciiGeometry, out) => (Some asciiGeometry, warn :: out)
      | (Throws fallbackError, out) =>
          (None,
           warn :: out ++
           [ConsoleError "STL parsing fallback also failed:" fallbackError])
      end
  end.

(** Lines 98-101, the [onError] callback of [fileLoader.load]. *)
Definition onError (error : JsError) : option BufferGeometry * list ConsoleEntry :=
  (None, [ConsoleError "Error loading STL file from server:" error]).

(** ** Normalising the geometry and framing the camera *)

(** [Math.max(a, b, c)]. *)
Definition max3 (a b c : Q) : Q := Qmax (Qmax a b) c.

(** Lines 107-122: vertex normals, bounding box, translation by minus the
    box centre, and the initial camera position computed from the size of
    [geometry.boundingBox] as it stands after the translation.  The
    result is the geometry after the in-place updates and
    [initialPosition]; the position is absent where the source skips the
    block ([if (geometry.boundingBox)]), which [computeBoundingBox]
    and [translate] never cause. *)
Definition normalizeAndFrame (geometry : BufferGeometry)
  : BufferGeometry * option Vector3 :=
  let g1 := computeBoundingBox (computeVertexNormals geometry) in
  match boundingBox g1 with
  | Some box =>
      let center := getCenter box in
      let g2 := translate g1 (- x center) (- y center) (- z center) in
      match boundingBox g2 with
      | Some box' =>
          let size := getSize box' in
          let maxDim := max3 (x size) (y size) (z size) in
          let distance := maxDim * 2 in
          (g2, Some (mkVector3 distance distance distance))
      | None => (g2, None)
      end
  | None => (g1, None)
  end.

(** The [distance] of line 121 for a geometry. *)
Definition framingDistance (geometry : BufferGeometry) : option Q :=
  match snd (normalizeAndFrame geometry) with
  | Some p => Some (x p)
  | None => None
  end.

(** ** A loader after three.js's [STLLoader]

    The binary side of [STLLoader.parse] as three.js ships it
    ([examples/jsm/loaders/STLLoader.js]): [isBinary] compares the
    declared face count with the buffer length and otherwise looks for
    the bytes of [solid]; [parseBinary] reads twelve floats per face
    through a [DataView], whose reads throw a [RangeError] outside the
    buffer.  The text side of the library is a parameter.  This loader
    instantiates [STLLoader] for concrete runs. *)

Module ThreeSTL.

Local Open Scope Z_scope.

Definition rangeError : JsError :=
  "RangeError: Offset is outside the bounds of the DataView".

(** [DataView.getUint8(off)]. *)
Definition getUint8 (data : ArrayBuffer) (off : Z) : option Z :=
  if off <? 0 then None
  else option_map (fun b => Z.of_N (Byte.to_N b)) (nth_error data (Z.to_nat off)).

(** [DataView.getUint32(off, littleEndian)]. *)
Definition getUint32 (data : ArrayBuffer) (off : Z) (littleEndian : bool)
  : option Z :=
  match getUint8 data off, getUint8 data (off + 1),
        getUint8 data (off + 2), getUint8 data (off + 3) with
  | Some b0, Some b1, Some b2, Some b3 =>
      let word a b c d :=
        Z.lor a (Z.lor (Z.shiftl b 8) (Z.lor (Z.shiftl c 16) (Z.shiftl d 24))) in
      Some (if littleEndian then word b0 b1 b2 b3 else word b3 b2 b1 b0)
  | _, _, _, _ => None
  end.

(** The value of an IEEE-754 binary32 bit pattern. *)
Definition float32Value (bits : Z) : JsNumber.t :=
  let sign := Z.testbit bits 31 in
  let e := Z.land (Z.shiftr bits 23) 255 in
  let m := Z.land bits 8388607 in
  if e =? 255 then
    if m =? 0 then
      if sign then JsNumber.MinusInfinity else JsNumber.PlusInfinity
    else JsNumber.NaN
  else
    let mant := if e =? 0 then m else 8388608 + m in
    let ex := if e =? 0 then -149 else e - 150 in
    let magnitude :=
      if 0 <=? ex then inject_Z (mant * 2 ^ ex)
      else Qred (Qmake mant (Z.to_pos (2 ^ (- ex)))) in
    JsNumber.Finite (if sign then Qopp magnitude else magnitude).

(** [DataView.getFloat32(off, true)]: an offset outside the buffer
    throws. *)
Definition getFloat32 (data : ArrayBuffer) (off : Z) : Completion JsNumber.t :=
  match getUint32 data off true with
  | None => Throws rangeError
  | Some bits => Returns (float32Value bits)
  end.

(** [matchDataViewAt(query, reader, offset)]. *)
Definition matchDataViewAt (query : list Z) (data : ArrayBuffer) (offset : Z)
  : bool :=
  forallb (fun '(i, q) =>
             match getUint8 data (offset + i) with
             | Some b => b =? q
             | None => false
             end)
          (combine [0; 1; 2; 3; 4] query).

(** [isBinary(data)]. *)
Definition isBinary (data : ArrayBuffer) : Completion bool :=
  let face_size := (32 / 8 * 3) + ((32 / 8 * 3) * 3) + (16 / 8) in
  match getUint32 data 80 true with
  | None => Throws rangeError
  | Some n_faces =>
      let expect := 80 + (32 / 8) + (n_faces * face_size) in
      if expect =? Z.of_nat (List.length data) then Returns true
      else
        let solid := [115; 111; 108; 105; 100] in
        if existsb (matchDataViewAt solid data) [0; 1; 2; 3; 4]
        then Returns false
        else Returns true
  end.

(** Whether the 80-byte header carries the marker [COLOR=] (at an index
    below 70); with it [parseBinary] also reads each face's attribute
    word. *)
Definition hasColors (data : ArrayBuffer) : bool :=
  existsb (fun index =>
             match getUint32 data index false,
                   getUint8 data (index + 4), getUint8 data (index + 5) with
             | Some w, Some r, Some eq =>
                 (w =? 0x434F4C4F) && (r =? 0x52) && (eq =? 0x3D)
             | _, _, _ => false
             end)
          (map Z.of_nat (seq 0 70)).

(** One vertex: three floats from [vertexstart]. *)
Definition readVertex (data : ArrayBuffer) (vertexstart : Z)
  : Completion FloatGeometry.Vector3 :=
  match getFloat32 data vertexstart, getFloat32 data (vertexstart + 4),
        getFloat32 data (vertexstart + 8) with
  | Returns vx, Returns vy, Returns vz =>
      Returns (FloatGeometry.mkVector3 vx vy vz)
  | Throws e, _, _ => Throws e
  | _, Throws e, _ => Throws e
  | _, _, Throws e => Throws e
  end.

(** One face record from [start]: the normal, then (with colours) the
    attribute word, then the vertices [v1 v2 v3]. *)
Definition readFace (data : ArrayBuffer) (colors : bool) (start : Z)
  : Completion (list FloatGeometry.Vector3) :=
  match readVertex data start with
  | Throws e => Throws e
  | Returns _ =>
      if colors && negb (Z.of_nat (List.length data) >=? start + 50)
      then Throws rangeError
      else
        match readVertex data (start + 12), readVertex data (start + 24),
              readVertex data (start + 36) with
        | Returns v1, Returns v2, Returns v3 => Returns [v1; v2; v3]
        | Throws e, _, _ => Throws e
        | _, Throws e, _ => Throws e
        | _, _, Throws e => Throws e
        end
  end.

(** The loop [for (face = 0; face < faces; face++)] of [parseBinary].
    Every pass reads inside the buffer at an offset that grows by 50,
    so the loop makes at most one pass per byte before a read throws;
    [fuel] counts the passes. *)
Fixpoint readFaces (fuel : nat) (data : ArrayBuffer) (colors : bool)
         (faces face : Z) : Completion (list FloatGeometry.Vector3) :=
  if face <? faces then
    match fuel with
    | O => Throws rangeError
    | S fuel' =>
        match readFace data colors (84 + face * 50) with
        | Throws e => Throws e
        | Returns vs =>
            match readFaces fuel' data colors faces (face + 1) with
            | Throws e => Throws e
            | Returns rest => Returns (vs ++ rest)
            end
        end
    end
  else Returns [].

(** [parseBinary(data)]. *)
Definition parseBinary (data : ArrayBuffer)
  : Completion FloatGeometry.BufferGeometry :=
  match getUint32 data 80 true with
  | None => Throws rangeError
  | Some faces =>
      match readFaces (S (List.length data)) data (hasColors data) faces 0 with
      | Throws e => Throws e
      | Returns vertices => Returns (FloatGeometry.mkGeometry vertices None)
      end
  end.

(** The viewer below works on geometries of [Three], whose coordinates
    are finite.  A parsed geometry with finite vertices is handed to it
    as it is; one with an infinite or NaN vertex coordinate has no
    counterpart there, and this loader reports it as a throw.  (The
    program displays such a geometry; what the normaliser makes of it is
    worked out on [FloatGeometry].) *)
Definition nonFiniteVertex : JsError := "vertex coordinate is not finite".

Definition finiteGeometry (g : FloatGeometry.BufferGeometry)
  : Completion BufferGeometry :=
  match FloatGeometry.toVectors (FloatGeometry.position g) with
  | Some vertices => Returns (mkGeometry vertices None)
  | None => Throws nonFiniteVertex
  end.

Section WithTextParser.

(** The library's own parser for the text format. *)
Variable textParser : string -> Completion BufferGeometry.

(** [STLLoader.parse(data)]:
    [isBinary(binData) ? parseBinary(binData) : parseASCII(ensureString(data))]. *)
Definition parseData (data : ArrayBuffer) : Completion BufferGeometry :=
  match isBinary data with
  | Throws e => Throws e
  | Returns true =>
      match parseBinary data with
      | Throws e => Throws e
      | Returns g => finiteGeometry g
      end
  | Returns false => textParser (decode data)
  end.

End WithTextParser.

(** The text parser is a function local to [parse]; the loader object
    has no [parseASCII] property, and calling it throws. *)
Definition noParseASCII : string -> Completion BufferGeometry :=
  fun _ => Throws "TypeError: loader.parseASCII is not a function".

(** The loader, given the library's text parser. *)
Definition loader (textParser : string -> Completion BufferGeometry)
  : STLLoader :=
  mkLoader (parseData textParser) noParseASCII.

End ThreeSTL.

(** ** The scene objects the viewer moves *)

(** The default camera of the canvas: [camera] in [STLModel] and
    [controls.object] in [STLViewer] are this one object. *)
Module PerspectiveCamera.

(** [position] and [zoom] are the fields the components assign;
    [lookingAt] is the point the camera was last turned to by
    [lookAt]. *)
Record t : Type := mk { position : Vector3; zoom : Q; lookingAt : Vector3 }.

(** [camera.lookAt(p)]. *)
Definition lookAt (c : t) (p : Vector3) : t := mk (position c) (zoom c) p.

(** [camera.updateProjectionMatrix()] recomputes the projection matrix
    from [zoom] and the lens parameters; none of the three fields
    changes. *)
Definition updateProjectionMatrix (c : t) : t := c.

End PerspectiveCamera.

Module OrbitControls.

(** The orbit controls, reduced to their [target]. *)
Record t : Type := mk { target : Vector3 }.

(** A freshly created [OrbitControls] targets the origin. *)
Definition create : t := mk origin.

(** The limits given to the controls at lines 276-277. *)
Definition minDistance : Q := 1 # 10.
Definition maxDistance : Q := 1000.

(** [a.distanceToSquared(b)]. *)
Definition distanceToSquared (a b : Vector3) : Q :=
  (x a - x b) * (x a - x b) + (y a - y b) * (y a - y b) +
  (z a - z b) * (z a - z b).

(** Camera positions that [update()] leaves where they are.  The
    library turns [position - target] into a radius and two angles, keeps
    the polar angle at least [EPS = 0.000001] away from the vertical
    axis, clamps the radius to [minDistance, maxDistance] and turns the
    result back into a position; in exact arithmetic that gives the same
    position when the radius is within the limits and the offset is off
    the axis by that angle.  The radius is compared through its square,
    and the angle through [tan(EPS)^2 < 1/10^11]: an offset with
    [dx^2 + dz^2 >= dy^2 / 10^11] is off the axis by more than [EPS]. *)
Definition insideLimits (target position : Vector3) : bool :=
  let dx := x position - x target in
  let dy := y position - y target in
  let dz := z position - z target in
  Qle_bool (minDistance * minDistance) (distanceToSquared position target) &&
  Qle_bool (distanceToSquared position target) (maxDistance * maxDistance) &&
  Qle_bool (dy * dy * (1 # 100000000000)) (dx * dx + dz * dz).

(** Where [update()] puts the camera when its position is not inside the
    limits: on the nearer limit along the same direction, or off the
    vertical axis by [EPS].  These positions involve square roots and
    angles; the library's function from target and position to the new
    position is a parameter, and every theorem below holds for every such
    function. *)
Definition Placement : Type := Vector3 -> Vector3 -> Vector3.

(** [controls.update()] with no pointer input pending (no rotation, pan
    or dolly left to apply): the camera is put inside the limits and
    turned to the target. *)
Definition update (place : Placement) (controls : t)
           (camera : PerspectiveCamera.t) : PerspectiveCamera.t :=
  let position := PerspectiveCamera.position camera in
  let position :=
    if insideLimits (target controls) position then position
    else place (target controls) position in
  PerspectiveCamera.lookAt
    (PerspectiveCamera.mk position (PerspectiveCamera.zoom camera)
                          (PerspectiveCamera.lookingAt camera))
    (target controls).

End OrbitControls.

(** ** Orbit controls for concrete runs

    A placement after three.js's [update()], in rational arithmetic.  An
    offset longer than [maxDistance] or shorter than [minDistance] is
    scaled onto that limit along its direction; the square root of the
    squared length is rounded to a rational (up at the far limit, down at
    the near one), so that the result stays within the limits.  An
    offset of length zero or next to the vertical axis is put at the
    clamped radius on the axis side it is on, [EPS] off the axis towards
    [z].  This placement instantiates the parameter of the viewer for
    concrete runs. *)

Module ThreeOrbit.

Import OrbitControls.

(** Rational bounds of the square root of a non-negative [n / d]:
    [sqrt (n / d) = sqrt (n * d) / d]. *)
Definition sqrtDown (q : Q) : Q :=
  Qmake (Z.sqrt (Qnum q * Zpos (Qden q))) (Qden q).
Definition sqrtUp (q : Q) : Q :=
  Qmake (Z.sqrt_up (Qnum q * Zpos (Qden q))) (Qden q).

(** [Math.max(minDistance, Math.min(maxDistance, radius))]. *)
Definition clampDistance (radius : Q) : Q :=
  Qmax minDistance (Qmin maxDistance radius).

Definition place : Placement := fun target position =>
  let offset := subVectors position target in
  let r2 := distanceToSquared position target in
  let offAxis :=
    Qle_bool (y offset * y offset * (1 # 100000000000))
             (x offset * x offset + z offset * z offset) in
  if Qltb 0 r2 && offAxis then
    if Qltb (maxDistance * maxDistance) r2 then
      addVectors target (multiplyScalar offset (maxDistance / sqrtUp r2))
    else if Qltb r2 (minDistance * minDistance) then
      addVectors target (multiplyScalar offset (minDistance / sqrtDown r2))
    else position
  else
    let radius := clampDistance (sqrtDown r2) in
    let side := if Qltb (y offset) 0 then - radius else radius in
    addVectors target (mkVector3 0 side (radius * (1 # 1000000))).

End ThreeOrbit.

(** ** The viewer: state of [STLViewer] and of its [STLModel] child *)

Record ViewerState : Type := mkViewer {
  (* STLViewer *)
  modelUrl : option string;
  error : bool;
  initialCameraPosition : Vector3;
  controlsRef : option OrbitControls.t;
  (* the canvas *)
  camera : PerspectiveCamera.t;
  (* STLModel *)
  geometry : option BufferGeometry;
  isRotating : bool;
  (* fetches started by [fileLoader.load] and not yet completed: those of
     the mounted [STLModel], and those whose [STLModel] is gone *)
  nextRequest : nat;
  inFlight : list (nat * string);
  orphaned : list (nat * string);
  console : list ConsoleEntry
}.

(** [STLViewer] as first rendered, without a model URL: line 192
    ([error]) and line 194 ([initialCameraPosition]); nothing is mounted
    inside the canvas yet.  [camera0] stands for the camera a canvas
    creates when it mounts. *)
Definition mountViewer (camera0 : PerspectiveCamera.t) : ViewerState :=
  mkViewer None false (mkVector3 5 5 5) None camera0 None false 0%nat [] [] [].

Definition withModelUrl (s : ViewerState) (u : option string) : ViewerState :=
  mkViewer u (error s) (initialCameraPosition s) (controlsRef s)
           (camera s) (geometry s) (isRotating s) (nextRequest s) (inFlight s)
           (orphaned s) (console s).

Definition withCamera (s : ViewerState) (c : PerspectiveCamera.t) : ViewerState :=
  mkViewer (modelUrl s) (error s) (initialCameraPosition s) (controlsRef s)
           c (geometry s) (isRotating s) (nextRequest s) (inFlight s)
           (orphaned s) (console s).

Definition withControls (s : ViewerState) (r : option OrbitControls.t)
  : ViewerState :=
  mkViewer (modelUrl s) (error s) (initialCameraPosition s) r
           (camera s) (geometry s) (isRotating s) (nextRequest s) (inFlight s)
           (orphaned s) (console s).

Definition withInitialCameraPosition (s : ViewerState) (p : Vector3)
  : ViewerState :=
  mkViewer (modelUrl s) (error s) p (controlsRef s)
           (camera s) (geometry s) (isRotating s) (nextRequest s) (inFlight s)
           (orphaned s) (console s).

Definition withGeometry (s : ViewerState) (g : option BufferGeometry)
  : ViewerState :=
  mkViewer (modelUrl s) (error s) (initialCameraPosition s) (controlsRef s)
           (camera s) g (isRotating s) (nextRequest s) (inFlight s)
           (orphaned s) (console s).

Definition withRotating (s : ViewerState) (r : bool) : ViewerState :=
  mkViewer (modelUrl s) (error s) (initialCameraPosition s) (controlsRef s)
           (camera s) (geometry s) r (nextRequest s) (inFlight s)
           (orphaned s) (console s).

Definition withConsole (s : ViewerState) (out : list ConsoleEntry)
  : ViewerState :=
  mkViewer (modelUrl s) (error s) (initialCameraPosition s) (controlsRef s)
           (camera s) (geometry s) (isRotating s) (nextRequest s) (inFlight s)
           (orphaned s) (console s ++ out).

(** Lines 197-199, [handleInitialViewComputed]. *)
Definition handleInitialViewComputed (s : ViewerState) (position : Vector3)
  : ViewerState :=
  withInitialCameraPosition s position.

(** Lines 202-212, [resetView]. *)
Definition resetView (place : OrbitControls.Placement) (s : ViewerState)
  : ViewerState :=
  match controlsRef s with
  | Some controls =>
      let object := camera s in
      let object := PerspectiveCamera.mk (initialCameraPosition s)
                      (PerspectiveCamera.zoom object)
                      (PerspectiveCamera.lookingAt object) in
      let object := PerspectiveCamera.mk (PerspectiveCamera.position object) 1
                      (PerspectiveCamera.lookingAt object) in
      let object := PerspectiveCamera.updateProjectionMatrix object in
      let controls := OrbitControls.mk origin in
      let object := OrbitControls.update place controls object in
      withControls (withCamera s object) (Some controls)
  | None => s
  end.

(** Lines 214-221, [zoom]. *)
Definition zoom (place : OrbitControls.Placement) (factor : Q)
           (s : ViewerState) : ViewerState :=
  match controlsRef s with
  | Some controls =>
      let object := camera s in
      let object := PerspectiveCamera.mk (PerspectiveCamera.position object)
                      (PerspectiveCamera.zoom object * factor)
                      (PerspectiveCamera.lookingAt object) in
      let object := PerspectiveCamera.updateProjectionMatrix object in
      withCamera s (OrbitControls.update place controls object)
  | None => s
  end.


(** JavaScript truthiness of a [string | null]: neither [null] nor the
    empty string. *)
Definition truthy (u : option string) : bool :=
  match u with
  | Some url => negb (String.eqb url "")
  | None => false
  end.

(** The canvas, its controls and the control panel are rendered when
    there is no error and the model URL is truthy (lines 223-233). *)
Definition canvasMounted (s : ViewerState) : bool :=
  negb (error s) && truthy (modelUrl s).

(** The user- and network-driven events of a viewer.  Progress
    callbacks (lines 95-97) only write to the console and the per-frame
    rotation (lines 144-148) only turns the mesh; neither is an event
    here.  [Orbit] stands for anything the controls do to the camera on
    their own: pointer input, taken as a completed motion (the frames
    over which damping spreads a drag belong to it), and the [update()]
    they run on a rendered frame, which puts a camera that is outside
    their limits back inside. *)
Inductive Event : Type :=
| SetModelUrl (url : option string) (* the parent changes the [modelUrl] prop *)
| FetchLoaded (request : nat) (fileBuffer : ArrayBuffer)
| FetchFailed (request : nat) (e : JsError)
| ClickReset
| ClickZoomIn
| ClickZoomOut
| Orbit (position target : Vector3) (* the controls move the camera *)
| ClickModel
| CanvasError.

(** The parent asks for the model at a URL. *)
Definition LoadRequest (url : string) : Event := SetModelUrl (Some url).

Definition removeRequest (request : nat) (l : list (nat * string))
  : list (nat * string) :=
  filter (fun r => negb (Nat.eqb (fst r) request)) l.

Definition hasRequest (request : nat) (l : list (nat * string)) : bool :=
  existsb (fun r => Nat.eqb (fst r) request) l.

Definition isInFlight (request : nat) (s : ViewerState) : bool :=
  hasRequest request (inFlight s).

Definition completeRequest (request : nat) (s : ViewerState) : ViewerState :=
  mkViewer (modelUrl s) (error s) (initialCameraPosition s) (controlsRef s)
           (camera s) (geometry s) (isRotating s) (nextRequest s)
           (removeRequest request (inFlight s))
           (removeRequest request (orphaned s)) (console s).

(** [STLModel] and the canvas go away: the component state is dropped,
    the controls' ref is cleared, and the callbacks of pending fetches
    no longer reach any state. *)
Definition unmountCanvas (s : ViewerState) : ViewerState :=
  mkViewer (modelUrl s) (error s) (initialCameraPosition s) None
           (camera s) None false (nextRequest s) []
           (orphaned s ++ inFlight s) (console s).

(** [useThree().controls] in [STLModel] (line 53): the controls
    registered as the default ones of the canvas.  The canvas starts with
    none ([null]); drei's [OrbitControls] registers itself only when it
    is given [makeDefault], which lines 270-278 do not pass, and nothing
    else in the repository sets it. *)
Definition useThreeControls (s : ViewerState) : option OrbitControls.t := None.

Section Machine.

(** The STL loader created at line 64. *)
Variable loader : STLLoader.

(** What the library's [update()] does to a camera outside the limits
    of the controls. *)
Variable place : OrbitControls.Placement.

(** The camera a canvas creates when it mounts. *)
Variable canvasCamera : PerspectiveCamera.t.

(** Lines 106-141, the framing effect, run when [geometry] holds a new
    geometry. *)
Definition framingEffect (s : ViewerState) : ViewerState :=
  match geometry s with
  | None => s
  | Some geometry0 =>
      let '(geometry1, framed) := normalizeAndFrame geometry0 in
      let s := withGeometry s (Some geometry1) in
      match framed with
      | None => s
      | Some initialPosition =>
          let cam := camera s in
          let cam := PerspectiveCamera.mk initialPosition
                       (PerspectiveCamera.zoom cam)
                       (PerspectiveCamera.lookingAt cam) in
          let s := handleInitialViewComputed s initialPosition in
          match useThreeControls s with
          | Some _ =>
              let controls := OrbitControls.mk origin in
              let cam := OrbitControls.update place controls cam in
              withControls
                (withCamera s (PerspectiveCamera.updateProjectionMatrix cam))
                (Some controls)
          | None =>
              let cam := PerspectiveCamera.lookAt cam origin in
              withCamera s (PerspectiveCamera.updateProjectionMatrix cam)
          end
      end
  end.

(** [setGeometry(value)] followed by the effects that depend on
    [geometry]. *)
Definition setGeometry (value : option BufferGeometry) (s : ViewerState)
  : ViewerState :=
  framingEffect (withGeometry s value).

(** Lines 58-103, the loading effect, run when [STLModel] mounts and
    when its [url] changes: an empty [url] clears the geometry;
    otherwise [fileLoader.load] starts a fetch whose callbacks run
    later. *)
Definition loadEffect (url : string) (s : ViewerState) : ViewerState :=
  if String.eqb url "" then setGeometry None s
  else
    mkViewer (modelUrl s) (error s) (initialCameraPosition s) (controlsRef s)
             (camera s) (geometry s) (isRotating s) (S (nextRequest s))
             (inFlight s ++ [(nextRequest s, url)]) (orphaned s) (console s).

(** The canvas mounts: it creates its camera and the orbit controls,
    [STLModel] starts with no geometry, and its loading effect runs. *)
Definition mountCanvas (url : string) (s : ViewerState) : ViewerState :=
  loadEffect url
    (mkViewer (modelUrl s) (error s) (initialCameraPosition s)
       (Some OrbitControls.create) canvasCamera None false
       (nextRequest s) (inFlight s) (orphaned s) (console s)).

(** Whether the [url] prop of [STLModel] keeps its value. *)
Definition sameUrl (current : option string) (url : string) : bool :=
  match current with
  | Some c => String.eqb c url
  | None => false
  end.

(** A fetch completes with [value] for [setGeometry] and [out] for the
    console.  [None]: no such fetch is pending. *)
Definition complete (request : nat) (value : option BufferGeometry)
           (out : list ConsoleEntry) (s : ViewerState) : option ViewerState :=
  if isInFlight request s then
    Some (setGeometry value (withConsole (completeRequest request s) out))
  else if hasRequest request (orphaned s) then
    (* the state setter of an unmounted component has no effect *)
    Some (withConsole (completeRequest request s) out)
  else None.

(** One event.  [None]: the event cannot occur in that state (the
    completion of a fetch that is not pending, a click on something that
    is not rendered). *)
Definition step (ev : Event) (s : ViewerState) : option ViewerState :=
  match ev with
  | SetModelUrl u =>
      let s' := withModelUrl s u in
      if error s then Some s'
      else if truthy (modelUrl s) then
        (* the canvas is mounted *)
        match u with
        | Some url =>
            if truthy u then
              if sameUrl (modelUrl s) url then Some s'
              else Some (loadEffect url s')
            else Some (unmountCanvas s')
        | None => Some (unmountCanvas s')
        end
      else
        match u with
        | Some url => if truthy u then Some (mountCanvas url s') else Some s'
        | None => Some s'
        end
  | FetchLoaded request fileBuffer =>
      let '(value, out) := onLoad loader fileBuffer in
      complete request value out s
  | FetchFailed request e =>
      let '(value, out) := onError e in
      complete request value out s
  | ClickReset => if canvasMounted s then Some (resetView place s) else None
  | ClickZoomIn =>
      if canvasMounted s then Some (zoom place (12 # 10) s) else None
  | ClickZoomOut =>
      if canvasMounted s then Some (zoom place (1 / (12 # 10)) s) else None
  | Orbit position target =>
      match controlsRef s with
      | Some _ =>
          let controls := OrbitControls.mk target in
          let cam := PerspectiveCamera.mk position
                       (PerspectiveCamera.zoom (camera s))
                       (PerspectiveCamera.lookingAt (camera s)) in
          Some (withControls
                  (withCamera s (OrbitControls.update place controls cam))
                  (Some controls))
      | None => None
      end
  | ClickModel =>
      match geometry s with
      | Some _ => Some (withRotating s (negb (isRotating s)))
      | None => None
      end
  | CanvasError =>
      if canvasMounted s then
        Some (unmountCanvas
                (mkViewer (modelUrl s) true (initialCameraPosition s)
                   (controlsRef s) (camera s) (geometry s) (isRotating s)
                   (nextRequest s) (inFlight s) (orphaned s) (console s)))
      else None
  end.

(** A sequence of events, in order. *)
Fixpoint run (evs : list Event) (s : ViewerState) : option ViewerState :=
  match evs with
  | [] => Some s
  | ev :: rest =>
      match step ev s with
      | Some s' => run rest s'
      | None => None
      end
  end.

End Machine.

(** ** What the code is compared with *)

(** The first five bytes spell [solid], in any mix of upper and lower
    case (the sniffing rule in the words of the specification). *)
Definition startsWithSolid (b : ArrayBuffer) : bool :=
  match b with
  | b0 :: b1 :: b2 :: b3 :: b4 :: _ =>
      (Byte.eqb b0 "s" || Byte.eqb b0 "S") &&
      (Byte.eqb b1 "o" || Byte.eqb b1 "O") &&
      (Byte.eqb b2 "l" || Byte.eqb b2 "L") &&
      (Byte.eqb b3 "i" || Byte.eqb b3 "I") &&
      (Byte.eqb b4 "d" || Byte.eqb b4 "D")
  | _ => false
  end.

(** The geometry the viewer holds once a fetch has delivered
    [fileBuffer]: what [onLoad] hands to [setGeometry], after the framing
    effect has normalised it. *)
Definition meshOf (loader : STLLoader) (fileBuffer : ArrayBuffer)
  : option BufferGeometry :=
  option_map (fun g => fst (normalizeAndFrame g)) (fst (onLoad loader fileBuffer)).


(** The stored reset position is the one the framing effect computed for
    the geometry on display. *)
Definition frameMatchesMesh (s : ViewerState) : Prop :=
  match geometry s with
  | Some g =>
      exists parsed,
        normalizeAndFrame parsed = (g, Some (initialCameraPosition s))
  | None => True
  end.

(** ** Sample inputs *)

Module Samples.

Definition byteOf (n : Z) : byte :=
  match Byte.of_N (Z.to_N (Z.land n 255)) with
  | Some b => b
  | None => "000"%byte
  end.

(** Four bytes, least significant first. *)
Definition le32 (n : Z) : list byte :=
  [byteOf n; byteOf (Z.shiftr n 8); byteOf (Z.shiftr n 16); byteOf (Z.shiftr n 24)].

Definition header : list byte := repeat "000"%byte 80.

(** A 50-byte face record: a zero normal, the vertices [(a,0,0)],
    [(0,b,0)], [(0,0,c)] given by their binary32 bit patterns, and a zero
    attribute word. *)
Definition facet (a b c : Z) : list byte :=
  le32 0 ++ le32 0 ++ le32 0 ++
  le32 a ++ le32 0 ++ le32 0 ++
  le32 0 ++ le32 b ++ le32 0 ++
  le32 0 ++ le32 0 ++ le32 c ++
  ["000"%byte; "000"%byte].

(** A well-formed binary STL file of 134 bytes: one triangle with
    vertices (1,0,0), (0,2,0), (0,0,3). *)
Definition stlA : ArrayBuffer :=
  header ++ le32 1 ++ facet 0x3F800000 0x40000000 0x40400000.

(** Another well-formed file: one triangle with vertices (4,0,0),
    (0,4,0), (0,0,4). *)
Definition stlB : ArrayBuffer :=
  header ++ le32 1 ++ facet 0x40800000 0x40800000 0x40800000.



(** [stlA] with one byte appended: 135 bytes for a declared count of 1. *)
Definition stlTrailing : ArrayBuffer := stlA ++ ["000"%byte].

(** A well-formed file with a declared count of 0: 84 bytes. *)
Definition stlEmpty : ArrayBuffer := header ++ le32 0.

(** Ten bytes that are not the start of any STL file. *)
Definition junk : ArrayBuffer := repeat "000"%byte 10.

(** The three.js-style loader, with a text parser that rejects
    everything (no sample reaches it). *)
Definition binaryLoader : STLLoader :=
  ThreeSTL.loader (fun _ => Throws "text format").

(** The camera a canvas starts with. *)
Definition camera0 : PerspectiveCamera.t :=
  PerspectiveCamera.mk (mkVector3 0 0 5) 1 origin.

(** A triangle whose three vertices are the same point. *)
Definition pointMesh : BufferGeometry :=
  mkGeometry [mkVector3 1 2 3; mkVector3 1 2 3; mkVector3 1 2 3] None.

(** The mesh with no triangle. *)
Definition emptyMesh : BufferGeometry := mkGeometry [] None.

End Samples.

(** The corner of the axis-aligned cube with centre [c] and edge [e] on
    the high ([true]) or low ([false]) side of each axis. *)
Definition cubeCorner (c : Vector3) (e : Q) (hx hy hz : bool) : Vector3 :=
  let off (h : bool) := if h then e * (1 # 2) else - (e * (1 # 2)) in
  mkVector3 (x c + off hx) (y c + off hy) (z c + off hz).

(** The surface of that cube as twelve triangles, two per face. *)
Definition cubeMesh (c : Vector3) (e : Q) : BufferGeometry :=
  let v := cubeCorner c e in
  let f := false in
  let t := true in
  mkGeometry
    [ v f f f; v f f t; v f t t;   v f f f; v f t t; v f t f;
      v t f f; v t t f; v t t t;   v t f f; v t t t; v t f t;
      v f f f; v t f f; v t f t;   v f f f; v t f t; v f f t;
      v f t f; v f t t; v t t t;   v f t f; v t t t; v t t f;
      v f f f; v f t f; v t t f;   v f f f; v t t f; v t f f;
      v f f t; v t f t; v t t t;   v f f t; v t t t; v f t t ]
    None.

(** [lo] and [hi] are the least and the greatest value of coordinate
    [f] over the points [ps]. *)
Definition spans (f : Vector3 -> Q) (ps : list Vector3) (lo hi : Q) : Prop :=
  (forall p, In p ps -> lo <= f p /\ f p <= hi) /\
  (exists p, In p ps /\ f p == lo) /\
  (exists p, In p ps /\ f p == hi).

(** [mn] and [mx] are the corners of the tightest axis-aligned box
    around [ps]. *)
Definition Bounds (ps : list Vector3) (mn mx : Vector3) : Prop :=
  spans x ps (x mn) (x mx) /\ spans y ps (y mn) (y mx) /\
  spans z ps (z mn) (z mx).

(** A coordinate function: it commutes with the component-wise
    operations of [Vector3]. *)
Definition Axis (f : Vector3 -> Q) : Prop :=
  (forall a b, f (vmin a b) = Qmin (f a) (f b)) /\
  (forall a b, f (vmax a b) = Qmax (f a) (f b)) /\
  (forall a b, f (addVectors a b) = f a + f b).

(** What holds of every state a mounted viewer can reach: without a
    model URL nothing is in flight or on display; after a canvas error
    nothing is on display; while the canvas is rendered the controls are
    attached; and the stored reset position belongs to the geometry on
    display. *)
Definition wellFormed (s : ViewerState) : Prop :=
  (truthy (modelUrl s) = false -> inFlight s = [] /\ geometry s = None) /\
  (error s = true -> inFlight s = [] /\ geometry s = None) /\
  (canvasMounted s = true -> controlsRef s <> None) /\
  frameMatchesMesh s.

(** ** Further parts of the viewer *)

(** The orbit controls do not outlive their canvas. *)
Definition controlsFollowCanvas (s : ViewerState) : Prop :=
  canvasMounted s = false -> controlsRef s = None.

(** Events that neither complete a fetch nor take the canvas away: a new
    truthy model URL, the three buttons, pointer input and a click on the
    mesh. *)
Definition keepsCanvas (ev : Event) : bool :=
  match ev with
  | SetModelUrl u => truthy u
  | FetchLoaded _ _ => false
  | FetchFailed _ _ => false
  | CanvasError => false
  | ClickReset => true
  | ClickZoomIn => true
  | ClickZoomOut => true
  | Orbit _ _ => true
  | ClickModel => true
  end.




(** Lines 144-148, the per-frame callback of [useFrame], on the mesh's
    [rotation.y]: [meshRef.current] is set while a geometry is
    rendered (lines 150-158). *)
Definition useFrameCallback (s : ViewerState) (rotationY : Q) : Q :=
  match geometry s with
  | Some _ => if isRotating s then rotationY + (1 # 100) else rotationY
  | None => rotationY
  end.

(** [n] rendered frames in a row. *)
Fixpoint renderFrames (n : nat) (s : ViewerState) (rotationY : Q) : Q :=
  match n with
  | O => rotationY
  | S n' => renderFrames n' s (useFrameCallback s rotationY)
  end.

(** What [STLViewer] renders (lines 223-317): the error panel, the
    canvas with its control panel, or the "No Model Loaded" notice. *)
Inductive Panel : Type :=
| ErrorPanel
| CanvasPanel
| NoModelPanel.

Definition render (s : ViewerState) : Panel :=
  if error s then ErrorPanel
  else if truthy (modelUrl s) then CanvasPanel
  else NoModelPanel.

(** A mesh scaled about the origin. *)
Definition scaleMesh (k : Q) (g : BufferGeometry) : BufferGeometry :=
  mkGeometry (map (fun p => multiplyScalar p k) (position g)) None.

(** A mesh moved by a vector. *)
Definition moveMesh (t : Vector3) (g : BufferGeometry) : BufferGeometry :=
  mkGeometry (map (fun p => addVectors p t) (position g)) None.

(** ** The upload widget ([FileUpload], the component that feeds the
    viewer's caller [handleFileUpload])

    File names are strings of 8-bit characters here; [toLowerCase] is
    the ASCII one above, which decides the test for the ASCII suffix
    [.stl] as JavaScript's does. *)

Module FileUpload.

(** [String.prototype.endsWith]: some tail of [s] is [suffix]. *)
Fixpoint endsWith (s suffix : string) : bool :=
  String.eqb s suffix ||
  match s with
  | EmptyString => false
  | String _ rest => endsWith rest suffix
  end.

(** A [File], reduced to its [name]. *)
Record File : Type := mkFile { name : string }.

(** What a handler does with the event: it calls [onFileUpload(file)] or
    shows an alert. *)
Inductive Outcome : Type :=
| OnFileUpload (file : File)
| Alert (message : string).

(** The test both handlers apply:
    [file && file.name.toLowerCase().endsWith(".stl")]. *)
Definition isStlFile (file : option File) : bool :=
  match file with
  | Some f => endsWith (toLowerCase (name f)) ".stl"
  | None => false
  end.

(** [handleFileSelect]: [event.target.files?.[0]] is the first file, or
    [undefined] when [files] is [null] or empty. *)
Definition handleFileSelect (files : option (list File)) : Outcome :=
  let file := match files with
              | Some (f :: _) => Some f
              | _ => None
              end in
  match file with
  | Some f =>
      if isStlFile file then OnFileUpload f
      else Alert "Please select a valid STL file"
  | None => Alert "Please select a valid STL file"
  end.

(** [handleDrop]: [event.dataTransfer.files[0]]. *)
Definition handleDrop (files : list File) : Outcome :=
  let file := match files with
              | f :: _ => Some f
              | [] => None
              end in
  match file with
  | Some f =>
      if isStlFile file then OnFileUpload f
      else Alert "Please drop a valid STL file"
  | None => Alert "Please drop a valid STL file"
  end.

(** The four-character endings the test accepts, letter case aside. *)
Definition isStlExtension (ext : string) : bool :=
  match ext with
  | String c0 (String c1 (String c2 (String c3 EmptyString))) =>
      Ascii.eqb c0 "." &&
      (Ascii.eqb c1 "s" || Ascii.eqb c1 "S") &&
      (Ascii.eqb c2 "t" || Ascii.eqb c2 "T") &&
      (Ascii.eqb c3 "l" || Ascii.eqb c3 "L")
  | _ => false
  end.

End FileUpload.

(** ** [utils/uuid.ts] *)

Module Uuid.

(** The character class [[0-9a-fA-F]]. *)
Definition isHexDigit (c : ascii) : bool :=
  let n := nat_of_ascii c in
  ((48 <=? n) && (n <=? 57) || (97 <=? n) && (n <=? 102) ||
   (65 <=? n) && (n <=? 70))%nat.

(** [[0-9a-fA-F]{n}] at the head of [s]: what follows the [n] digits. *)
Fixpoint hexDigits (n : nat) (s : string) : option string :=
  match n with
  | O => Some s
  | S n' =>
      match s with
      | String c rest => if isHexDigit c then hexDigits n' rest else None
      | EmptyString => None
      end
  end.

(** A literal [-] at the head of [s]. *)
Definition hyphen (s : string) : option string :=
  match s with
  | String c rest => if Ascii.eqb c "-" then Some rest else None
  | EmptyString => None
  end.

Definition andThen (r : option string) (k : string -> option string)
  : option string :=
  match r with
  | Some s => k s
  | None => None
  end.

(** [isUUID]: the regular expression
    [^[0-9a-fA-F]{8}-[0-9a-fA-F]{4}-[0-9a-fA-F]{4}-[0-9a-fA-F]{4}-[0-9a-fA-F]{12}$]
    tested against the whole string. *)
Definition isUUID (str : string) : bool :=
  match
    andThen (andThen (andThen (andThen (andThen (andThen (andThen (andThen
      (hexDigits 8 str) hyphen) (hexDigits 4)) hyphen) (hexDigits 4)) hyphen)
      (hexDigits 4)) hyphen) (hexDigits 12)
  with
  | Some EmptyString => true
  | _ => false
  end.

(** [validateUUID]: throws unless [isUUID]. *)
Definition validateUUID (uuid : string) : Completion unit :=
  if negb (isUUID uuid) then Throws ("Invalid UUID: " ++ uuid)%string
  else Returns tt.

(** Every character of [s] is a hexadecimal digit. *)
Fixpoint allHex (s : string) : bool :=
  match s with
  | EmptyString => true
  | String c rest => isHexDigit c && allHex rest
  end.

End Uuid.

(** ** [utils/logger.ts]: the logger the viewer's callers write to

    The model follows the logger's own fields ([logs], [actions],
    [userId], [sessionId]).  Console output and the [localStorage]
    copies are not tracked.  Logged data are JSON values (what
    [JSON.parse(JSON.stringify(data))] yields); an object lists its own
    properties in enumeration order, with distinct keys, and the
    prototype an object ends up with is not tracked.  What a call
    reads from its surroundings (the clock, [navigator], [window],
    [process.env], a stack trace) comes in an [Env], with one clock
    reading per call. *)

Module Logger.

#[warnings="-register-all"]
Inductive Json : Type :=
| JNull
| JBool (b : bool)
| JNum (n : Q)
| JStr (s : string)
| JArr (items : list Json)
| JObj (entries : list (string * Json)).

Inductive Level : Type :=
| LevelInfo
| LevelWarn
| LevelError
| LevelDebug.

Record LogEntry : Type := mkLogEntry {
  timestamp : Z;
  level : Level;
  category : string;
  message : string;
  data : option Json;
  userId : option string;
  sessionId : string;
  userAgent : string;
  url : string
}.

Record UserAction : Type := mkUserAction {
  actionTimestamp : Z;
  actionUserId : option string;
  actionSessionId : string;
  action : string;
  actionCategory : string;
  actionData : option Json;
  duration : option Z;
  success : bool
}.

(** The private fields of [Logger]. *)
Record State : Type := mkState {
  currentSessionId : string;
  currentUserId : option string;
  logs : list LogEntry;
  actions : list UserAction
}.

Definition maxLogs : nat := 1000.
Definition maxActions : nat := 500.

(** The state a new [Logger] starts with. *)
Definition create (session : string) : State := mkState session None [] [].

Record Env : Type := mkEnv {
  now : Z;                     (* [Date.now()], [new Date()] *)
  isoNow : string;             (* [new Date().toISOString()] *)
  navigatorUserAgent : string; (* [navigator.userAgent], or "unknown" *)
  locationHref : string;       (* [window.location.href], or "unknown" *)
  nodeEnv : option string;     (* [process.env.NODE_ENV] *)
  stackTrace : string          (* [new Error().stack] *)
}.

(** [process.env.NODE_ENV === "development"]. *)
Definition development (env : Env) : bool :=
  match nodeEnv env with
  | Some v => String.eqb v "development"
  | None => false
  end.

(** [String.prototype.includes]: [sub] occurs somewhere in [s]. *)
Fixpoint includes (s sub : string) : bool :=
  String.prefix sub s ||
  match s with
  | EmptyString => false
  | String _ rest => includes rest sub
  end.

Definition sensitiveKeys : list string :=
  ["password"; "token"; "key"; "secret"; "auth"].

(** [sensitiveKeys.some((sensitive) => key.toLowerCase().includes(sensitive))]. *)
Definition isSensitive (key : string) : bool :=
  existsb (fun sensitive => includes (toLowerCase key) sensitive) sensitiveKeys.

(** [typeof value === "object"]: objects, arrays and [null]. *)
Definition isObjectType (value : Json) : bool :=
  match value with
  | JNull => true
  | JArr _ => true
  | JObj _ => true
  | _ => false
  end.

(** [result[key] = value] on the object [removeSensitive] builds: a new
    own property, last in enumeration order.  The key ["__proto__"] is
    the exception: the assignment reaches the setter inherited from
    [Object.prototype], which changes the prototype of [result] (or does
    nothing, for a value that is not an object) and adds no own
    property. *)
Definition assigned (key : string) (value : Json) : list (string * Json) :=
  if String.eqb key "__proto__" then [] else [(key, value)].

(** [removeSensitive], the local function of [sanitizeData]. *)
Fixpoint removeSensitive (obj : Json) : Json :=
  match obj with
  | JArr items => JArr (map removeSensitive items)
  | JObj entries =>
      JObj (flat_map
              (fun kv =>
                 assigned (fst kv)
                   (if isSensitive (fst kv) then JStr "[REDACTED]"
                    else if isObjectType (snd kv) then removeSensitive (snd kv)
                    else snd kv))
              entries)
  | _ => obj
  end.

(** JavaScript falsiness of a JSON value. *)
Definition falsy (value : Json) : bool :=
  match value with
  | JNull => true
  | JBool b => negb b
  | JNum n => Qeq_bool n 0
  | JStr s => String.eqb s ""
  | _ => false
  end.

(** [sanitizeData(data)]; [None] is [undefined].  On JSON values
    [JSON.parse(JSON.stringify(data))] is the identity and does not
    throw, so the [catch] branch is not reached. *)
Definition sanitizeData (data : option Json) : option Json :=
  match data with
  | None => None
  | Some d => if falsy d then Some d else Some (removeSensitive d)
  end.

(** The properties of an object literal whose values may be
    [undefined]: those are dropped when the object is serialised. *)
Fixpoint definedProps (props : list (string * option Json))
  : list (string * Json) :=
  match props with
  | [] => []
  | (k, Some v) :: rest => (k, v) :: definedProps rest
  | (_, None) :: rest => definedProps rest
  end.

(** The decimal keys ["0"], ["1"], ... from [start] on. *)
Fixpoint indexed (start : nat) (items : list Json) : list (string * Json) :=
  match items with
  | [] => []
  | v :: rest =>
      (NilEmpty.string_of_uint (Nat.to_uint start), v) :: indexed (S start) rest
  end.

Fixpoint characters (s : string) : list Json :=
  match s with
  | EmptyString => []
  | String c rest => JStr (String c EmptyString) :: characters rest
  end.

(** [{...data}]: the own enumerable properties of [data]. *)
Definition spread (data : option Json) : list (string * Json) :=
  match data with
  | Some (JObj entries) => entries
  | Some (JArr items) => indexed 0 items
  | Some (JStr s) => indexed 0 (characters s)
  | _ => []
  end.

(** A property written after a spread: an existing key keeps its place
    and takes the new value, a new key goes last. *)
Fixpoint setProp (k : string) (v : Json) (entries : list (string * Json))
  : list (string * Json) :=
  match entries with
  | [] => [(k, v)]
  | (k', v') :: rest =>
      if String.eqb k' k then (k, v) :: rest
      else (k', v') :: setProp k v rest
  end.

(** [array.slice(-n)] for [n > 0]: the last [n] elements, or all. *)
Definition sliceLast {A : Type} (n : nat) (l : list A) : list A :=
  skipn (List.length l - n) l.

(** [trimLogs] and [trimActions]. *)
Definition trimLogs (st : State) : State :=
  if (maxLogs <? List.length (logs st))%nat
  then mkState (currentSessionId st) (currentUserId st)
               (sliceLast maxLogs (logs st)) (actions st)
  else st.

Definition trimActions (st : State) : State :=
  if (maxActions <? List.length (actions st))%nat
  then mkState (currentSessionId st) (currentUserId st)
               (logs st) (sliceLast maxActions (actions st))
  else st.

(** [createLogEntry]. *)
Definition createLogEntry (env : Env) (st : State) (lvl : Level)
           (cat msg : string) (d : option Json) : LogEntry :=
  mkLogEntry (now env) lvl cat msg (sanitizeData d) (currentUserId st)
             (currentSessionId st) (navigatorUserAgent env) (locationHref env).

(** [this.logs.push(entry); this.trimLogs()]. *)
Definition pushLog (entry : LogEntry) (st : State) : State :=
  trimLogs (mkState (currentSessionId st) (currentUserId st)
                    (logs st ++ [entry]) (actions st)).

(** [this.actions.push(actionEntry); this.trimActions()]. *)
Definition pushAction (entry : UserAction) (st : State) : State :=
  trimActions (mkState (currentSessionId st) (currentUserId st)
                       (logs st) (actions st ++ [entry])).

Definition info (env : Env) (cat msg : string) (d : option Json) (st : State)
  : State :=
  pushLog (createLogEntry env st LevelInfo cat msg d) st.

Definition warn (env : Env) (cat msg : string) (d : option Json) (st : State)
  : State :=
  pushLog (createLogEntry env st LevelWarn cat msg d) st.

Definition debug (env : Env) (cat msg : string) (d : option Json) (st : State)
  : State :=
  if development env
  then pushLog (createLogEntry env st LevelDebug cat msg d) st
  else st.

(** [process.env.NODE_ENV || "unknown"]. *)
Definition environmentName (env : Env) : string :=
  match nodeEnv env with
  | Some v => if String.eqb v "" then "unknown" else v
  | None => "unknown"
  end.

(** The data [error] builds:
    [{...data, timestamp, environment, errorDetails: {message, data, stack}}]. *)
Definition errorData (env : Env) (errorMessage : string) (d : option Json)
  : Json :=
  JObj (setProp "errorDetails"
          (JObj (definedProps
                   [("message", Some (JStr errorMessage));
                    ("data", d);
                    ("stack", Some (JStr (stackTrace env)))]))
          (setProp "environment" (JStr (environmentName env))
             (setProp "timestamp" (JStr (isoNow env)) (spread d)))).

Definition error (env : Env) (cat msg : string) (d : option Json) (st : State)
  : State :=
  let errorMessage := if String.eqb msg "" then "Unknown error occurred" else msg in
  pushLog (createLogEntry env st LevelError cat errorMessage
             (Some (errorData env errorMessage d))) st.

(** [startTime ? Date.now() - startTime : undefined]. *)
Definition elapsed (env : Env) (startTime : option Z) : option Z :=
  match startTime with
  | Some t => if (t =? 0)%Z then None else Some (now env - t)%Z
  | None => None
  end.

Definition trackAction (env : Env) (act cat : string) (d : option Json)
           (startTime : option Z) (st : State) : State :=
  let actionEntry :=
    mkUserAction (now env) (currentUserId st) (currentSessionId st) act cat
                 (sanitizeData d) (elapsed env startTime) true in
  let st := pushAction actionEntry st in
  info env "user_action" ("User performed action: " ++ act)%string
       (Some (JObj (definedProps
                      [("category", Some (JStr cat));
                       ("data", d);
                       ("duration",
                        option_map (fun t => JNum (inject_Z t))
                                   (duration actionEntry))])))
       st.

(** A thrown value other than [null] and [undefined], as far as
    [trackError] looks at it: its [message] property ([None]:
    [undefined]) and what [String(error)] gives ([None]: the conversion
    itself throws, as it does for an object without a prototype). *)
Record ErrorValue : Type := mkErrorValue {
  thrownMessage : option Json;
  thrownText : option string
}.

(** Any value can be thrown. *)
Inductive Thrown : Type :=
| ThrownNull
| ThrownUndefined
| ThrownValue (v : ErrorValue).

(** The [TypeError] the engine raises, with its message (the wording is
    the engine's; V8's is used). *)
Definition typeError (msg : string) : Thrown :=
  ThrownValue (mkErrorValue (Some (JStr msg))
                            (Some ("TypeError: " ++ msg)%string)).

(** The outcome of a call that may throw. *)
Inductive Outcome (R : Type) : Type :=
| Returned (result : R)
| Threw (e : Thrown).
Arguments Returned {R} result.
Arguments Threw {R} e.

(** [error.message || String(error)].  Reading a property of [null] or
    [undefined] throws. *)
Definition errorText (e : Thrown) : Outcome Json :=
  let converted (v : ErrorValue) :=
    match thrownText v with
    | Some text => Returned (JStr text)
    | None => Threw (typeError "Cannot convert object to primitive value")
    end in
  match e with
  | ThrownNull =>
      Threw (typeError "Cannot read properties of null (reading 'message')")
  | ThrownUndefined =>
      Threw (typeError "Cannot read properties of undefined (reading 'message')")
  | ThrownValue v =>
      match thrownMessage v with
      | Some m => if falsy m then converted v else Returned m
      | None => converted v
      end
  end.

(** [trackError].  The first thing it evaluates is
    [error.message || String(error)], inside the literal of
    [actionEntry]; when that throws nothing has been recorded yet. *)
Definition trackError (env : Env) (act cat : string) (e : Thrown)
           (d : option Json) (startTime : option Z) (st : State)
  : Outcome unit * State :=
  match errorText e with
  | Threw raised => (Threw raised, st)
  | Returned text =>
      let actionEntry :=
        mkUserAction (now env) (currentUserId st) (currentSessionId st) act cat
                     (sanitizeData
                        (Some (JObj (setProp "error" text (spread d)))))
                     (elapsed env startTime) false in
      let st := pushAction actionEntry st in
      (Returned tt,
       error env "user_action_failed" ("User action failed: " ++ act)%string
             (Some (JObj (definedProps
                            [("category", Some (JStr cat));
                             ("error", Some text);
                             ("data", d);
                             ("duration",
                              option_map (fun t => JNum (inject_Z t))
                                         (duration actionEntry))])))
             st)
  end.

(** [startTimer]: the start time it returns and the state it leaves. *)
Definition startTimer (env : Env) (label : string) (st : State) : Z * State :=
  (now env,
   debug env "performance" ("Timer started: " ++ label)%string
         (Some (JObj [("startTime", JNum (inject_Z (now env)))])) st).

Definition setUserId (env : Env) (id : string) (st : State) : State :=
  info env "user_session" "User session started"
       (Some (JObj [("userId", JStr id)]))
       (mkState (currentSessionId st) (Some id) (logs st) (actions st)).

Definition clearUserId (env : Env) (st : State) : State :=
  let st :=
    match currentUserId st with
    | Some id =>
        if String.eqb id "" then st
        else info env "user_session" "User session ended"
                  (Some (JObj [("userId", JStr id)])) st
    | None => st
    end in
  mkState (currentSessionId st) None (logs st) (actions st).

(** [clearLogs]. *)
Definition clearLogs (env : Env) (st : State) : State :=
  info env "logger" "All logs cleared" None
       (mkState (currentSessionId st) (currentUserId st) [] []).

(** [logUserAction]. *)
Definition logUserAction (env : Env) (act cat : string) (d : option Json)
           (st : State) : State :=
  trackAction env act cat d None st.

(** [withErrorLogging(fn, category, action)(...args)]: [fn] may itself
    use the logger; [started] is the surroundings when the wrapper is
    entered, [finished] when [fn] has returned or thrown; [nargs] is
    [args.length].  In the [catch] block [throw error] is reached only
    when [trackError] has returned. *)
Definition withErrorLogging {R : Type} (fn : State -> Outcome R * State)
           (cat act : string) (nargs : nat) (started finished : Env)
           (st : State) : Outcome R * State :=
  let startTime := now started in
  let argsData := Some (JObj [("args", JNum (inject_Z (Z.of_nat nargs)))]) in
  match fn st with
  | (Returned result, st') =>
      (Returned result,
       trackAction finished act cat argsData (Some startTime) st')
  | (Threw e, st') =>
      match trackError finished act cat e argsData (Some startTime) st' with
      | (Returned _, st'') => (Threw e, st'')
      | (Threw raised, st'') => (Threw raised, st'')
      end
  end.

(** The calls a user of the logger can make (of those modelled). *)
Inductive Call : Type :=
| CallInfo (cat msg : string) (d : option Json)
| CallWarn (cat msg : string) (d : option Json)
| CallError (cat msg : string) (d : option Json)
| CallDebug (cat msg : string) (d : option Json)
| CallTrackAction (act cat : string) (d : option Json) (startTime : option Z)
| CallTrackError (act cat : string) (e : Thrown) (d : option Json)
                 (startTime : option Z)
| CallStartTimer (label : string)
| CallSetUserId (id : string)
| CallClearUserId
| CallClearLogs.

(** The state a call leaves, whether it returns or throws. *)
Definition perform (env : Env) (c : Call) (st : State) : State :=
  match c with
  | CallInfo cat msg d => info env cat msg d st
  | CallWarn cat msg d => warn env cat msg d st
  | CallError cat msg d => error env cat msg d st
  | CallDebug cat msg d => debug env cat msg d st
  | CallTrackAction act cat d t => trackAction env act cat d t st
  | CallTrackError act cat e d t => snd (trackError env act cat e d t st)
  | CallStartTimer label => snd (startTimer env label st)
  | CallSetUserId id => setUserId env id st
  | CallClearUserId => clearUserId env st
  | CallClearLogs => clearLogs env st
  end.

(** A series of calls, each in its own surroundings. *)
Fixpoint performAll (calls : list (Env * Call)) (st : State) : State :=
  match calls with
  | [] => st
  | (env, c) :: rest => performAll rest (perform env c st)
  end.

(** No value sits under a sensitive key, at any depth, other than the
    string "[REDACTED]". *)
Fixpoint redacted (j : Json) : bool :=
  match j with
  | JArr items => forallb redacted items
  | JObj entries =>
      forallb (fun kv =>
                 if isSensitive (fst kv)
                 then match snd kv with
                      | JStr s => String.eqb s "[REDACTED]"
                      | _ => false
                      end
                 else redacted (snd kv))
              entries
  | _ => true
  end.

Definition redactedData (d : option Json) : bool :=
  match d with
  | Some j => redacted j
  | None => true
  end.

(** No object, at any depth, has an own property named ["__proto__"]. *)
Fixpoint plainKeys (j : Json) : bool :=
  match j with
  | JArr items => forallb plainKeys items
  | JObj entries =>
      forallb (fun kv =>
                 negb (String.eqb (fst kv) "__proto__") && plainKeys (snd kv))
              entries
  | _ => true
  end.

Definition plainKeysData (d : option Json) : bool :=
  match d with
  | Some j => plainKeys j
  | None => true
  end.

(** Both buffers are within their limits. *)
Definition bounded (st : State) : Prop :=
  (List.length (logs st) <= maxLogs)%nat /\
  (List.length (actions st) <= maxActions)%nat.

(** Every stored entry and action holds sanitised data. *)
Definition allRedacted (st : State) : Prop :=
  Forall (fun e => redactedData (data e) = true) (logs st) /\
  Forall (fun a => redactedData (actionData a) = true) (actions st).

(** [whole] ends with [part]. *)
Definition isSuffix {A : Type} (part whole : list A) : Prop :=
  exists dropped, whole = dropped ++ part.

End Logger.

(** * Properties *)

(** ** Arithmetic helpers *)

Ltac qminmax :=
  repeat match goal with
         | |- context [Qmax ?a ?b] =>
             let H := fresh "Hmax" in
             pose proof (Q.max_spec a b) as H;
             generalize dependent (Qmax a b); intros
         | |- context [Qmin ?a ?b] =>
             let H := fresh "Hmin" in
             pose proof (Q.min_spec a b) as H;
             generalize dependent (Qmin a b); intros
         | H0 : context [Qmax ?a ?b] |- _ =>
             let H := fresh "Hmax" in
             pose proof (Q.max_spec a b) as H;
             generalize dependent (Qmax a b); intros
         | H0 : context [Qmin ?a ?b] |- _ =>
             let H := fresh "Hmin" in
             pose proof (Q.min_spec a b) as H;
             generalize dependent (Qmin a b); intros
         end;
  intuition lra.

Lemma Qltb_false (a b : Q) : b <= a -> Qltb a b = false.
Proof.
  intros H. unfold Qltb. apply negb_false_iff. now apply Qle_bool_iff.
Qed.

Lemma max3_same (a b c e : Q) : a == e -> b == e -> c == e -> max3 a b c == e.
Proof. intros. unfold max3. qminmax. Qed.

Lemma max3_upper (a b c : Q) :
  a <= max3 a b c /\ b <= max3 a b c /\ c <= max3 a b c.
Proof. unfold max3. qminmax. Qed.

Lemma max3_attained (a b c : Q) :
  max3 a b c == a \/ max3 a b c == b \/ max3 a b c == c.
Proof. unfold max3. qminmax. Qed.

Lemma max3_compat (a b c a' b' c' : Q) :
  a == a' -> b == b' -> c == c' -> max3 a b c == max3 a' b' c'.
Proof. intros. unfold max3. qminmax. Qed.

Lemma axis_x : Axis x.
Proof. repeat split. Qed.

Lemma axis_y : Axis y.
Proof. repeat split. Qed.

Lemma axis_z : Axis z.
Proof. repeat split. Qed.

(** ** Bounding boxes *)

Section Spans.

Variable f : Vector3 -> Q.
Hypothesis f_axis : Axis f.

Lemma spans_single (p : Vector3) : spans f [p] (f p) (f p).
Proof.
  repeat split.
  - destruct H as [<- | []]. lra.
  - destruct H as [<- | []]. lra.
  - exists p. split; [now left | reflexivity].
  - exists p. split; [now left | reflexivity].
Qed.

Lemma spans_snoc (seen : list Vector3) (lo hi : Q) (mn mx p : Vector3) :
  f mn == lo -> f mx == hi -> spans f seen lo hi ->
  spans f (seen ++ [p]) (f (vmin mn p)) (f (vmax mx p)).
Proof.
  intros Hlo Hhi (Hb & (pl & Hpl & Hel) & (ph & Hph & Heh)).
  destruct f_axis as (Hmin & Hmax & _). rewrite Hmin, Hmax.
  split; [| split].
  - intros q Hq. apply in_app_or in Hq. destruct Hq as [Hq | [<- | []]].
    + specialize (Hb q Hq). qminmax.
    + qminmax.
  - destruct (Q.min_spec (f mn) (f p)) as [[Hlt E] | [Hle E]].
    + exists pl. split; [apply in_or_app; now left | rewrite E; lra].
    + exists p. split; [apply in_or_app; right; now left | rewrite E; lra].
  - destruct (Q.max_spec (f mx) (f p)) as [[Hlt E] | [Hle E]].
    + exists p. split; [apply in_or_app; right; now left | rewrite E; lra].
    + exists ph. split; [apply in_or_app; now left | rewrite E; lra].
Qed.

Lemma spans_unique (ps : list Vector3) (lo hi lo' hi' : Q) :
  spans f ps lo hi -> spans f ps lo' hi' -> lo == lo' /\ hi == hi'.
Proof.
  intros (Hb & (pl & Hpl & Hel) & (ph & Hph & Heh))
         (Hb' & (pl' & Hpl' & Hel') & (ph' & Hph' & Heh')).
  pose proof (Hb pl' Hpl'). pose proof (Hb ph' Hph').
  pose proof (Hb' pl Hpl). pose proof (Hb' ph Hph).
  split; lra.
Qed.

Lemma spans_le (ps : list Vector3) (lo hi : Q) : spans f ps lo hi -> lo <= hi.
Proof.
  intros (Hb & (pl & Hpl & Hel) & _). pose proof (Hb pl Hpl). lra.
Qed.

Lemma spans_translate (ps : list Vector3) (lo hi : Q) (t : Vector3) :
  spans f ps lo hi ->
  spans f (map (fun p => addVectors p t) ps) (lo + f t) (hi + f t).
Proof.
  intros (Hb & (pl & Hpl & Hel) & (ph & Hph & Heh)).
  destruct f_axis as (_ & _ & Hadd).
  split; [| split].
  - intros q Hq. apply in_map_iff in Hq. destruct Hq as (p & <- & Hp).
    rewrite Hadd. specialize (Hb p Hp). lra.
  - exists (addVectors pl t). split; [now apply (in_map (fun p => addVectors p t)) | rewrite Hadd; lra].
  - exists (addVectors ph t). split; [now apply (in_map (fun p => addVectors p t)) | rewrite Hadd; lra].
Qed.

End Spans.

Lemma fold_expand_bounds (ps seen : list Vector3) (mn mx : Vector3) :
  Bounds seen mn mx ->
  exists mn' mx',
    fold_left expandByPoint ps (Box mn mx) = Box mn' mx' /\
    Bounds (seen ++ ps) mn' mx'.
Proof.
  revert seen mn mx. induction ps as [| p ps IH]; intros seen mn mx HB.
  - exists mn, mx. rewrite app_nil_r. now split.
  - simpl. destruct HB as (Hx & Hy & Hz).
    destruct (IH (seen ++ [p]) (vmin mn p) (vmax mx p)) as (mn' & mx' & E & HB').
    + split; [| split].
      * eapply (spans_snoc x axis_x); eauto; reflexivity.
      * eapply (spans_snoc y axis_y); eauto; reflexivity.
      * eapply (spans_snoc z axis_z); eauto; reflexivity.
    + exists mn', mx'. split; [exact E |].
      now rewrite <- app_assoc in HB'.
Qed.

(** The box computed from a non-empty vertex list is the tightest box
    around the vertices. *)
Lemma setFromBufferAttribute_bounds (ps : list Vector3) :
  ps <> [] ->
  exists mn mx, setFromBufferAttribute ps = Box mn mx /\ Bounds ps mn mx.
Proof.
  destruct ps as [| p ps]; [congruence | intros _].
  unfold setFromBufferAttribute. simpl.
  destruct (fold_expand_bounds ps [p] p p) as (mn & mx & E & HB).
  - split; [| split]; apply spans_single.
  - exists mn, mx. now split.
Qed.

Lemma bounds_not_empty (ps : list Vector3) (mn mx : Vector3) :
  Bounds ps mn mx -> isEmpty (Box mn mx) = false.
Proof.
  intros (Hx & Hy & Hz). simpl.
  rewrite !Qltb_false; [reflexivity | | |];
    eapply spans_le; eassumption.
Qed.

Lemma bounds_translate (ps : list Vector3) (mn mx mn' mx' t : Vector3) :
  Bounds ps mn mx ->
  Bounds (map (fun p => addVectors p t) ps) mn' mx' ->
  veq mn' (addVectors mn t) /\ veq mx' (addVectors mx t).
Proof.
  intros (Hx & Hy & Hz) (Hx' & Hy' & Hz').
  destruct (spans_unique x _ _ _ _ _ Hx' (spans_translate x axis_x _ _ _ t Hx)).
  destruct (spans_unique y _ _ _ _ _ Hy' (spans_translate y axis_y _ _ _ t Hy)).
  destruct (spans_unique z _ _ _ _ _ Hz' (spans_translate z axis_z _ _ _ t Hz)).
  unfold veq. simpl. tauto.
Qed.

(** ** The normaliser, step by step *)

(** What [normalizeAndFrame] returns on a geometry with vertices: the
    vertices moved by minus the centre of their box, the box of the
    moved vertices, and the position computed from that box. *)
Lemma normalizeAndFrame_vertices (g : BufferGeometry) :
  position g <> [] ->
  exists mn mx g' mn' mx',
    let center := multiplyScalar (addVectors mn mx) (1 # 2) in
    let shift := mkVector3 (- x center) (- y center) (- z center) in
    let size := subVectors mx' mn' in
    let distance := max3 (x size) (y size) (z size) * 2 in
    setFromBufferAttribute (position g) = Box mn mx /\
    Bounds (position g) mn mx /\
    getCenter (Box mn mx) = center /\
    position g' = map (fun p => addVectors p shift) (position g) /\
    boundingBox g' = Some (Box mn' mx') /\
    setFromBufferAttribute (position g') = Box mn' mx' /\
    Bounds (position g') mn' mx' /\
    getSize (Box mn' mx') = size /\
    veq mn' (addVectors mn shift) /\
    veq mx' (addVectors mx shift) /\
    normalizeAndFrame g = (g', Some (mkVector3 distance distance distance)).
Proof.
  intros Hne.
  destruct (setFromBufferAttribute_bounds (position g) Hne) as (mn & mx & E & HB).
  set (center := multiplyScalar (addVectors mn mx) (1 # 2)).
  set (shift := mkVector3 (- x center) (- y center) (- z center)).
  set (moved := map (fun p => addVectors p shift) (position g)).
  assert (Hne' : moved <> []).
  { unfold moved. destruct (position g); [congruence | discriminate]. }
  destruct (setFromBufferAttribute_bounds moved Hne') as (mn' & mx' & E' & HB').
  exists mn, mx, (mkGeometry moved (Some (Box mn' mx'))), mn', mx'.
  cbv zeta. fold center. fold shift. fold moved. cbn [position boundingBox].
  destruct (bounds_translate _ _ _ _ _ _ HB HB') as [Hmn Hmx].
  assert (Ec : getCenter (Box mn mx) = center)
    by (unfold getCenter; now rewrite (bounds_not_empty _ _ _ HB)).
  assert (Es : getSize (Box mn' mx') = subVectors mx' mn')
    by (unfold getSize; now rewrite (bounds_not_empty _ _ _ HB')).
  repeat (split; [assumption || reflexivity |]).
  unfold normalizeAndFrame, computeVertexNormals, computeBoundingBox.
  cbn [boundingBox position]. rewrite E, Ec.
  unfold translate. cbn [boundingBox position].
  fold shift. fold moved. rewrite E', Es. reflexivity.
Qed.

(** [normalizeAndFrame] always yields a position: the source's test
    [if (geometry.boundingBox)] never fails after
    [computeBoundingBox]. *)
Lemma normalizeAndFrame_some (g : BufferGeometry) :
  exists g' p, normalizeAndFrame g = (g', Some p).
Proof.
  unfold normalizeAndFrame, computeVertexNormals, computeBoundingBox, translate.
  cbn [boundingBox position]. eauto.
Qed.

(** On a geometry without vertices the box is empty, centre and size
    are zero, and the computed position is the origin. *)
Lemma normalizeAndFrame_empty (g : BufferGeometry) :
  position g = [] ->
  normalizeAndFrame g = (mkGeometry [] (Some EmptyBox), Some origin).
Proof.
  intros E. unfold normalizeAndFrame, computeVertexNormals, computeBoundingBox,
    translate. cbn [boundingBox position]. rewrite E. reflexivity.
Qed.

(** ** The cube *)

Lemma cube_vertex (c : Vector3) (e : Q) (p : Vector3) :
  In p (position (cubeMesh c e)) ->
  (x p == x c - e * (1 # 2) \/ x p == x c + e * (1 # 2)) /\
  (y p == y c - e * (1 # 2) \/ y p == y c + e * (1 # 2)) /\
  (z p == z c - e * (1 # 2) \/ z p == z c + e * (1 # 2)).
Proof.
  cbn [cubeMesh position]. intros H.
  repeat (destruct H as [<- | H];
          [cbn [cubeCorner x y z];
           repeat split; (left; lra) || (right; lra) |]).
  destruct H.
Qed.

Lemma cube_low_corner (c : Vector3) (e : Q) :
  In (cubeCorner c e false false false) (position (cubeMesh c e)).
Proof. cbn [cubeMesh position]. now left. Qed.

Lemma cube_high_corner (c : Vector3) (e : Q) :
  In (cubeCorner c e true true true) (position (cubeMesh c e)).
Proof. cbn [cubeMesh position]. do 8 right. now left. Qed.

(** The box around the cube's vertices is the cube. *)
Lemma cube_bounds (c : Vector3) (e : Q) (mn mx : Vector3) :
  0 <= e ->
  Bounds (position (cubeMesh c e)) mn mx ->
  x mx - x mn == e /\ y mx - y mn == e /\ z mx - z mn == e.
Proof.
  intros He (Hx & Hy & Hz).
  destruct Hx as (Hbx & (plx & Hplx & Helx) & (phx & Hphx & Hehx)).
  destruct Hy as (Hby & (ply & Hply & Hely) & (phy & Hphy & Hehy)).
  destruct Hz as (Hbz & (plz & Hplz & Helz) & (phz & Hphz & Hehz)).
  pose proof (Hbx _ (cube_low_corner c e)) as Lx.
  pose proof (Hbx _ (cube_high_corner c e)) as Ux.
  pose proof (Hby _ (cube_low_corner c e)) as Ly.
  pose proof (Hby _ (cube_high_corner c e)) as Uy.
  pose proof (Hbz _ (cube_low_corner c e)) as Lz.
  pose proof (Hbz _ (cube_high_corner c e)) as Uz.
  cbn [cubeCorner x y z] in *.
  pose proof (cube_vertex c e _ Hplx) as (Ax & _ & _).
  pose proof (cube_vertex c e _ Hphx) as (Bx & _ & _).
  pose proof (cube_vertex c e _ Hply) as (_ & Ay & _).
  pose proof (cube_vertex c e _ Hphy) as (_ & By & _).
  pose proof (cube_vertex c e _ Hplz) as (_ & _ & Az).
  pose proof (cube_vertex c e _ Hphz) as (_ & _ & Bz).
  repeat split; intuition lra.
Qed.

(** ** The framing effect on the viewer *)

Section Effect.

Variable place : OrbitControls.Placement.

Lemma setGeometry_none (s : ViewerState) :
  setGeometry place None s = withGeometry s None.
Proof. reflexivity. Qed.

(** What [setGeometry] with a geometry leaves in the viewer. *)
Lemma setGeometry_some (g g' : BufferGeometry) (p : Vector3) (s : ViewerState) :
  normalizeAndFrame g = (g', Some p) ->
  let s' := setGeometry place (Some g) s in
  geometry s' = Some g' /\
  initialCameraPosition s' = p /\
  PerspectiveCamera.position (camera s') = p /\
  PerspectiveCamera.zoom (camera s') = PerspectiveCamera.zoom (camera s) /\
  PerspectiveCamera.lookingAt (camera s') = origin /\
  error s' = error s /\ modelUrl s' = modelUrl s /\
  inFlight s' = inFlight s /\ nextRequest s' = nextRequest s /\
  console s' = console s /\ isRotating s' = isRotating s /\
  orphaned s' = orphaned s /\
  controlsRef s' = controlsRef s.
Proof.
  intros E. unfold setGeometry, framingEffect. cbn [withGeometry geometry].
  rewrite E. destruct s as [u er ip ctl cam0 g0 rot n fl orph out];
    cbn; repeat split; reflexivity.
Qed.

End Effect.

(** ** The normaliser and the view framer *)

(** C3.  For every mesh with vertices, the framing effect takes the
    bounding box of the normalised (translated) mesh, which is the
    tightest box around the translated vertices, and computes
    [distance = max(s.x, s.y, s.z) * 2] from its size [s]: twice the
    largest of the three sides, that is, at least twice every side and
    equal to twice one of them.  It places the camera at
    [(distance, distance, distance)] looking at the origin and hands that
    position to the parent.  When the mesh is a cube of edge [e] (centred
    anywhere) the distance is [2 * e]. *)
Theorem view_framer_distance
  (place : OrbitControls.Placement) (g : BufferGeometry) (s : ViewerState) :
  position g <> [] ->
  exists g' mn mx distance,
    let size := subVectors mx mn in
    let s' := setGeometry place (Some g) s in
    boundingBox g' = Some (Box mn mx) /\
    Bounds (position g') mn mx /\
    getSize (Box mn mx) = size /\
    distance = max3 (x size) (y size) (z size) * 2 /\
    ((x mx - x mn) * 2 <= distance /\
     (y mx - y mn) * 2 <= distance /\
     (z mx - z mn) * 2 <= distance) /\
    (distance == (x mx - x mn) * 2 \/
     distance == (y mx - y mn) * 2 \/
     distance == (z mx - z mn) * 2) /\
    normalizeAndFrame g = (g', Some (mkVector3 distance distance distance)) /\
    geometry s' = Some g' /\
    PerspectiveCamera.position (camera s') =
      mkVector3 distance distance distance /\
    PerspectiveCamera.lookingAt (camera s') = origin /\
    initialCameraPosition s' = mkVector3 distance distance distance /\
    controlsRef s' = controlsRef s /\
    (forall c e,
        0 < e -> position g = position (cubeMesh c e) -> distance == 2 * e).
Proof.
  intros Hne.
  destruct (normalizeAndFrame_vertices g Hne)
    as (mn0 & mx0 & g' & mn & mx & _ & HB & _ & _ & Hbox & _ & HB' & Hsize
        & Hmn & Hmx & E).
  cbv zeta in *.
  exists g', mn, mx,
    (max3 (x (subVectors mx mn)) (y (subVectors mx mn)) (z (subVectors mx mn)) * 2).
  cbv zeta.
  destruct (setGeometry_some place _ _ _ s E)
    as (Hg & Hip & Hpos & _ & Hlook & _ & _ & _ & _ & _ & _ & _ & Hctl).
  cbn [subVectors x y z] in *.
  pose proof (max3_upper (x mx - x mn) (y mx - y mn) (z mx - z mn))
    as (Ux & Uy & Uz).
  pose proof (max3_attained (x mx - x mn) (y mx - y mn) (z mx - z mn))
    as Hatt.
  split; [exact Hbox |]. split; [exact HB' |]. split; [exact Hsize |].
  split; [reflexivity |].
  split; [repeat split; lra |].
  split; [destruct Hatt as [A | [A | A]]; [left | right; left | right; right]; lra |].
  split; [exact E |]. split; [exact Hg |]. split; [exact Hpos |].
  split; [exact Hlook |]. split; [exact Hip |]. split; [exact Hctl |].
  intros c e He Hcube. rewrite Hcube in HB.
  destruct (cube_bounds c e mn0 mx0 (Qlt_le_weak _ _ He) HB) as (Sx & Sy & Sz).
  destruct Hmn as (Hmnx & Hmny & Hmnz). destruct Hmx as (Hmxx & Hmxy & Hmxz).
  cbn [addVectors subVectors x y z] in *.
  assert (M : max3 (x mx - x mn) (y mx - y mn) (z mx - z mn) == e)
    by (apply max3_same; lra).
  lra.
Qed.

(** C3 at a triangle with corners (2,0,0), (0,4,0), (0,0,3), whose box
    has sides 2, 4 and 3: the distance is 8, twice the side along [y];
    and at a cube of edge 1 centred at (10, -3, 7/2): the distance is
    2. *)
Lemma view_framer_distance_witness :
  (exists g' d,
      normalizeAndFrame
        (mkGeometry [mkVector3 2 0 0; mkVector3 0 4 0; mkVector3 0 0 3] None) =
        (g', Some (mkVector3 d d d)) /\
      d == 8) /\
  (exists g' d,
      normalizeAndFrame (cubeMesh (mkVector3 10 (-3) (7 # 2)) 1) =
        (g', Some (mkVector3 d d d)) /\
      d == 2 * 1).
Proof.
  split.
  - destruct (view_framer_distance ThreeOrbit.place
                (mkGeometry [mkVector3 2 0 0; mkVector3 0 4 0; mkVector3 0 0 3] None)
                (mountViewer Samples.camera0))
      as (g' & mn & mx & d & _ & _ & _ & _ & _ & _ & E & _).
    + discriminate.
    + exists g', d. split; [exact E |].
      vm_compute in E. injection E as _ <-. reflexivity.
  - destruct (view_framer_distance ThreeOrbit.place
                (cubeMesh (mkVector3 10 (-3) (7 # 2)) 1)
                (mountViewer Samples.camera0))
      as (g' & mn & mx & d & _ & _ & _ & _ & _ & _ & E & _ & _ & _ & _ & _ & Hcube).
    + discriminate.
    + exists g', d. split; [exact E |].
      apply (Hcube (mkVector3 10 (-3) (7 # 2)) 1); reflexivity.
Defined.

(** ** The normaliser on numbers with infinities and NaN *)

Module FloatFacts.




(** *** JsNumber.Finite coordinates: [FloatGeometry] computes what [Three] does *)

Lemma expandByPoint_ofBox (b : Box3) (p : Vector3) :
  FloatGeometry.expandByPoint (FloatGeometry.ofBox b) (FloatGeometry.ofVector p)
  = FloatGeometry.ofBox (expandByPoint b p).
Proof. destruct b; reflexivity. Qed.

Lemma fold_ofBox (ps : list Vector3) (b : Box3) :
  fold_left FloatGeometry.expandByPoint (map FloatGeometry.ofVector ps)
            (FloatGeometry.ofBox b)
  = FloatGeometry.ofBox (fold_left expandByPoint ps b).
Proof.
  revert b. induction ps as [| p ps IH]; intros b; [reflexivity |].
  cbn [map fold_left]. rewrite expandByPoint_ofBox. apply IH.
Qed.

Lemma setFromBufferAttribute_ofVector (ps : list Vector3) :
  FloatGeometry.setFromBufferAttribute (map FloatGeometry.ofVector ps)
  = FloatGeometry.ofBox (setFromBufferAttribute ps).
Proof. apply (fold_ofBox ps EmptyBox). Qed.

Lemma getCenter_ofBox (mn mx : Vector3) :
  FloatGeometry.getCenter (FloatGeometry.ofBox (Box mn mx))
  = FloatGeometry.ofVector (getCenter (Box mn mx)).
Proof.
  unfold FloatGeometry.getCenter, getCenter.
  change (FloatGeometry.isEmpty (FloatGeometry.ofBox (Box mn mx)))
    with (isEmpty (Box mn mx)).
  destruct (isEmpty (Box mn mx)); reflexivity.
Qed.

(** The translation matrix moves a finite vertex to the vertex plus the
    offset. *)
Lemma applyMatrix4_translation (tx ty tz : Q) (p : Vector3) :
  exists q,
    FloatGeometry.applyMatrix4
      (FloatGeometry.makeTranslation (JsNumber.Finite tx) (JsNumber.Finite ty) (JsNumber.Finite tz))
      (FloatGeometry.ofVector p)
    = FloatGeometry.ofVector q /\
    veq q (addVectors p (mkVector3 tx ty tz)).
Proof.
  assert (Hw : Qeq_bool (0 * x p + 0 * y p + 0 * z p + 1) 0 = false).
  { destruct (Qeq_bool (0 * x p + 0 * y p + 0 * z p + 1) 0) eqn:E; [| reflexivity].
    apply Qeq_bool_iff in E. lra. }
  exists (mkVector3
            ((1 * x p + 0 * y p + 0 * z p + tx) * (1 / (0 * x p + 0 * y p + 0 * z p + 1)))
            ((0 * x p + 1 * y p + 0 * z p + ty) * (1 / (0 * x p + 0 * y p + 0 * z p + 1)))
            ((0 * x p + 0 * y p + 1 * z p + tz) * (1 / (0 * x p + 0 * y p + 0 * z p + 1)))).
  split.
  - cbv beta iota zeta delta
      [FloatGeometry.applyMatrix4 FloatGeometry.makeTranslation
       FloatGeometry.ofVector FloatGeometry.x FloatGeometry.y FloatGeometry.z
       FloatGeometry.n11 FloatGeometry.n12 FloatGeometry.n13 FloatGeometry.n14
       FloatGeometry.n21 FloatGeometry.n22 FloatGeometry.n23 FloatGeometry.n24
       FloatGeometry.n31 FloatGeometry.n32 FloatGeometry.n33 FloatGeometry.n34
       FloatGeometry.n41 FloatGeometry.n42 FloatGeometry.n43 FloatGeometry.n44
       JsNumber.mul JsNumber.add JsNumber.div].
    rewrite Hw. reflexivity.
  - assert (Hone : 1 / (0 * x p + 0 * y p + 0 * z p + 1) == 1).
    { setoid_replace (0 * x p + 0 * y p + 0 * z p + 1) with 1 by ring.
      reflexivity. }
    unfold veq. cbn [x y z addVectors]. rewrite Hone. repeat split; ring.
Qed.

Lemma translate_vertices (tx ty tz : Q) (ps : list Vector3) :
  exists qs,
    map (FloatGeometry.applyMatrix4
           (FloatGeometry.makeTranslation (JsNumber.Finite tx) (JsNumber.Finite ty) (JsNumber.Finite tz)))
        (map FloatGeometry.ofVector ps)
    = map FloatGeometry.ofVector qs /\
    Forall2 veq qs (map (fun p => addVectors p (mkVector3 tx ty tz)) ps).
Proof.
  induction ps as [| p ps (qs & E & H)].
  - exists []. split; [reflexivity | constructor].
  - destruct (applyMatrix4_translation tx ty tz p) as (q & Eq & Hq).
    exists (q :: qs). cbn [map]. rewrite Eq, E.
    split; [reflexivity | now constructor].
Qed.

Lemma Forall2_in_left {A B : Type} (R : A -> B -> Prop) (l : list A) (m : list B)
      (a : A) :
  Forall2 R l m -> In a l -> exists b, In b m /\ R a b.
Proof.
  induction 1 as [| a0 b0 l m Hab _ IH]; intros Hin; [destruct Hin |].
  destruct Hin as [<- | Hin].
  - exists b0. split; [now left | exact Hab].
  - destruct (IH Hin) as (b & Hb & Rb). exists b. split; [now right | exact Rb].
Qed.

Lemma Forall2_in_right {A B : Type} (R : A -> B -> Prop) (l : list A) (m : list B)
      (b : B) :
  Forall2 R l m -> In b m -> exists a, In a l /\ R a b.
Proof.
  induction 1 as [| a0 b0 l m Hab _ IH]; intros Hin; [destruct Hin |].
  destruct Hin as [<- | Hin].
  - exists a0. split; [now left | exact Hab].
  - destruct (IH Hin) as (a & Ha & Ra). exists a. split; [now right | exact Ra].
Qed.

Lemma spans_veq (f : Vector3 -> Q) (qs ps : list Vector3) (lo hi : Q) :
  (forall a b, veq a b -> f a == f b) ->
  Forall2 veq qs ps -> spans f ps lo hi -> spans f qs lo hi.
Proof.
  intros Hf H (Hb & (pl & Hpl & Hel) & (ph & Hph & Heh)).
  split; [| split].
  - intros q Hq. destruct (Forall2_in_left _ _ _ _ H Hq) as (p & Hp & Hqp).
    rewrite (Hf _ _ Hqp). now apply Hb.
  - destruct (Forall2_in_right _ _ _ _ H Hpl) as (q & Hq & Hqp).
    exists q. split; [exact Hq |]. now rewrite (Hf _ _ Hqp).
  - destruct (Forall2_in_right _ _ _ _ H Hph) as (q & Hq & Hqp).
    exists q. split; [exact Hq |]. now rewrite (Hf _ _ Hqp).
Qed.

Lemma Bounds_veq (qs ps : list Vector3) (mn mx : Vector3) :
  Forall2 veq qs ps -> Bounds ps mn mx -> Bounds qs mn mx.
Proof.
  intros H (Hx & Hy & Hz).
  split; [| split]; eapply spans_veq; try eassumption;
    intros a b (? & ? & ?); assumption.
Qed.

Lemma Bounds_unique (ps : list Vector3) (mn mx mn' mx' : Vector3) :
  Bounds ps mn mx -> Bounds ps mn' mx' -> veq mn mn' /\ veq mx mx'.
Proof.
  intros (Hx & Hy & Hz) (Hx' & Hy' & Hz').
  destruct (spans_unique x _ _ _ _ _ Hx Hx').
  destruct (spans_unique y _ _ _ _ _ Hy Hy').
  destruct (spans_unique z _ _ _ _ _ Hz Hz').
  unfold veq. tauto.
Qed.

(** On finite vertices [FloatGeometry.normalizeAndFrame] yields finite
    vertices, each the vertex of [Three]'s normaliser, the tightest box
    around them, which is symmetric about the origin, and the distance
    computed from that box. *)
Lemma normalizeAndFrame_finite
      (vertices : list Vector3) (stored : option FloatGeometry.Box3) :
  vertices <> [] ->
  exists qs mn mx g',
    FloatGeometry.normalizeAndFrame
      (FloatGeometry.mkGeometry (map FloatGeometry.ofVector vertices) stored)
    = (FloatGeometry.mkGeometry
         (map FloatGeometry.ofVector qs)
         (Some (FloatGeometry.mkBox3 (FloatGeometry.ofVector mn)
                                     (FloatGeometry.ofVector mx))),
       Some (let d := JsNumber.Finite (max3 (x mx - x mn) (y mx - y mn) (z mx - z mn) * 2) in
             FloatGeometry.mkVector3 d d d)) /\
    setFromBufferAttribute qs = Box mn mx /\
    Bounds qs mn mx /\
    g' = fst (normalizeAndFrame (mkGeometry vertices None)) /\
    Forall2 veq qs (position g') /\
    (x mn == - x mx /\ y mn == - y mx /\ z mn == - z mx) /\
    exists dQ,
      framingDistance (mkGeometry vertices None) = Some dQ /\
      max3 (x mx - x mn) (y mx - y mn) (z mx - z mn) * 2 == dQ.
Proof.
  intros Hne.
  destruct (normalizeAndFrame_vertices (mkGeometry vertices None) Hne)
    as (mn0 & mx0 & g' & mn' & mx' & E0 & HB0 & Ec & Hpos & _ & _ & HB1 & _
        & Hmn & Hmx & E).
  cbv zeta in *. cbn [position] in *.
  set (c := multiplyScalar (addVectors mn0 mx0) (1 # 2)) in *.
  destruct (translate_vertices (- x c) (- y c) (- z c) vertices) as (qs & Eqs & Hqs).
  assert (Hqne : qs <> []).
  { intros ->. inversion Hqs as [Hnil |]. destruct vertices; [congruence | discriminate]. }
  destruct (setFromBufferAttribute_bounds qs Hqne) as (mn & mx & Eb & HB).
  rewrite <- Hpos in Hqs.
  destruct (Bounds_unique _ _ _ _ _ HB (Bounds_veq _ _ _ _ Hqs HB1))
    as ((Ax & Ay & Az) & (Bx & By & Bz)).
  exists qs, mn, mx, g'.
  split; [| split; [exact Eb | split; [exact HB | split; [| split; [| split]]]]].
  - unfold FloatGeometry.normalizeAndFrame, FloatGeometry.computeVertexNormals,
      FloatGeometry.computeBoundingBox, FloatGeometry.translate.
    cbn [FloatGeometry.boundingBox FloatGeometry.position].
    rewrite setFromBufferAttribute_ofVector, E0, getCenter_ofBox, Ec.
    cbn [FloatGeometry.ofVector FloatGeometry.x FloatGeometry.y FloatGeometry.z
         JsNumber.neg].
    rewrite Eqs, setFromBufferAttribute_ofVector, Eb.
    unfold FloatGeometry.getSize.
    change (FloatGeometry.isEmpty (FloatGeometry.ofBox (Box mn mx)))
      with (isEmpty (Box mn mx)).
    rewrite (bounds_not_empty _ _ _ HB). reflexivity.
  - now rewrite E.
  - exact Hqs.
  - destruct Hmn as (Hmnx & Hmny & Hmnz). destruct Hmx as (Hmxx & Hmxy & Hmxz).
    destruct HB0 as (Sx & Sy & Sz).
    subst c. cbn [addVectors multiplyScalar x y z] in *.
    repeat split; lra.
  - unfold framingDistance. rewrite E. cbn [snd x]. eexists. split; [reflexivity |].
    cbn [subVectors x y z].
    assert (M : max3 (x mx - x mn) (y mx - y mn) (z mx - z mn)
                == max3 (x mx' - x mn') (y mx' - y mn') (z mx' - z mn'))
      by (apply max3_compat; lra).
    lra.
Qed.

Lemma toVectors_ofVector (vs : list FloatGeometry.Vector3) (qs : list Vector3) :
  FloatGeometry.toVectors vs = Some qs -> vs = map FloatGeometry.ofVector qs.
Proof.
  revert qs. induction vs as [| v vs IH]; intros qs H; cbn in H.
  - now injection H as <-.
  - destruct v as [[a | | |] [b | | |] [c | | |]]; cbn in H; try discriminate H.
    destruct (FloatGeometry.toVectors vs) as [rest |]; [| discriminate H].
    injection H as <-. cbn [map]. now rewrite (IH rest eq_refl).
Qed.

(** *** A coordinate that is not finite *)







End FloatFacts.




(** C5, as the code has it.  A parsed mesh with no triangle does not
    make the normaliser fail: its box is the empty box, centre and size
    are the zero vector, the mesh becomes the geometry on display, the
    camera and the stored reset position are set to the origin, and
    neither the error flag nor the console changes. *)
Theorem empty_mesh_is_framed_at_origin
  (place : OrbitControls.Placement) (g : BufferGeometry) (s : ViewerState) :
  position g = [] ->
  let s' := setGeometry place (Some g) s in
  normalizeAndFrame g = (mkGeometry [] (Some EmptyBox), Some origin) /\
  geometry s' = Some (mkGeometry [] (Some EmptyBox)) /\
  PerspectiveCamera.position (camera s') = origin /\
  initialCameraPosition s' = origin /\
  error s' = error s /\
  console s' = console s.
Proof.
  intros E s'.
  pose proof (normalizeAndFrame_empty g E) as Hn.
  destruct (setGeometry_some place _ _ _ s Hn)
    as (Hg & Hip & Hpos & _ & _ & Herr & _ & _ & _ & Hout & _).
  repeat split; assumption.
Qed.

(** C5 at the empty mesh, in the freshly mounted viewer. *)
Lemma empty_mesh_is_framed_at_origin_witness :
  error (setGeometry ThreeOrbit.place (Some Samples.emptyMesh)
           (mountViewer Samples.camera0)) = false /\
  geometry (setGeometry ThreeOrbit.place (Some Samples.emptyMesh)
              (mountViewer Samples.camera0)) =
    Some (mkGeometry [] (Some EmptyBox)).
Proof.
  destruct (empty_mesh_is_framed_at_origin ThreeOrbit.place Samples.emptyMesh
              (mountViewer Samples.camera0) eq_refl)
    as (_ & Hg & _ & _ & Herr & _).
  split; [exact Herr | exact Hg].
Defined.

(** C5 fails as stated: a well-formed 84-byte binary file declaring zero
    triangles is loaded without any error; the viewer ends with the empty
    mesh as its geometry, the error flag down and no error on the
    console. *)
Lemma empty_mesh_not_rejected :
  exists s,
    run Samples.binaryLoader ThreeOrbit.place Samples.camera0
        [LoadRequest "empty.stl"; FetchLoaded 0 Samples.stlEmpty]
        (mountViewer Samples.camera0) = Some s /\
    geometry s = Some (mkGeometry [] (Some EmptyBox)) /\
    error s = false /\
    console s = [ConsoleLog "Successfully parsed with standard method."] /\
    initialCameraPosition s = origin.
Proof. eexists. repeat split; vm_compute; reflexivity. Qed.

(** C6, as the code has it.  When all vertices of a mesh are one point
    (the bounding box has size zero), the computed distance is
    [maxDim * 2 = 0]: the camera is placed at the origin, the very point
    it looks at.  No minimum distance is applied. *)
Theorem degenerate_mesh_distance_zero
  (place : OrbitControls.Placement) (g : BufferGeometry) (p : Vector3)
  (s : ViewerState) :
  position g <> [] ->
  (forall q, In q (position g) -> veq q p) ->
  exists d,
    let s' := setGeometry place (Some g) s in
    framingDistance g = Some d /\ d == 0 /\
    PerspectiveCamera.position (camera s') = mkVector3 d d d /\
    PerspectiveCamera.lookingAt (camera s') = origin.
Proof.
  intros Hne Hall.
  destruct (normalizeAndFrame_vertices g Hne)
    as (mn0 & mx0 & g' & mn & mx & _ & HB & _ & _ & _ & _ & _ & _
        & Hmn & Hmx & E).
  cbv zeta in *.
  destruct (setGeometry_some place _ _ _ s E)
    as (_ & _ & Hpos & _ & Hlook & _).
  eexists. cbv zeta. unfold framingDistance. rewrite E. cbn [snd x].
  split; [reflexivity |]. split; [| split; assumption].
  destruct HB as ((_ & (plx & Ilx & Elx) & (phx & Ihx & Ehx)) &
                  (_ & (ply & Ily & Ely) & (phy & Ihy & Ehy)) &
                  (_ & (plz & Ilz & Elz) & (phz & Ihz & Ehz))).
  destruct (Hall _ Ilx) as (? & _ & _). destruct (Hall _ Ihx) as (? & _ & _).
  destruct (Hall _ Ily) as (_ & ? & _). destruct (Hall _ Ihy) as (_ & ? & _).
  destruct (Hall _ Ilz) as (_ & _ & ?). destruct (Hall _ Ihz) as (_ & _ & ?).
  destruct Hmn as (Hmnx & Hmny & Hmnz). destruct Hmx as (Hmxx & Hmxy & Hmxz).
  cbn [addVectors subVectors x y z] in *.
  assert (M : max3 (x mx - x mn) (y mx - y mn) (z mx - z mn) == 0)
    by (apply max3_same; lra).
  lra.
Qed.

(** C6 at a triangle whose three vertices are the point (1, 2, 3). *)
Lemma degenerate_mesh_distance_zero_witness :
  exists d, framingDistance Samples.pointMesh = Some d /\ d == 0.
Proof.
  destruct (degenerate_mesh_distance_zero ThreeOrbit.place Samples.pointMesh
              (mkVector3 1 2 3) (mountViewer Samples.camera0))
    as (d & Hd & Hz & _).
  - discriminate.
  - cbn [Samples.pointMesh position]. intros q [<- | [<- | [<- | []]]];
      repeat split; reflexivity.
  - exists d. split; [exact Hd | exact Hz].
Defined.

(** C6 fails as stated: for the single-point mesh the computed distance
    is not positive. *)
Lemma degenerate_mesh_no_minimum_distance :
  exists d,
    snd (normalizeAndFrame Samples.pointMesh) = Some (mkVector3 d d d) /\
    framingDistance Samples.pointMesh = Some d /\
    ~ 0 < d.
Proof.
  eexists. split; [vm_compute; reflexivity |]. split; [vm_compute; reflexivity |].
  intros H. vm_compute in H. discriminate H.
Qed.

(** ** The sniffing of the first five bytes *)

Ltac by_byte b := destruct b; reflexivity.

Lemma lower_is_s (b : byte) :
  Ascii.eqb (lowerChar (ascii_of_byte b)) "s" = (Byte.eqb b "s" || Byte.eqb b "S")%byte.
Proof. by_byte b. Qed.

Lemma lower_is_o (b : byte) :
  Ascii.eqb (lowerChar (ascii_of_byte b)) "o" = (Byte.eqb b "o" || Byte.eqb b "O")%byte.
Proof. by_byte b. Qed.

Lemma lower_is_l (b : byte) :
  Ascii.eqb (lowerChar (ascii_of_byte b)) "l" = (Byte.eqb b "l" || Byte.eqb b "L")%byte.
Proof. by_byte b. Qed.

Lemma lower_is_i (b : byte) :
  Ascii.eqb (lowerChar (ascii_of_byte b)) "i" = (Byte.eqb b "i" || Byte.eqb b "I")%byte.
Proof. by_byte b. Qed.

Lemma lower_is_d (b : byte) :
  Ascii.eqb (lowerChar (ascii_of_byte b)) "d" = (Byte.eqb b "d" || Byte.eqb b "D")%byte.
Proof. by_byte b. Qed.

(** The test of lines 80-81 is the case-insensitive comparison of the
    first five bytes with [solid]. *)
Lemma sniff_is_startsWithSolid (fileBuffer : ArrayBuffer) :
  String.eqb (toLowerCase (decode (slice fileBuffer 0 5))) "solid"
  = startsWithSolid fileBuffer.
Proof.
  unfold slice, decode, string_of_list_byte.
  destruct fileBuffer as [| b0 [| b1 [| b2 [| b3 [| b4 rest]]]]];
    cbn [skipn firstn Nat.sub List.map string_of_list_ascii toLowerCase
         String.eqb startsWithSolid];
    rewrite ?lower_is_s, ?lower_is_o, ?lower_is_l, ?lower_is_i, ?lower_is_d;
    repeat match goal with
           | |- context [(Byte.eqb ?a ?b || Byte.eqb ?a ?c)%bool] =>
               destruct (Byte.eqb a b || Byte.eqb a c)%bool
           end;
    reflexivity.
Qed.

(** ** The face loop of the three.js-style loader *)

Module ThreeSTLFacts.

Import ThreeSTL.
Local Open Scope Z_scope.

Lemma getUint8_outside (data : ArrayBuffer) (off : Z) :
  Z.of_nat (List.length data) <= off -> getUint8 data off = None.
Proof.
  intros H. unfold getUint8.
  destruct (off <? 0) eqn:E; [reflexivity |].
  replace (nth_error data (Z.to_nat off)) with (@None byte); [reflexivity |].
  symmetry. apply nth_error_None. lia.
Qed.

Lemma readFace_outside (data : ArrayBuffer) (colors : bool) (start : Z) :
  Z.of_nat (List.length data) <= start ->
  readFace data colors start = Throws rangeError.
Proof.
  intros H. unfold readFace, readVertex, getFloat32, getUint32.
  now rewrite (getUint8_outside data start H).
Qed.

(** The fuel given by [parseBinary] is never what stops the loop: once
    the fuel and the face index together exceed the buffer length, one
    more unit of fuel changes nothing. *)
Lemma readFaces_fuel (fuel : nat) (data : ArrayBuffer) (colors : bool)
      (faces face : Z) :
  0 <= face ->
  Z.of_nat (List.length data) < Z.of_nat fuel + face ->
  readFaces (S fuel) data colors faces face
  = readFaces fuel data colors faces face.
Proof.
  revert face. induction fuel as [| fuel IH]; intros face Hface Hlen.
  - cbn [readFaces]. destruct (face <? faces); [| reflexivity].
    rewrite readFace_outside; [reflexivity | lia].
  - change (readFaces (S (S fuel)) data colors faces face)
      with (if face <? faces then
              match readFace data colors (84 + face * 50) with
              | Throws e => Throws e
              | Returns vs =>
                  match readFaces (S fuel) data colors faces (face + 1) with
                  | Throws e => Throws e
                  | Returns rest => Returns (vs ++ rest)%list
                  end
              end
            else Returns []).
    rewrite (IH (face + 1)); [reflexivity | lia | lia].
Qed.

Lemma readFaces_more_fuel (extra : nat) (data : ArrayBuffer) (colors : bool)
      (faces : Z) :
  readFaces (extra + S (List.length data)) data colors faces 0
  = readFaces (S (List.length data)) data colors faces 0.
Proof.
  induction extra as [| extra IH]; [reflexivity |].
  cbn [Nat.add]. rewrite readFaces_fuel; [exact IH | lia | lia].
Qed.

End ThreeSTLFacts.

(** ** Parsing and its fallback *)

(** C7, as the code has it.  When [loader.parse] throws on a buffer,
    the first five bytes are decoded and compared with [solid] ignoring
    case.  On a match the whole buffer, decoded, goes to
    [loader.parseASCII]: a geometry it returns is the result, an error it
    throws is caught.  On a mismatch the error "File does not appear to be
    a valid ASCII STL, and binary parsing failed." is thrown and caught
    on the spot.  A caught error is written with [console.error] and the
    geometry is set to [null]: in the viewer the mesh is gone, while the
    error flag and the panel on display stay as they were.  There is no
    error kind, and nothing is reported outside the console. *)
Theorem fallback_sniffs_solid
  (loader : STLLoader) (place : OrbitControls.Placement)
  (camera0 : PerspectiveCamera.t) (fileBuffer : ArrayBuffer) (e : JsError) :
  parse loader fileBuffer = Throws e ->
  (toLowerCase (decode (slice fileBuffer 0 5)) = "solid"
   <-> startsWithSolid fileBuffer = true) /\
  (startsWithSolid fileBuffer = true ->
   fst (asciiFallback loader fileBuffer) = parseASCII loader (decode fileBuffer) /\
   onLoad loader fileBuffer =
     let warn :=
       ConsoleWarn "Standard STL parsing failed, attempting fallback." e in
     let log := ConsoleLog "Detected ASCII file, re-parsing as text." in
     match parseASCII loader (decode fileBuffer) with
     | Returns asciiGeometry => (Some asciiGeometry, [warn; log])
     | Throws fallbackError =>
         (None,
          [warn; log;
           ConsoleError "STL parsing fallback also failed:" fallbackError])
     end) /\
  (startsWithSolid fileBuffer = false ->
   onLoad loader fileBuffer =
     (None,
      [ConsoleWarn "Standard STL parsing failed, attempting fallback." e;
       ConsoleError "STL parsing fallback also failed:" notAsciiError])) /\
  (forall request s,
      isInFlight request s = true ->
      fst (onLoad loader fileBuffer) = None ->
      exists s',
        step loader place camera0 (FetchLoaded request fileBuffer) s = Some s' /\
        geometry s' = None /\
        error s' = error s /\
        render s' = render s /\
        console s' = console s ++ snd (onLoad loader fileBuffer)).
Proof.
  intros Hthrow.
  pose proof (sniff_is_startsWithSolid fileBuffer) as Hs.
  split; [| split; [| split]].
  - rewrite <- Hs. symmetry. apply String.eqb_eq.
  - intros Hsolid. unfold onLoad, asciiFallback. rewrite Hthrow, Hs, Hsolid.
    cbn [fst]. split; [reflexivity |].
    destruct (parseASCII loader (decode fileBuffer)); reflexivity.
  - intros Hsolid. unfold onLoad, asciiFallback. rewrite Hthrow, Hs, Hsolid.
    reflexivity.
  - intros request s Hin Hnone. cbn [step].
    destruct (onLoad loader fileBuffer) as [value out]. cbn [fst snd] in *.
    subst value. unfold complete. rewrite Hin.
    eexists. split; [reflexivity |]. repeat split.
Qed.

(** C7 at ten zero bytes, on which the three.js-style [parse] throws a
    [RangeError]: no geometry, and the line-87 error on the console. *)
Lemma fallback_sniffs_solid_witness :
  parse Samples.binaryLoader Samples.junk = Throws ThreeSTL.rangeError /\
  startsWithSolid Samples.junk = false /\
  onLoad Samples.binaryLoader Samples.junk =
    (None,
     [ConsoleWarn "Standard STL parsing failed, attempting fallback."
        ThreeSTL.rangeError;
      ConsoleError "STL parsing fallback also failed:" notAsciiError]).
Proof.
  destruct (fallback_sniffs_solid Samples.binaryLoader ThreeOrbit.place
              Samples.camera0 Samples.junk ThreeSTL.rangeError eq_refl)
    as (_ & _ & Hmis & _).
  split; [reflexivity |]. split; [reflexivity |].
  exact (Hmis eq_refl).
Defined.

(** C7 fails as stated: on ten zero bytes [parse] throws and the bytes do
    not spell [solid], yet no error is surfaced.  The viewer keeps its
    error flag down and goes on rendering the canvas, without a mesh; the
    only trace is on the console, where the caught error is a plain
    [Error] with a message. *)
Lemma unrecognized_format_not_surfaced :
  exists s,
    parse Samples.binaryLoader Samples.junk = Throws ThreeSTL.rangeError /\
    startsWithSolid Samples.junk = false /\
    run Samples.binaryLoader ThreeOrbit.place Samples.camera0
        [LoadRequest "junk.stl"; FetchLoaded 0 Samples.junk]
        (mountViewer Samples.camera0) = Some s /\
    geometry s = None /\
    error s = false /\
    render s = CanvasPanel /\
    console s =
      [ConsoleWarn "Standard STL parsing failed, attempting fallback."
         ThreeSTL.rangeError;
       ConsoleError "STL parsing fallback also failed:" notAsciiError].
Proof.
  eexists. split; [reflexivity |]. split; [reflexivity |].
  split; [vm_compute; reflexivity |]. repeat split.
Qed.

(** C2, as the code has it.  [STLModel] makes no length check of its
    own.  A buffer's geometry is accepted exactly when [loader.parse]
    returns it, or when [loader.parse] throws, the first five bytes spell
    [solid] and [loader.parseASCII] returns it; in every other case the
    geometry is set to [null] and the failure is written to the console
    with [console.error]. *)
Theorem onLoad_follows_the_loader
  (loader : STLLoader) (fileBuffer : ArrayBuffer) :
  (forall g,
      fst (onLoad loader fileBuffer) = Some g <->
      parse loader fileBuffer = Returns g \/
      ((exists e, parse loader fileBuffer = Throws e) /\
       startsWithSolid fileBuffer = true /\
       parseASCII loader (decode fileBuffer) = Returns g)) /\
  (fst (onLoad loader fileBuffer) = None ->
   exists e, In (ConsoleError "STL parsing fallback also failed:" e)
                (snd (onLoad loader fileBuffer))).
Proof.
  pose proof (sniff_is_startsWithSolid fileBuffer) as Hs.
  unfold onLoad, asciiFallback. rewrite Hs.
  destruct (parse loader fileBuffer) as [g0 | e0] eqn:Hp.
  - split.
    + intros g. cbn [fst]. split.
      * intros [= ->]. now left.
      * intros [[= ->] | ((e & He) & _)]; [reflexivity | discriminate He].
    + cbn [fst]. discriminate.
  - destruct (startsWithSolid fileBuffer) eqn:Hsolid.
    + destruct (parseASCII loader (decode fileBuffer)) as [g1 | e1] eqn:Ha.
      * split.
        -- intros g. cbn [fst]. split.
           ++ intros [= ->]. right. eauto.
           ++ intros [H | (_ & _ & [= ->])]; [discriminate H | reflexivity].
        -- cbn [fst]. discriminate.
      * split.
        -- intros g. cbn [fst]. split; [discriminate |].
           intros [H | (_ & _ & H)]; discriminate H.
        -- intros _. exists e1. cbn. auto.
    + split.
      * intros g. cbn [fst]. split; [discriminate |].
        intros [H | (_ & H & _)]; discriminate H.
      * intros _. exists notAsciiError. cbn. auto.
Qed.

(** C2 fails as stated.  With the three.js-style loader, a 135-byte
    buffer declaring one triangle (84 + 50 * 1 = 134) is accepted and its
    triangle becomes the geometry; so is the same file cut to 132 bytes.
    Cut to 131 bytes it is rejected, with the line-87 error. *)
Lemma length_mismatch_accepted :
  ThreeSTL.getUint32 Samples.stlTrailing 80 true = Some 1%Z /\
  List.length Samples.stlTrailing = 135%nat /\
  fst (onLoad Samples.binaryLoader Samples.stlTrailing) =
    Some (mkGeometry [mkVector3 1 0 0; mkVector3 0 2 0; mkVector3 0 0 3] None) /\
  fst (onLoad Samples.binaryLoader (firstn 132 Samples.stlA)) =
    Some (mkGeometry [mkVector3 1 0 0; mkVector3 0 2 0; mkVector3 0 0 3] None) /\
  onLoad Samples.binaryLoader (firstn 131 Samples.stlA) =
    (None,
     [ConsoleWarn "Standard STL parsing failed, attempting fallback."
        ThreeSTL.rangeError;
      ConsoleError "STL parsing fallback also failed:" notAsciiError]).
Proof. repeat split; vm_compute; reflexivity. Qed.

(** ** Reachable states of the viewer *)

#[local] Arguments normalizeAndFrame : simpl never.
#[local] Arguments truthy : simpl never.

Section Reach.

Variable loader : STLLoader.
Variable place : OrbitControls.Placement.
Variable canvasCamera : PerspectiveCamera.t.

Lemma mount_wellFormed (camera0 : PerspectiveCamera.t) :
  wellFormed (mountViewer camera0).
Proof.
  unfold wellFormed, frameMatchesMesh, canvasMounted. cbn.
  repeat split; auto; discriminate.
Qed.

(** A state in which nothing is on display and no fetch can reach the
    model is well formed as soon as mounted canvases have controls. *)
Lemma blank_wellFormed (s : ViewerState) :
  geometry s = None -> inFlight s = [] ->
  (canvasMounted s = true -> controlsRef s <> None) ->
  wellFormed s.
Proof.
  intros Hg Hfl Hc. unfold wellFormed, frameMatchesMesh. rewrite Hg, Hfl.
  repeat split; auto.
Qed.

Lemma setGeometry_wellFormed (value : option BufferGeometry) (s : ViewerState) :
  canvasMounted s = true -> controlsRef s <> None ->
  wellFormed (setGeometry place value s).
Proof.
  intros Hm Hctl. unfold canvasMounted in Hm.
  apply andb_prop in Hm. destruct Hm as [Herr Hurl].
  apply negb_true_iff in Herr.
  destruct value as [g |].
  - destruct (normalizeAndFrame_some g) as (g' & p & E).
    destruct (setGeometry_some place g g' p s E)
      as (Hg & Hip & _ & _ & _ & Herr' & Hurl' & Hfl' & _ & _ & _ & _ & Hctl').
    unfold wellFormed, frameMatchesMesh, canvasMounted.
    rewrite Hg, Hip, Herr', Hurl', Hctl', Herr, Hurl.
    repeat split; try congruence.
    + exists g. exact E.
  - rewrite setGeometry_none.
    unfold wellFormed, frameMatchesMesh, canvasMounted.
    destruct s; cbn in *. rewrite Herr, Hurl.
    repeat split; auto; congruence.
Qed.

Lemma inFlight_is_mounted (request : nat) (s : ViewerState) :
  wellFormed s -> isInFlight request s = true -> canvasMounted s = true.
Proof.
  intros (H1 & H2 & _) Hin. unfold canvasMounted, isInFlight in *.
  destruct (error s).
  - destruct (H2 eq_refl) as [Hnil _]. rewrite Hnil in Hin. discriminate Hin.
  - destruct (truthy (modelUrl s)); [reflexivity |].
    destruct (H1 eq_refl) as [Hnil _]. rewrite Hnil in Hin. discriminate Hin.
Qed.

Lemma complete_wellFormed
  (request : nat) (value : option BufferGeometry) (out : list ConsoleEntry)
  (s s' : ViewerState) :
  wellFormed s -> complete place request value out s = Some s' ->
  wellFormed s'.
Proof.
  intros Hwf Hc. unfold complete in Hc.
  destruct (isInFlight request s) eqn:Hin.
  - injection Hc as <-.
    pose proof (inFlight_is_mounted _ _ Hwf Hin) as Hm.
    destruct Hwf as (_ & _ & H3 & _).
    apply setGeometry_wellFormed; [exact Hm | exact (H3 Hm)].
  - destruct (hasRequest request (orphaned s)); [| discriminate].
    injection Hc as <-.
    destruct Hwf as (H1 & H2 & H3 & H4).
    destruct s as [u er ip ctl cam0 g0 rot n fl orph out0].
    unfold wellFormed, frameMatchesMesh, canvasMounted in *. cbn in *.
    repeat split; intros; auto;
      try (destruct (H1 ltac:(assumption)) as [-> ->]; reflexivity);
      try (destruct (H2 ltac:(assumption)) as [-> ->]; reflexivity).
Qed.

Lemma unmount_wellFormed (s : ViewerState) :
  canvasMounted s = false -> wellFormed (unmountCanvas s).
Proof.
  intros Hm. apply blank_wellFormed; try reflexivity.
  unfold canvasMounted in *. cbn. congruence.
Qed.

Lemma loadEffect_wellFormed (url : string) (s : ViewerState) :
  canvasMounted s = true -> controlsRef s <> None -> wellFormed s ->
  wellFormed (loadEffect place url s).
Proof.
  intros Hm Hc Hwf. unfold loadEffect.
  destruct (url =? "")%string; [now apply setGeometry_wellFormed |].
  destruct Hwf as (H1 & H2 & H3 & H4).
  unfold canvasMounted in Hm. apply andb_prop in Hm. destruct Hm as [Herr Hurl].
  apply negb_true_iff in Herr.
  unfold wellFormed, frameMatchesMesh, canvasMounted in *. cbn.
  rewrite Herr, Hurl. repeat split; auto; discriminate.
Qed.

Lemma step_wellFormed (ev : Event) (s s' : ViewerState) :
  wellFormed s ->
  step loader place canvasCamera ev s = Some s' -> wellFormed s'.
Proof.
  intros Hwf Hstep. destruct ev; cbn [step] in Hstep.
  - (* SetModelUrl *)
    destruct (error s) eqn:Herr.
    + injection Hstep as <-. destruct Hwf as (_ & H2 & _).
      destruct (H2 Herr) as [Hfl Hg].
      apply blank_wellFormed; cbn; auto.
      unfold canvasMounted. cbn. rewrite Herr. discriminate.
    + destruct (truthy (modelUrl s)) eqn:Hcur.
      * assert (Hmounted : canvasMounted s = true)
          by (unfold canvasMounted; now rewrite Herr, Hcur).
        assert (Hctl : controlsRef s <> None)
          by (destruct Hwf as (_ & _ & H3 & _); auto).
        destruct url as [url |].
        -- destruct (truthy (Some url)) eqn:Hnew.
           ++ destruct (sameUrl (modelUrl s) url) eqn:Hsame; injection Hstep as <-.
              ** destruct Hwf as (H1 & H2 & H3 & H4).
                 unfold wellFormed, frameMatchesMesh, canvasMounted in *.
                 cbn in *. rewrite Herr, Hnew in *.
                 repeat split; auto; try discriminate.
              ** apply loadEffect_wellFormed; cbn; auto.
                 --- unfold canvasMounted. cbn. now rewrite Herr, Hnew.
                 --- destruct Hwf as (H1 & H2 & H3 & H4).
                     unfold wellFormed, frameMatchesMesh, canvasMounted in *.
                     cbn in *. rewrite Herr, Hnew in *.
                     repeat split; auto; try discriminate.
           ++ injection Hstep as <-. apply unmount_wellFormed.
              unfold canvasMounted. cbn. rewrite Herr, Hnew. reflexivity.
        -- injection Hstep as <-. apply unmount_wellFormed.
           unfold canvasMounted. cbn. rewrite Herr. reflexivity.
      * destruct Hwf as (H1 & H2 & H3 & H4). destruct (H1 Hcur) as [Hfl Hg].
        destruct url as [url |].
        -- destruct (truthy (Some url)) eqn:Hnew; injection Hstep as <-.
           ++ unfold mountCanvas. apply loadEffect_wellFormed.
              ** unfold canvasMounted. cbn. now rewrite Herr, Hnew.
              ** cbn. discriminate.
              ** apply blank_wellFormed; cbn; auto. discriminate.
           ++ apply blank_wellFormed; cbn; auto.
              unfold canvasMounted. cbn. rewrite Herr, Hnew. discriminate.
        -- injection Hstep as <-. apply blank_wellFormed; cbn; auto.
           unfold canvasMounted. cbn. rewrite Herr. discriminate.
  - (* FetchLoaded *)
    destruct (onLoad loader fileBuffer) as [value out].
    eapply complete_wellFormed; eassumption.
  - (* FetchFailed *)
    cbn [onError] in Hstep. eapply complete_wellFormed; eassumption.
  - (* ClickReset *)
    destruct (canvasMounted s) eqn:Hm; [| discriminate].
    injection Hstep as <-.
    destruct Hwf as (H1 & H2 & H3 & H4).
    destruct s as [u er ip [ctl |] cam0 g0 rot n fl orph out0];
      unfold wellFormed, frameMatchesMesh, canvasMounted, resetView in *;
      cbn in *; intuition (auto; try discriminate; try congruence).
  - (* ClickZoomIn *)
    destruct (canvasMounted s) eqn:Hm; [| discriminate].
    injection Hstep as <-.
    destruct Hwf as (H1 & H2 & H3 & H4).
    destruct s as [u er ip [ctl |] cam0 g0 rot n fl orph out0];
      unfold wellFormed, frameMatchesMesh, canvasMounted, zoom in *;
      cbn in *; intuition (auto; try discriminate; try congruence).
  - (* ClickZoomOut *)
    destruct (canvasMounted s) eqn:Hm; [| discriminate].
    injection Hstep as <-.
    destruct Hwf as (H1 & H2 & H3 & H4).
    destruct s as [u er ip [ctl |] cam0 g0 rot n fl orph out0];
      unfold wellFormed, frameMatchesMesh, canvasMounted, zoom in *;
      cbn in *; intuition (auto; try discriminate; try congruence).
  - (* Orbit *)
    destruct Hwf as (H1 & H2 & H3 & H4).
    destruct s as [u er ip [ctl |] cam0 g0 rot n fl orph out0];
      [| discriminate].
    injection Hstep as <-.
    unfold wellFormed, frameMatchesMesh, canvasMounted in *.
    cbn in *. intuition (auto; try discriminate; try congruence).
  - (* ClickModel *)
    destruct Hwf as (H1 & H2 & H3 & H4).
    destruct s as [u er ip ctl cam0 [g0 |] rot n fl orph out0];
      [| discriminate].
    injection Hstep as <-.
    unfold wellFormed, frameMatchesMesh, canvasMounted in *.
    cbn in *. intuition (auto; try discriminate; try congruence).
  - (* CanvasError *)
    destruct (canvasMounted s) eqn:Hm; [| discriminate].
    injection Hstep as <-. apply unmount_wellFormed. reflexivity.
Qed.

Lemma run_wellFormed (evs : list Event) (s s' : ViewerState) :
  wellFormed s ->
  run loader place canvasCamera evs s = Some s' -> wellFormed s'.
Proof.
  revert s. induction evs as [| ev evs IH]; intros s Hwf Hrun; cbn in Hrun.
  - now injection Hrun as <-.
  - destruct (step loader place canvasCamera ev s) as [s1 |] eqn:Hs;
      [| discriminate].
    eapply IH; [| exact Hrun]. eapply step_wellFormed; eassumption.
Qed.

End Reach.

(** ** The reset-view action *)









Section Default.

Variable loader : STLLoader.
Variable place : OrbitControls.Placement.
Variable canvasCamera : PerspectiveCamera.t.




End Default.



(** ** Overlapping loads *)

Section Loads.

Variable loader : STLLoader.
Variable place : OrbitControls.Placement.
Variable canvasCamera : PerspectiveCamera.t.

Lemma removeRequest_other (a b : nat) (l : list (nat * string)) :
  a <> b -> hasRequest b (removeRequest a l) = hasRequest b l.
Proof.
  intros Hab. unfold removeRequest, hasRequest.
  induction l as [| [n u] l IH]; [reflexivity |].
  cbn [filter fst existsb].
  destruct (Nat.eqb_spec n a) as [-> | Hna]; cbn [negb existsb fst].
  - rewrite IH. destruct (Nat.eqb_spec a b); [contradiction | reflexivity].
  - now rewrite IH.
Qed.

(** The completion of a fetch of the mounted model always decides the
    geometry on display, whatever URL the viewer is on by then. *)
Lemma fetchLoaded_sets_geometry
  (request : nat) (fileBuffer : ArrayBuffer) (s : ViewerState) :
  isInFlight request s = true ->
  exists s',
    step loader place canvasCamera
         (FetchLoaded request fileBuffer) s = Some s' /\
    geometry s' = meshOf loader fileBuffer /\
    modelUrl s' = modelUrl s /\
    (forall other, request <> other ->
                   isInFlight other s' = isInFlight other s).
Proof.
  intros Hin. cbn [step]. unfold meshOf, complete.
  destruct (onLoad loader fileBuffer) as [value out]. cbn [fst].
  rewrite Hin. eexists. split; [reflexivity |].
  set (s1 := withConsole (completeRequest request s) out).
  assert (Hfl : inFlight s1 = removeRequest request (inFlight s)) by reflexivity.
  assert (Hurl : modelUrl s1 = modelUrl s) by reflexivity.
  destruct value as [g |].
  - destruct (normalizeAndFrame_some g) as (g' & p & E).
    destruct (setGeometry_some place g g' p s1 E)
      as (Hg & _ & _ & _ & _ & _ & Hurl' & Hfl' & _).
    cbn [option_map]. rewrite E. cbn [fst].
    repeat split; try congruence.
    intros other Hne. unfold isInFlight. rewrite Hfl', Hfl.
    now apply removeRequest_other.
  - rewrite setGeometry_none. cbn [option_map].
    repeat split; try assumption.
    intros other Hne. unfold isInFlight. cbn [withGeometry inFlight].
    rewrite Hfl. now apply removeRequest_other.
Qed.

End Loads.

(** C1, as the code has it.  With the fetches of load(A) and load(B)
    both in flight, the geometry the viewer ends with is that of the
    buffer delivered last: B's when A's fetch completes first, A's when
    B's fetch completes first.  No completion is discarded. *)
Theorem last_completed_load_wins
  (loader : STLLoader) (place : OrbitControls.Placement) (camera0 : PerspectiveCamera.t)
  (s : ViewerState)
  (requestA requestB : nat) (bufferA bufferB : ArrayBuffer) :
  isInFlight requestA s = true -> isInFlight requestB s = true ->
  requestA <> requestB ->
  (exists s1,
      run loader place camera0
          [FetchLoaded requestA bufferA; FetchLoaded requestB bufferB] s
      = Some s1 /\
      geometry s1 = meshOf loader bufferB) /\
  (exists s2,
      run loader place camera0
          [FetchLoaded requestB bufferB; FetchLoaded requestA bufferA] s
      = Some s2 /\
      geometry s2 = meshOf loader bufferA).
Proof.
  intros HA HB Hne. split.
  - destruct (fetchLoaded_sets_geometry loader place camera0
                requestA bufferA s HA) as (t & Ht & _ & _ & Hkeep).
    destruct (fetchLoaded_sets_geometry loader place camera0
                requestB bufferB t) as (s1 & Hs1 & Hg & _).
    { rewrite Hkeep; assumption. }
    exists s1. cbn [run]. rewrite Ht, Hs1. now split.
  - destruct (fetchLoaded_sets_geometry loader place camera0
                requestB bufferB s HB) as (t & Ht & _ & _ & Hkeep).
    destruct (fetchLoaded_sets_geometry loader place camera0
                requestA bufferA t) as (s2 & Hs2 & Hg & _).
    { rewrite Hkeep; [assumption | congruence]. }
    exists s2. cbn [run]. rewrite Ht, Hs2. now split.
Qed.

(** The viewer after load("a.stl") and then load("b.stl"), with both
    fetches pending. *)
Lemma two_loads_in_flight :
  exists s,
    run Samples.binaryLoader ThreeOrbit.place Samples.camera0
        [LoadRequest "a.stl"; LoadRequest "b.stl"]
        (mountViewer Samples.camera0) = Some s /\
    modelUrl s = Some "b.stl" /\
    inFlight s = [(0%nat, "a.stl"); (1%nat, "b.stl")] /\
    error s = false.
Proof. eexists. repeat split. Qed.

(** C1 on the two sample files: whichever of the two fetches completes
    last decides the mesh. *)
Lemma last_completed_load_wins_witness :
  exists s s1 s2,
    run Samples.binaryLoader ThreeOrbit.place Samples.camera0
        [LoadRequest "a.stl"; LoadRequest "b.stl"]
        (mountViewer Samples.camera0) = Some s /\
    run Samples.binaryLoader ThreeOrbit.place Samples.camera0
        [FetchLoaded 0 Samples.stlA; FetchLoaded 1 Samples.stlB] s = Some s1 /\
    geometry s1 = meshOf Samples.binaryLoader Samples.stlB /\
    run Samples.binaryLoader ThreeOrbit.place Samples.camera0
        [FetchLoaded 1 Samples.stlB; FetchLoaded 0 Samples.stlA] s = Some s2 /\
    geometry s2 = meshOf Samples.binaryLoader Samples.stlA.
Proof.
  destruct two_loads_in_flight as (s & Hrun & _ & Hfl & _).
  destruct (last_completed_load_wins Samples.binaryLoader ThreeOrbit.place Samples.camera0
              s 0 1 Samples.stlA Samples.stlB)
    as ((s1 & H1 & G1) & (s2 & H2 & G2)).
  - unfold isInFlight. rewrite Hfl. reflexivity.
  - unfold isInFlight. rewrite Hfl. reflexivity.
  - discriminate.
  - exists s, s1, s2. repeat split; assumption.
Defined.

(** C1 fails as stated: load("a.stl") is followed by load("b.stl") while
    the first fetch is pending; the fetch for b completes first and the
    one for a last.  The viewer, whose URL is "b.stl", ends with the mesh
    of a.stl, which is not the mesh of b.stl. *)
Lemma stale_load_overwrites_newer :
  exists s,
    run Samples.binaryLoader ThreeOrbit.place Samples.camera0
        [LoadRequest "a.stl"; LoadRequest "b.stl";
         FetchLoaded 1 Samples.stlB; FetchLoaded 0 Samples.stlA]
        (mountViewer Samples.camera0) = Some s /\
    modelUrl s = Some "b.stl" /\
    geometry s = meshOf Samples.binaryLoader Samples.stlA /\
    geometry s <> meshOf Samples.binaryLoader Samples.stlB /\
    inFlight s = [].
Proof.
  eexists. split; [vm_compute; reflexivity |].
  split; [reflexivity |]. split; [vm_compute; reflexivity |].
  split; [vm_compute; discriminate | reflexivity].
Qed.

(** * Further properties *)

(** ** The normaliser under moving and scaling the mesh *)

Lemma Forall2_map_pointwise {A B : Type} (R : B -> B -> Prop)
      (f h : A -> B) (l : list A) :
  (forall a, R (f a) (h a)) -> Forall2 R (map f l) (map h l).
Proof.
  intros H. induction l as [| a l IH]; cbn; constructor; auto.
Qed.


(** The normaliser on a mesh and on the same mesh moved by [t]. *)
Lemma normalize_moved (g : BufferGeometry) (t : Vector3) :
  position g <> [] ->
  exists g1 g2 d1 d2,
    normalizeAndFrame g = (g1, Some (mkVector3 d1 d1 d1)) /\
    normalizeAndFrame (moveMesh t g) = (g2, Some (mkVector3 d2 d2 d2)) /\
    d1 == d2 /\
    Forall2 veq (position g1) (position g2).
Proof.
  intros Hne.
  destruct (normalizeAndFrame_vertices g Hne)
    as (mn & mx & g1 & mn1 & mx1 & _ & HB & _ & Hpos1 & _ & _ & _ & _
        & Hmn1 & Hmx1 & E1).
  assert (HneT : position (moveMesh t g) <> []).
  { cbn [moveMesh position]. destruct (position g); [congruence | discriminate]. }
  destruct (normalizeAndFrame_vertices (moveMesh t g) HneT)
    as (mnT & mxT & g2 & mn2 & mx2 & _ & HBT & _ & Hpos2 & _ & _ & _ & _
        & Hmn2 & Hmx2 & E2).
  cbv zeta in *. cbn [moveMesh position] in HBT, Hpos2.
  destruct (bounds_translate _ _ _ _ _ _ HB HBT) as [HmnT HmxT].
  eexists g1, g2, _, _. split; [exact E1 |]. split; [exact E2 |].
  destruct Hmn1 as (? & ? & ?). destruct Hmx1 as (? & ? & ?).
  destruct Hmn2 as (? & ? & ?). destruct Hmx2 as (? & ? & ?).
  destruct HmnT as (? & ? & ?). destruct HmxT as (? & ? & ?).
  cbn [addVectors subVectors multiplyScalar x y z] in *.
  split.
  - assert (M : max3 (x mx1 - x mn1) (y mx1 - y mn1) (z mx1 - z mn1)
                == max3 (x mx2 - x mn2) (y mx2 - y mn2) (z mx2 - z mn2))
      by (apply max3_compat; lra).
    lra.
  - rewrite Hpos1, Hpos2, map_map.
    apply Forall2_map_pointwise. intros p.
    unfold veq. cbn [addVectors multiplyScalar x y z]. repeat split; lra.
Qed.

(** X1.  Where a mesh sits does not matter to the framing: a mesh and
    the same mesh moved by any vector are normalised to the same
    vertices and get the same camera distance. *)
Theorem framing_ignores_mesh_position (g : BufferGeometry) (t : Vector3) :
  position g <> [] ->
  exists d1 d2,
    framingDistance g = Some d1 /\
    framingDistance (moveMesh t g) = Some d2 /\
    d1 == d2 /\
    Forall2 veq (position (fst (normalizeAndFrame g)))
                (position (fst (normalizeAndFrame (moveMesh t g)))).
Proof.
  intros Hne.
  destruct (normalize_moved g t Hne) as (g1 & g2 & d1 & d2 & E1 & E2 & Hd & Hp).
  exists d1, d2. unfold framingDistance. rewrite E1, E2. cbn [fst snd x].
  repeat split; assumption.
Qed.

(** X1 at the sample triangle moved by (100, -7, 1/3). *)
Lemma framing_ignores_mesh_position_witness :
  exists d1 d2,
    framingDistance
      (mkGeometry [mkVector3 1 0 0; mkVector3 0 2 0; mkVector3 0 0 3] None)
    = Some d1 /\
    framingDistance
      (moveMesh (mkVector3 100 (-7) (1 # 3))
         (mkGeometry [mkVector3 1 0 0; mkVector3 0 2 0; mkVector3 0 0 3] None))
    = Some d2 /\
    d1 == d2.
Proof.
  destruct (framing_ignores_mesh_position
              (mkGeometry [mkVector3 1 0 0; mkVector3 0 2 0; mkVector3 0 0 3] None)
              (mkVector3 100 (-7) (1 # 3)))
    as (d1 & d2 & H1 & H2 & Hd & _).
  - discriminate.
  - exists d1, d2. repeat split; assumption.
Defined.





(** X4.  For a mesh whose coordinates are all finite, in exact
    arithmetic: after normalisation no vertex coordinate exceeds a
    quarter of the camera's coordinate in absolute value, so the camera
    at [(d, d, d)] is outside the mesh's bounding box whenever
    [d > 0]. *)
Theorem normalized_mesh_within_quarter_of_camera
  (g : FloatGeometry.BufferGeometry) (vertices : list Vector3) :
  FloatGeometry.position g <> [] ->
  FloatGeometry.toVectors (FloatGeometry.position g) = Some vertices ->
  exists moved stored d,
    FloatGeometry.normalizeAndFrame g =
      (FloatGeometry.mkGeometry (map FloatGeometry.ofVector moved) stored,
       Some (FloatGeometry.mkVector3 (JsNumber.Finite d) (JsNumber.Finite d)
                                     (JsNumber.Finite d))) /\
    forall p, In p moved ->
              (- d <= 4 * x p /\ 4 * x p <= d) /\
              (- d <= 4 * y p /\ 4 * y p <= d) /\
              (- d <= 4 * z p /\ 4 * z p <= d).
Proof.
  intros Hne Hfin.
  apply FloatFacts.toVectors_ofVector in Hfin.
  destruct g as [ps stored]. cbn [FloatGeometry.position] in *. subst ps.
  assert (Hv : vertices <> []) by (intros ->; now apply Hne).
  destruct (FloatFacts.normalizeAndFrame_finite vertices stored Hv)
    as (qs & mn & mx & g' & E & _ & HB & _ & _ & (Sx & Sy & Sz) & _).
  eexists qs, _, _. split; [exact E |].
  intros p Hp.
  destruct HB as ((Bx & _) & (By & _) & (Bz & _)).
  pose proof (Bx p Hp). pose proof (By p Hp). pose proof (Bz p Hp).
  pose proof (max3_upper (x mx - x mn) (y mx - y mn) (z mx - z mn))
    as (Ux & Uy & Uz).
  repeat split; lra.
Qed.

(** X4 at the cube of edge 2 centred at (5, 5, 5): the camera
    coordinate is 4 and no coordinate of the moved cube exceeds 1. *)
Lemma normalized_mesh_within_quarter_of_camera_witness :
  exists moved stored d,
    FloatGeometry.normalizeAndFrame
      (FloatGeometry.ofGeometry (cubeMesh (mkVector3 5 5 5) 2)) =
      (FloatGeometry.mkGeometry (map FloatGeometry.ofVector moved) stored,
       Some (FloatGeometry.mkVector3 (JsNumber.Finite d) (JsNumber.Finite d)
                                     (JsNumber.Finite d))) /\
    forall p, In p moved -> 4 * x p <= d.
Proof.
  destruct (normalized_mesh_within_quarter_of_camera
              (FloatGeometry.ofGeometry (cubeMesh (mkVector3 5 5 5) 2))
              (position (cubeMesh (mkVector3 5 5 5) 2)))
    as (moved & stored & d & E & H).
  - discriminate.
  - reflexivity.
  - exists moved, stored, d. split; [exact E |].
    intros p Hp. now destruct (H p Hp) as ((_ & ?) & _).
Defined.

Lemma spans_scale (f : Vector3 -> Q) (ps : list Vector3) (lo hi k : Q) :
  (forall a s, f (multiplyScalar a s) = f a * s) ->
  0 <= k ->
  spans f ps lo hi ->
  spans f (map (fun p => multiplyScalar p k) ps) (lo * k) (hi * k).
Proof.
  intros Hf Hk (Hb & (pl & Hpl & Hel) & (ph & Hph & Heh)).
  split; [| split].
  - intros q Hq. apply in_map_iff in Hq. destruct Hq as (p & <- & Hp).
    rewrite Hf. destruct (Hb p Hp) as [Hlo Hhi].
    split; apply Qmult_le_compat_r; assumption.
  - exists (multiplyScalar pl k).
    split; [now apply (in_map (fun p => multiplyScalar p k)) |].
    rewrite Hf. now rewrite Hel.
  - exists (multiplyScalar ph k).
    split; [now apply (in_map (fun p => multiplyScalar p k)) |].
    rewrite Hf. now rewrite Heh.
Qed.

Lemma max3_scale (a b c k : Q) :
  0 <= k -> max3 (a * k) (b * k) (c * k) == max3 a b c * k.
Proof.
  intros Hk.
  destruct (max3_upper a b c) as (Ua & Ub & Uc).
  destruct (max3_upper (a * k) (b * k) (c * k)) as (Va & Vb & Vc).
  pose proof (Qmult_le_compat_r _ _ k Ua Hk) as Wa.
  pose proof (Qmult_le_compat_r _ _ k Ub Hk) as Wb.
  pose proof (Qmult_le_compat_r _ _ k Uc Hk) as Wc.
  assert (Hge : max3 a b c * k <= max3 (a * k) (b * k) (c * k)).
  { destruct (max3_attained a b c) as [E | [E | E]]; rewrite E; assumption. }
  assert (Hle : max3 (a * k) (b * k) (c * k) <= max3 a b c * k).
  { destruct (max3_attained (a * k) (b * k) (c * k)) as [E | [E | E]];
      rewrite E; assumption. }
  apply Qle_antisym; assumption.
Qed.

(** X5.  Scaling a mesh by a factor [k >= 0] scales the computed camera
    distance by [k]: the framing does not depend on the unit the model
    was drawn in. *)
Theorem framing_scales_with_mesh (g : BufferGeometry) (k : Q) :
  position g <> [] ->
  0 <= k ->
  exists d dk,
    framingDistance g = Some d /\
    framingDistance (scaleMesh k g) = Some dk /\
    dk == k * d.
Proof.
  intros Hne Hk.
  destruct (normalizeAndFrame_vertices g Hne)
    as (mn & mx & g1 & mn1 & mx1 & _ & HB & _ & _ & _ & _ & _ & _
        & Hmn1 & Hmx1 & E1).
  assert (HneS : position (scaleMesh k g) <> []).
  { cbn [scaleMesh position]. destruct (position g); [congruence | discriminate]. }
  destruct (normalizeAndFrame_vertices (scaleMesh k g) HneS)
    as (mnS & mxS & g2 & mn2 & mx2 & _ & HBS & _ & _ & _ & _ & _ & _
        & Hmn2 & Hmx2 & E2).
  cbv zeta in *. cbn [scaleMesh position] in HBS.
  eexists _, _. unfold framingDistance. rewrite E1, E2. cbn [snd x].
  split; [reflexivity |]. split; [reflexivity |].
  destruct HB as (Sx & Sy & Sz). destruct HBS as (Tx & Ty & Tz).
  destruct (spans_unique x _ _ _ _ _ Tx
              (spans_scale x _ _ _ k (fun _ _ => eq_refl) Hk Sx)) as [Ax Bx].
  destruct (spans_unique y _ _ _ _ _ Ty
              (spans_scale y _ _ _ k (fun _ _ => eq_refl) Hk Sy)) as [Ay By].
  destruct (spans_unique z _ _ _ _ _ Tz
              (spans_scale z _ _ _ k (fun _ _ => eq_refl) Hk Sz)) as [Az Bz].
  destruct Hmn1 as (? & ? & ?). destruct Hmx1 as (? & ? & ?).
  destruct Hmn2 as (? & ? & ?). destruct Hmx2 as (? & ? & ?).
  cbn [addVectors subVectors multiplyScalar x y z] in *.
  pose proof (max3_scale (x mx1 - x mn1) (y mx1 - y mn1) (z mx1 - z mn1) k Hk)
    as Hscale.
  assert (M : max3 (x mx2 - x mn2) (y mx2 - y mn2) (z mx2 - z mn2)
              == max3 ((x mx1 - x mn1) * k) ((y mx1 - y mn1) * k)
                      ((z mx1 - z mn1) * k)).
  { assert (Dx : x mx1 - x mn1 == x mx - x mn) by lra.
    assert (Dy : y mx1 - y mn1 == y mx - y mn) by lra.
    assert (Dz : z mx1 - z mn1 == z mx - z mn) by lra.
    apply max3_compat; [rewrite Dx | rewrite Dy | rewrite Dz]; lra. }
  rewrite M, Hscale. ring.
Qed.

(** X5 at the sample triangle scaled by 1000 (metres to millimetres). *)
Lemma framing_scales_with_mesh_witness :
  exists d dk,
    framingDistance
      (mkGeometry [mkVector3 1 0 0; mkVector3 0 2 0; mkVector3 0 0 3] None)
    = Some d /\
    framingDistance
      (scaleMesh 1000
         (mkGeometry [mkVector3 1 0 0; mkVector3 0 2 0; mkVector3 0 0 3] None))
    = Some dk /\
    dk == 1000 * d.
Proof.
  destruct (framing_scales_with_mesh
              (mkGeometry [mkVector3 1 0 0; mkVector3 0 2 0; mkVector3 0 0 3] None)
              1000)
    as (d & dk & H1 & H2 & H3).
  - discriminate.
  - discriminate.
  - exists d, dk. repeat split; assumption.
Defined.

(** ** More on the viewer's states *)

Section ViewerFacts.

Variable loader : STLLoader.
Variable place : OrbitControls.Placement.
Variable canvasCamera : PerspectiveCamera.t.

Lemma loadEffect_truthy (url : string) (s : ViewerState) :
  truthy (Some url) = true ->
  loadEffect place url s =
    mkViewer (modelUrl s) (error s) (initialCameraPosition s) (controlsRef s)
             (camera s) (geometry s) (isRotating s) (S (nextRequest s))
             (inFlight s ++ [(nextRequest s, url)]) (orphaned s) (console s).
Proof.
  unfold truthy, loadEffect. intros H. apply negb_true_iff in H. now rewrite H.
Qed.

Lemma setGeometry_keeps (value : option BufferGeometry) (s : ViewerState) :
  let s' := setGeometry place value s in
  error s' = error s /\ modelUrl s' = modelUrl s /\
  (controlsRef s = None -> controlsRef s' = None).
Proof.
  destruct value as [g |].
  - destruct (normalizeAndFrame_some g) as (g' & p & E).
    destruct (setGeometry_some place g g' p s E)
      as (_ & _ & _ & _ & _ & He & Hu & _ & _ & _ & _ & _ & Hc).
    cbv zeta. repeat split; try assumption.
    intros Hn. rewrite Hc, Hn. reflexivity.
  - rewrite setGeometry_none. repeat split; auto.
Qed.

Lemma complete_keeps
  (request : nat) (value : option BufferGeometry) (out : list ConsoleEntry)
  (s s' : ViewerState) :
  complete place request value out s = Some s' ->
  error s' = error s /\ modelUrl s' = modelUrl s /\
  (controlsRef s = None -> controlsRef s' = None).
Proof.
  unfold complete. intros H.
  destruct (isInFlight request s).
  - injection H as <-.
    destruct (setGeometry_keeps value (withConsole (completeRequest request s) out))
      as (He & Hu & Hc).
    repeat split; assumption.
  - destruct (hasRequest request (orphaned s)); [| discriminate].
    injection H as <-. repeat split; auto.
Qed.

Lemma step_controlsFollowCanvas (ev : Event) (s s' : ViewerState) :
  controlsFollowCanvas s ->
  step loader place canvasCamera ev s = Some s' ->
  controlsFollowCanvas s'.
Proof.
  unfold controlsFollowCanvas, canvasMounted. intros Hs Hstep.
  destruct ev; cbn [step] in Hstep.
  - destruct (error s) eqn:Herr.
    + injection Hstep as <-. cbn. intros _. apply Hs. reflexivity.
    + destruct (truthy (modelUrl s)) eqn:Hcur.
      * destruct url as [url |]; [| now injection Hstep as <-].
        destruct (truthy (Some url)) eqn:Hnew; [| now injection Hstep as <-].
        destruct (sameUrl (modelUrl s) url); injection Hstep as <-.
        -- cbn. rewrite Herr, Hnew. discriminate.
        -- rewrite (loadEffect_truthy _ _ Hnew). cbn. rewrite Herr, Hnew.
           discriminate.
      * destruct url as [url |].
        -- destruct (truthy (Some url)) eqn:Hnew; injection Hstep as <-.
           ++ unfold mountCanvas. rewrite (loadEffect_truthy _ _ Hnew). cbn.
              rewrite Herr, Hnew. discriminate.
           ++ cbn. intros _. apply Hs. reflexivity.
        -- injection Hstep as <-. cbn. intros _. apply Hs. reflexivity.
  - destruct (onLoad loader fileBuffer) as [value out].
    destruct (complete_keeps _ _ _ _ _ Hstep) as (He & Hu & Hc).
    rewrite He, Hu. auto.
  - cbn [onError] in Hstep.
    destruct (complete_keeps _ _ _ _ _ Hstep) as (He & Hu & Hc).
    rewrite He, Hu. auto.
  - fold (canvasMounted s) in *. destruct (canvasMounted s) eqn:Hm; [| discriminate].
    injection Hstep as <-. unfold canvasMounted in Hm.
    unfold resetView. destruct (controlsRef s); cbn; rewrite Hm; discriminate.
  - fold (canvasMounted s) in *. destruct (canvasMounted s) eqn:Hm; [| discriminate].
    injection Hstep as <-. unfold canvasMounted in Hm.
    unfold zoom. destruct (controlsRef s); cbn; rewrite Hm; discriminate.
  - fold (canvasMounted s) in *. destruct (canvasMounted s) eqn:Hm; [| discriminate].
    injection Hstep as <-. unfold canvasMounted in Hm.
    unfold zoom. destruct (controlsRef s); cbn; rewrite Hm; discriminate.
  - destruct (controlsRef s) eqn:Hc; [| discriminate].
    injection Hstep as <-. cbn. intros Hm. specialize (Hs Hm). discriminate Hs.
  - destruct (geometry s); [| discriminate]. now injection Hstep as <-.
  - fold (canvasMounted s) in *. destruct (canvasMounted s); [| discriminate].
    now injection Hstep as <-.
Qed.

Lemma run_controlsFollowCanvas (evs : list Event) (s s' : ViewerState) :
  controlsFollowCanvas s ->
  run loader place canvasCamera evs s = Some s' ->
  controlsFollowCanvas s'.
Proof.
  revert s. induction evs as [| ev evs IH]; intros s Hs Hrun; cbn in Hrun.
  - now injection Hrun as <-.
  - destruct (step loader place canvasCamera ev s) as [s1 |] eqn:E;
      [| discriminate].
    eapply IH; [| exact Hrun]. eapply step_controlsFollowCanvas; eassumption.
Qed.

(** Under the error panel no event reaches the camera, the stored
    reset position or the error flag. *)
Lemma step_under_error (ev : Event) (s s' : ViewerState) :
  wellFormed s -> controlsFollowCanvas s -> error s = true ->
  step loader place canvasCamera ev s = Some s' ->
  error s' = true /\ camera s' = camera s /\
  initialCameraPosition s' = initialCameraPosition s.
Proof.
  intros (_ & H2 & _) Hc Herr Hstep.
  destruct (H2 Herr) as [Hfl Hg].
  assert (Hm : canvasMounted s = false)
    by (unfold canvasMounted; now rewrite Herr).
  specialize (Hc Hm).
  assert (Hcomplete : forall request value out,
             complete place request value out s = Some s' ->
             error s' = true /\ camera s' = camera s /\
             initialCameraPosition s' = initialCameraPosition s).
  { intros request value out H. unfold complete, isInFlight in H.
    rewrite Hfl in H. cbn [hasRequest existsb] in H.
    destruct (hasRequest request (orphaned s)); [| discriminate].
    injection H as <-. cbn. auto. }
  destruct ev; cbn [step] in Hstep.
  - rewrite Herr in Hstep. injection Hstep as <-. cbn. auto.
  - destruct (onLoad loader fileBuffer) as [value out]. eauto.
  - cbn [onError] in Hstep. eauto.
  - rewrite Hm in Hstep. discriminate.
  - rewrite Hm in Hstep. discriminate.
  - rewrite Hm in Hstep. discriminate.
  - rewrite Hc in Hstep. discriminate.
  - rewrite Hg in Hstep. discriminate.
  - rewrite Hm in Hstep. discriminate.
Qed.

End ViewerFacts.

(** X6.  A canvas error is final: once the error flag is up, whatever
    happens next (new model URLs, fetches completing, clicks) the viewer
    keeps showing the error panel, with no mesh and no controls, and the
    camera and the stored reset position stay as they were; the reset
    button cannot be pressed. *)
Theorem canvas_error_is_final
  (loader : STLLoader) (place : OrbitControls.Placement) (camera0 : PerspectiveCamera.t)
  (before after : list Event) (s s' : ViewerState) :
  run loader place camera0 before (mountViewer camera0) = Some s ->
  error s = true ->
  run loader place camera0 after s = Some s' ->
  render s' = ErrorPanel /\
  geometry s' = None /\
  controlsRef s' = None /\
  camera s' = camera s /\
  initialCameraPosition s' = initialCameraPosition s /\
  step loader place camera0 ClickReset s' = None.
Proof.
  intros Hbefore Herr Hafter.
  pose proof (run_wellFormed loader place camera0 before _ _
                (mount_wellFormed camera0) Hbefore) as Hwf.
  assert (Hcf : controlsFollowCanvas s).
  { eapply run_controlsFollowCanvas; [| exact Hbefore]. intros _. reflexivity. }
  assert (Hkeep : error s' = true /\ camera s' = camera s /\
                  initialCameraPosition s' = initialCameraPosition s /\
                  wellFormed s' /\ controlsFollowCanvas s').
  { clear Hbefore. revert s Herr Hwf Hcf Hafter.
    induction after as [| ev evs IH]; intros s Herr Hwf Hcf Hrun; cbn in Hrun.
    - injection Hrun as <-. auto.
    - destruct (step loader place camera0 ev s) as [s1 |] eqn:E;
        [| discriminate].
      destruct (step_under_error _ _ _ _ _ _ Hwf Hcf Herr E) as (He & Hc & Hi).
      destruct (IH s1 He (step_wellFormed _ _ _ _ _ _ Hwf E)
                  (step_controlsFollowCanvas _ _ _ _ _ _ Hcf E) Hrun)
        as (He' & Hc' & Hi' & Hwf' & Hcf').
      split; [exact He' |]. split; [congruence |]. split; [congruence |].
      split; assumption. }
  destruct Hkeep as (He & Hc & Hi & (_ & H2 & _) & Hcf').
  assert (Hm : canvasMounted s' = false)
    by (unfold canvasMounted; now rewrite He).
  unfold render. cbn [step]. rewrite He, Hm.
  destruct (H2 He) as [_ Hg].
  repeat split; auto.
Qed.

(** X6 on a run: a model is on display and a second one is being
    fetched when the canvas fails; a new URL and the completion of the
    pending fetch leave the viewer on the error panel. *)
Lemma canvas_error_is_final_witness :
  exists s s',
    run Samples.binaryLoader ThreeOrbit.place Samples.camera0
        [LoadRequest "a.stl"; FetchLoaded 0 Samples.stlA;
         LoadRequest "b.stl"; CanvasError]
        (mountViewer Samples.camera0) = Some s /\
    run Samples.binaryLoader ThreeOrbit.place Samples.camera0
        [LoadRequest "c.stl"; FetchLoaded 1 Samples.stlB] s = Some s' /\
    render s' = ErrorPanel /\ geometry s' = None.
Proof.
  destruct (run Samples.binaryLoader ThreeOrbit.place Samples.camera0
              [LoadRequest "a.stl"; FetchLoaded 0 Samples.stlA;
               LoadRequest "b.stl"; CanvasError]
              (mountViewer Samples.camera0)) as [s |] eqn:H1;
    [| vm_compute in H1; discriminate H1].
  destruct (run Samples.binaryLoader ThreeOrbit.place Samples.camera0
              [LoadRequest "c.stl"; FetchLoaded 1 Samples.stlB] s)
    as [s' |] eqn:H2;
    [| vm_compute in H1; injection H1 as <-; vm_compute in H2; discriminate H2].
  destruct (canvas_error_is_final Samples.binaryLoader ThreeOrbit.place Samples.camera0
              _ [LoadRequest "c.stl"; FetchLoaded 1 Samples.stlB] s s' H1)
    as (Hr & Hg & _).
  - vm_compute in H1. injection H1 as <-. reflexivity.
  - exact H2.
  - exists s, s'. repeat split; assumption.
Defined.

Section ViewerRuns.

Variable loader : STLLoader.
Variable place : OrbitControls.Placement.
Variable canvasCamera : PerspectiveCamera.t.

Lemma step_keeps_error_flag (ev : Event) (s s' : ViewerState) :
  ev <> CanvasError ->
  step loader place canvasCamera ev s = Some s' ->
  error s' = error s.
Proof.
  intros Hev Hstep. destruct ev; cbn [step] in Hstep.
  - destruct (error s) eqn:Herr; [now injection Hstep as <- |].
    unfold mountCanvas in Hstep.
    destruct (truthy (modelUrl s)), url as [url |];
      try destruct (truthy (Some url)) eqn:Hnew;
      try destruct (sameUrl (modelUrl s) url);
      injection Hstep as <-;
      rewrite ?(loadEffect_truthy _ _ _ Hnew); cbn; congruence.
  - destruct (onLoad loader fileBuffer) as [value out].
    now destruct (complete_keeps _ _ _ _ _ _ Hstep).
  - cbn [onError] in Hstep. now destruct (complete_keeps _ _ _ _ _ _ Hstep).
  - destruct (canvasMounted s); [| discriminate]. injection Hstep as <-.
    unfold resetView. now destruct (controlsRef s).
  - destruct (canvasMounted s); [| discriminate]. injection Hstep as <-.
    unfold zoom. now destruct (controlsRef s).
  - destruct (canvasMounted s); [| discriminate]. injection Hstep as <-.
    unfold zoom. now destruct (controlsRef s).
  - destruct (controlsRef s); [| discriminate]. now injection Hstep as <-.
  - destruct (geometry s); [| discriminate]. now injection Hstep as <-.
  - congruence.
Qed.

(** A load request for a truthy URL and the user's input leave the
    mesh, the stored reset position and the canvas in place. *)
Lemma step_keeps_mesh (ev : Event) (s s' : ViewerState) :
  keepsCanvas ev = true -> canvasMounted s = true ->
  step loader place canvasCamera ev s = Some s' ->
  geometry s' = geometry s /\
  initialCameraPosition s' = initialCameraPosition s /\
  canvasMounted s' = true.
Proof.
  intros Hk Hm Hstep. pose proof Hm as Hm'. unfold canvasMounted in Hm'.
  apply andb_prop in Hm'. destruct Hm' as [Herr Hcur].
  apply negb_true_iff in Herr.
  destruct ev; cbn [keepsCanvas] in Hk; try discriminate; cbn [step] in Hstep.
  - rewrite Herr, Hcur in Hstep. destruct url as [url |]; [| discriminate].
    rewrite Hk in Hstep.
    destruct (sameUrl (modelUrl s) url); injection Hstep as <-.
    + unfold canvasMounted. cbn. rewrite Herr, Hk. auto.
    + rewrite (loadEffect_truthy _ _ _ Hk). unfold canvasMounted. cbn.
      rewrite Herr, Hk. auto.
  - rewrite Hm in Hstep. injection Hstep as <-.
    unfold resetView, canvasMounted in *.
    destruct (controlsRef s); cbn; auto.
  - rewrite Hm in Hstep. injection Hstep as <-.
    unfold zoom, canvasMounted in *. destruct (controlsRef s); cbn; auto.
  - rewrite Hm in Hstep. injection Hstep as <-.
    unfold zoom, canvasMounted in *. destruct (controlsRef s); cbn; auto.
  - destruct (controlsRef s); [| discriminate]. injection Hstep as <-.
    unfold canvasMounted in *. cbn. auto.
  - destruct (geometry s) eqn:Hg; [| discriminate]. injection Hstep as <-.
    unfold canvasMounted in *. cbn. auto.
Qed.

End ViewerRuns.

(** X7.  Only a canvas error raises the error flag: along any run
    without one (failed downloads and unparsable files included) the
    flag keeps its value, so a viewer that starts without an error never
    shows the error panel. *)
Theorem only_canvas_error_raises_flag
  (loader : STLLoader) (place : OrbitControls.Placement) (camera0 : PerspectiveCamera.t)
  (evs : list Event) (s s' : ViewerState) :
  ~ In CanvasError evs ->
  run loader place camera0 evs s = Some s' ->
  error s' = error s /\
  (error s = false -> render s' <> ErrorPanel).
Proof.
  intros Hno Hrun.
  assert (He : error s' = error s).
  { revert s Hrun. induction evs as [| ev evs IH]; intros s Hrun; cbn in Hrun.
    - now injection Hrun as <-.
    - destruct (step loader place camera0 ev s) as [s1 |] eqn:E;
        [| discriminate].
      rewrite (IH (fun H => Hno (or_intror H)) s1 Hrun).
      eapply step_keeps_error_flag; [| exact E].
      intros ->. apply Hno. now left. }
  split; [exact He |].
  intros Hs. unfold render. rewrite He, Hs.
  destruct (truthy (modelUrl s')); discriminate.
Qed.

(** X7 on a run with a failed download and a file that does not parse. *)
Lemma only_canvas_error_raises_flag_witness :
  exists s',
    run Samples.binaryLoader ThreeOrbit.place Samples.camera0
        [LoadRequest "a.stl"; FetchFailed 0 "404";
         LoadRequest "b.stl"; FetchLoaded 1 Samples.junk]
        (mountViewer Samples.camera0) = Some s' /\
    error s' = false /\ render s' = CanvasPanel /\ geometry s' = None.
Proof.
  destruct (run Samples.binaryLoader ThreeOrbit.place Samples.camera0
              [LoadRequest "a.stl"; FetchFailed 0 "404";
               LoadRequest "b.stl"; FetchLoaded 1 Samples.junk]
              (mountViewer Samples.camera0)) as [s' |] eqn:Hrun;
    [| vm_compute in Hrun; discriminate Hrun].
  assert (Hno : ~ In CanvasError
                    [LoadRequest "a.stl"; FetchFailed 0 "404";
                     LoadRequest "b.stl"; FetchLoaded 1 Samples.junk]).
  { unfold LoadRequest. intros [H | [H | [H | [H | []]]]]; discriminate H. }
  destruct (only_canvas_error_raises_flag Samples.binaryLoader ThreeOrbit.place
              Samples.camera0 _ _ s' Hno Hrun)
    as (He & _).
  exists s'. split; [reflexivity |]. split; [exact He |].
  vm_compute in Hrun. injection Hrun as <-. split; reflexivity.
Defined.

(** X8.  While the canvas is up, asking for another model and any
    amount of clicking, zooming and orbiting leave the mesh on display
    and the stored reset position untouched: they change only when a
    fetch completes.  In particular the previous model stays visible
    while the next one is being fetched. *)
Theorem mesh_stays_until_a_fetch_completes
  (loader : STLLoader) (place : OrbitControls.Placement) (camera0 : PerspectiveCamera.t)
  (evs : list Event) (s s' : ViewerState) :
  canvasMounted s = true ->
  forallb keepsCanvas evs = true ->
  run loader place camera0 evs s = Some s' ->
  geometry s' = geometry s /\
  initialCameraPosition s' = initialCameraPosition s /\
  render s' = CanvasPanel.
Proof.
  intros Hm Hall Hrun.
  assert (H : geometry s' = geometry s /\
              initialCameraPosition s' = initialCameraPosition s /\
              canvasMounted s' = true).
  { revert s Hm Hrun. induction evs as [| ev evs IH]; intros s Hm Hrun;
      cbn in Hrun.
    - injection Hrun as <-. auto.
    - cbn [forallb] in Hall. apply andb_prop in Hall. destruct Hall as [Hev Hrest].
      destruct (step loader place camera0 ev s) as [s1 |] eqn:E;
        [| discriminate].
      destruct (step_keeps_mesh _ _ _ _ _ _ Hev Hm E) as (Hg & Hi & Hm1).
      destruct (IH Hrest s1 Hm1 Hrun) as (Hg' & Hi' & Hm').
      repeat split; congruence. }
  destruct H as (Hg & Hi & Hm').
  split; [exact Hg |]. split; [exact Hi |].
  unfold render. unfold canvasMounted in Hm'.
  apply andb_prop in Hm'. destruct Hm' as [He Hu].
  apply negb_true_iff in He. now rewrite He, Hu.
Qed.

(** X8 on a run: with a.stl on display, b.stl is requested and the user
    orbits, zooms and resets; the mesh of a.stl is still there. *)
Lemma mesh_stays_until_a_fetch_completes_witness :
  exists s s',
    run Samples.binaryLoader ThreeOrbit.place Samples.camera0
        [LoadRequest "a.stl"; FetchLoaded 0 Samples.stlA]
        (mountViewer Samples.camera0) = Some s /\
    run Samples.binaryLoader ThreeOrbit.place Samples.camera0
        [LoadRequest "b.stl"; Orbit (mkVector3 1 9 (-4)) (mkVector3 2 0 0);
         ClickZoomIn; ClickModel; ClickReset] s = Some s' /\
    geometry s' = geometry s /\
    geometry s' = meshOf Samples.binaryLoader Samples.stlA /\
    modelUrl s' = Some "b.stl".
Proof.
  destruct (run Samples.binaryLoader ThreeOrbit.place Samples.camera0
              [LoadRequest "a.stl"; FetchLoaded 0 Samples.stlA]
              (mountViewer Samples.camera0)) as [s |] eqn:H1;
    [| vm_compute in H1; discriminate H1].
  destruct (run Samples.binaryLoader ThreeOrbit.place Samples.camera0
              [LoadRequest "b.stl"; Orbit (mkVector3 1 9 (-4)) (mkVector3 2 0 0);
               ClickZoomIn; ClickModel; ClickReset] s) as [s' |] eqn:H2;
    [| vm_compute in H1; injection H1 as <-; vm_compute in H2; discriminate H2].
  destruct (mesh_stays_until_a_fetch_completes Samples.binaryLoader ThreeOrbit.place
              Samples.camera0
              [LoadRequest "b.stl"; Orbit (mkVector3 1 9 (-4)) (mkVector3 2 0 0);
               ClickZoomIn; ClickModel; ClickReset] s s') as (Hg & _).
  - vm_compute in H1. injection H1 as <-. reflexivity.
  - reflexivity.
  - exact H2.
  - exists s, s'. split; [reflexivity |]. split; [exact H2 |].
    split; [exact Hg |].
    vm_compute in H1. injection H1 as <-.
    vm_compute in H2. injection H2 as <-. split; reflexivity.
Defined.

(** X9.  A fetch that fails, or that delivers a buffer no parser
    accepts, removes the mesh on display but leaves the camera, the
    error flag and the stored reset position as they were: the reset
    button then still leads to the position computed for the model that
    was on display before. *)
Theorem failed_load_keeps_previous_frame
  (loader : STLLoader) (place : OrbitControls.Placement) (camera0 : PerspectiveCamera.t)
  (request : nat) (s : ViewerState) :
  isInFlight request s = true ->
  (forall e,
      exists s',
        step loader place camera0 (FetchFailed request e) s = Some s' /\
        geometry s' = None /\ camera s' = camera s /\ error s' = error s /\
        initialCameraPosition s' = initialCameraPosition s /\
        console s' =
          console s ++ [ConsoleError "Error loading STL file from server:" e]) /\
  (forall fileBuffer,
      fst (onLoad loader fileBuffer) = None ->
      exists s',
        step loader place camera0 (FetchLoaded request fileBuffer) s
        = Some s' /\
        geometry s' = None /\ camera s' = camera s /\ error s' = error s /\
        initialCameraPosition s' = initialCameraPosition s).
Proof.
  intros Hin. split.
  - intros e. cbn [step onError]. unfold complete. rewrite Hin.
    eexists. split; [reflexivity |]. rewrite setGeometry_none.
    repeat split.
  - intros fileBuffer Hnone. cbn [step].
    destruct (onLoad loader fileBuffer) as [value out]. cbn in Hnone. subst value.
    unfold complete. rewrite Hin.
    eexists. split; [reflexivity |]. rewrite setGeometry_none.
    repeat split.
Qed.

(** X9 on a run: a.stl is on display, b.stl is requested and its
    download fails; the mesh is gone and the reset position is still the
    (6, 6, 6) of a.stl. *)
Lemma failed_load_keeps_previous_frame_witness :
  exists s s',
    run Samples.binaryLoader ThreeOrbit.place Samples.camera0
        [LoadRequest "a.stl"; FetchLoaded 0 Samples.stlA; LoadRequest "b.stl"]
        (mountViewer Samples.camera0) = Some s /\
    step Samples.binaryLoader ThreeOrbit.place Samples.camera0 (FetchFailed 1 "404") s
    = Some s' /\
    geometry s' = None /\
    initialCameraPosition s' = initialCameraPosition s /\
    veq (initialCameraPosition s') (mkVector3 6 6 6).
Proof.
  destruct (run Samples.binaryLoader ThreeOrbit.place Samples.camera0
              [LoadRequest "a.stl"; FetchLoaded 0 Samples.stlA; LoadRequest "b.stl"]
              (mountViewer Samples.camera0)) as [s |] eqn:H1;
    [| vm_compute in H1; discriminate H1].
  destruct (failed_load_keeps_previous_frame Samples.binaryLoader ThreeOrbit.place
              Samples.camera0 1 s) as (Hfail & _).
  - vm_compute in H1. injection H1 as <-. reflexivity.
  - destruct (Hfail "404") as (s' & Hstep & Hg & _ & _ & Hi & _).
    exists s, s'. split; [reflexivity |]. split; [exact Hstep |].
    split; [exact Hg |]. split; [exact Hi |].
    rewrite Hi. vm_compute in H1. injection H1 as <-. vm_compute. repeat split.
Defined.

(** ** Zoom and auto-rotation *)




Lemma renderFrames_idle (n : nat) (s : ViewerState) (r : Q) :
  geometry s = None \/ isRotating s = false -> renderFrames n s r = r.
Proof.
  intros H. revert r. induction n as [| n IH]; intros r; [reflexivity |].
  cbn [renderFrames]. rewrite IH. unfold useFrameCallback.
  destruct H as [-> | ->]; [reflexivity |]. now destruct (geometry s).
Qed.

Lemma renderFrames_turning (n : nat) (s : ViewerState) (r : Q) :
  geometry s <> None -> isRotating s = true ->
  renderFrames n s r == r + inject_Z (Z.of_nat n) * (1 # 100).
Proof.
  intros Hg Hr. revert r. induction n as [| n IH]; intros r.
  - cbn [renderFrames]. change (inject_Z (Z.of_nat 0)) with 0. ring.
  - cbn [renderFrames]. rewrite IH. unfold useFrameCallback. rewrite Hr.
    destruct (geometry s); [| congruence].
    rewrite Nat2Z.inj_succ. unfold Z.succ. rewrite inject_Z_plus.
    change (inject_Z 1) with 1. ring.
Qed.

(** X11.  Auto-rotation: a click on the mesh flips [isRotating] and a
    second click restores the state; without a mesh there is nothing to
    click.  Over [n] rendered frames the mesh turns by [n * 0.01] when a
    mesh is shown and [isRotating] is set, and not at all otherwise. *)
Theorem auto_rotation_toggle_and_turn
  (loader : STLLoader) (place : OrbitControls.Placement) (camera0 : PerspectiveCamera.t)
  (s : ViewerState) (n : nat) (rotationY : Q) :
  (forall s1,
      step loader place camera0 ClickModel s = Some s1 ->
      isRotating s1 = negb (isRotating s) /\
      geometry s1 = geometry s /\
      step loader place camera0 ClickModel s1 = Some s) /\
  (geometry s = None ->
   step loader place camera0 ClickModel s = None) /\
  (geometry s <> None ->
   exists s1, step loader place camera0 ClickModel s = Some s1) /\
  (geometry s <> None -> isRotating s = true ->
   renderFrames n s rotationY
   == rotationY + inject_Z (Z.of_nat n) * (1 # 100)) /\
  (geometry s = None \/ isRotating s = false ->
   renderFrames n s rotationY = rotationY).
Proof.
  split; [| split; [| split; [| split]]].
  - intros s1 Hstep. cbn [step] in *.
    destruct s as [u er ip ctl cam g rot nr fl orph out]. cbn in *.
    destruct g as [g |]; [| discriminate]. injection Hstep as <-. cbn.
    rewrite negb_involutive. repeat split.
  - intros Hg. cbn [step]. now rewrite Hg.
  - intros Hg. cbn [step]. destruct (geometry s); [eauto | congruence].
  - apply renderFrames_turning.
  - apply renderFrames_idle.
Qed.

(** ** The [onLoad] callback and the console *)

(** X12.  [onLoad] writes a [console.error] line exactly when it hands
    [null] to [setGeometry]: every failure is reported on the console,
    and a buffer that yields a geometry never produces an error line.
    Whenever [loader.parse] throws, the first line written is the
    warning that carries the thrown error. *)
Theorem onLoad_reports_failure_exactly
  (loader : STLLoader) (fileBuffer : ArrayBuffer) :
  (fst (onLoad loader fileBuffer) = None <->
   exists msg e, In (ConsoleError msg e) (snd (onLoad loader fileBuffer))) /\
  (forall e,
      parse loader fileBuffer = Throws e ->
      exists rest,
        snd (onLoad loader fileBuffer) =
        ConsoleWarn "Standard STL parsing failed, attempting fallback." e :: rest).
Proof.
  unfold onLoad, asciiFallback.
  destruct (parse loader fileBuffer) as [g | e0].
  - cbn. split.
    + split; [discriminate |]. intros (msg & e & [H | []]). discriminate H.
    + intros e H. discriminate H.
  - destruct (String.eqb _ "solid").
    + destruct (parseASCII loader (decode fileBuffer)) as [g | e1]; cbn.
      * split.
        -- split; [discriminate |].
           intros (msg & e & [H | [H | []]]); discriminate H.
        -- intros e [= <-]. eauto.
      * split.
        -- split; [| reflexivity]. intros _. exists "STL parsing fallback also failed:", e1.
           auto.
        -- intros e [= <-]. eauto.
    + cbn. split.
      * split; [| reflexivity]. intros _.
        exists "STL parsing fallback also failed:", notAsciiError. auto.
      * intros e [= <-]. eauto.
Qed.

(** X13.  [loader.parseASCII] is consulted only when [loader.parse]
    throws and the buffer begins with [solid]: two loaders with the same
    [parse] give the same outcome on every buffer that parses, that does
    not begin with [solid], or that has fewer than five bytes. *)
Theorem parseASCII_only_after_solid_sniff
  (loader loader' : STLLoader) (fileBuffer : ArrayBuffer) :
  parse loader fileBuffer = parse loader' fileBuffer ->
  (exists g, parse loader fileBuffer = Returns g) \/
  startsWithSolid fileBuffer = false \/
  (List.length fileBuffer < 5)%nat ->
  onLoad loader fileBuffer = onLoad loader' fileBuffer.
Proof.
  intros Hparse Hcase. unfold onLoad, asciiFallback.
  rewrite <- Hparse, (sniff_is_startsWithSolid fileBuffer).
  destruct (parse loader fileBuffer) as [g | e]; [reflexivity |].
  assert (Hs : startsWithSolid fileBuffer = false).
  { destruct Hcase as [(g & H) | [H | H]]; [discriminate H | exact H |].
    destruct fileBuffer as [| b0 [| b1 [| b2 [| b3 [| b4 rest]]]]];
      try reflexivity.
    cbn in H. lia. }
  now rewrite Hs.
Qed.

(** X13 at the four bytes "soli", on which the three.js-style [parse]
    throws: a loader with a text parser that accepts everything gives the
    same (empty) outcome. *)
Lemma parseASCII_only_after_solid_sniff_witness :
  onLoad Samples.binaryLoader (list_byte_of_string "soli")
  = onLoad (mkLoader (parse Samples.binaryLoader)
                     (fun _ => Returns Samples.emptyMesh))
           (list_byte_of_string "soli").
Proof.
  apply (parseASCII_only_after_solid_sniff Samples.binaryLoader
           (mkLoader (parse Samples.binaryLoader)
                     (fun _ => Returns Samples.emptyMesh))
           (list_byte_of_string "soli")).
  - reflexivity.
  - right. right. cbn. lia.
Defined.

(** ** The upload widget *)

Module FileUploadFacts.

Import FileUpload.
Local Open Scope string_scope.

Lemma endsWith_spec (s suffix : string) :
  endsWith s suffix = true <-> exists stem, s = stem ++ suffix.
Proof.
  induction s as [| c s IH]; cbn [endsWith].
  - rewrite orb_false_r. rewrite String.eqb_eq. split.
    + intros <-. now exists "".
    + intros (stem & H). destruct stem; cbn in H; [congruence |]. discriminate H.
  - rewrite orb_true_iff, String.eqb_eq, IH. split.
    + intros [<- | (stem & ->)]; [now exists "" |]. now exists (String c stem).
    + intros (stem & H). destruct stem as [| c' stem]; cbn in H.
      * now left.
      * injection H as _ Hrest. right. now exists stem.
Qed.

Lemma toLowerCase_split (s a b : string) :
  toLowerCase s = a ++ b ->
  exists s1 s2, s = s1 ++ s2 /\ toLowerCase s1 = a /\ toLowerCase s2 = b.
Proof.
  revert s. induction a as [| c a IH]; intros s H; cbn in H.
  - exists "", s. repeat split. exact H.
  - destruct s as [| c' s]; cbn in H; [discriminate H |].
    injection H as Hc Hrest. destruct (IH s Hrest) as (s1 & s2 & -> & <- & <-).
    exists (String c' s1), s2. cbn. now rewrite Hc.
Qed.

Lemma toLowerCase_app (a b : string) :
  toLowerCase (a ++ b) = toLowerCase a ++ toLowerCase b.
Proof. induction a as [| c a IH]; cbn; [reflexivity | now rewrite IH]. Qed.

Ltac by_ascii c := destruct c as [[] [] [] [] [] [] [] []]; reflexivity.

Lemma lowerChar_dot (c : ascii) :
  Ascii.eqb (lowerChar c) "." = Ascii.eqb c ".".
Proof. by_ascii c. Qed.

Lemma lowerChar_s (c : ascii) :
  Ascii.eqb (lowerChar c) "s" = (Ascii.eqb c "s" || Ascii.eqb c "S").
Proof. by_ascii c. Qed.

Lemma lowerChar_t (c : ascii) :
  Ascii.eqb (lowerChar c) "t" = (Ascii.eqb c "t" || Ascii.eqb c "T").
Proof. by_ascii c. Qed.

Lemma lowerChar_l (c : ascii) :
  Ascii.eqb (lowerChar c) "l" = (Ascii.eqb c "l" || Ascii.eqb c "L").
Proof. by_ascii c. Qed.

Lemma lowered_extension (ext : string) :
  String.eqb (toLowerCase ext) ".stl" = isStlExtension ext.
Proof.
  destruct ext as [| c0 [| c1 [| c2 [| c3 [| c4 rest]]]]];
    cbn [toLowerCase String.eqb isStlExtension];
    rewrite ?lowerChar_dot, ?lowerChar_s, ?lowerChar_t, ?lowerChar_l;
    repeat match goal with
           | |- context [Ascii.eqb ?a ?b] => destruct (Ascii.eqb a b)
           end;
    reflexivity.
Qed.

(** The test of both handlers, spelled out. *)
Lemma isStlFile_spec (f : File) :
  isStlFile (Some f) = true <->
  exists stem ext, name f = stem ++ ext /\ isStlExtension ext = true.
Proof.
  cbn [isStlFile]. rewrite endsWith_spec. split.
  - intros (stem & H). destruct (toLowerCase_split _ _ _ H) as (s1 & s2 & E & _ & H2).
    exists s1, s2. split; [exact E |].
    rewrite <- lowered_extension. now apply String.eqb_eq.
  - intros (stem & ext & E & H). rewrite <- lowered_extension in H.
    apply String.eqb_eq in H. exists (toLowerCase stem).
    now rewrite E, toLowerCase_app, H.
Qed.

End FileUploadFacts.

(** X14.  The upload widget hands a file on exactly when it is the
    first file of the event and its name ends in [.stl] in any mix of
    upper and lower case; file picker and drop zone accept the same
    files.  Nothing but the name is looked at, and every other event ends
    in an alert. *)
Theorem upload_accepts_exactly_stl_names
  (picked : option (list FileUpload.File)) (dropped : list FileUpload.File)
  (f : FileUpload.File) :
  (FileUpload.handleFileSelect picked = FileUpload.OnFileUpload f <->
   (exists others, picked = Some (f :: others)) /\
   exists stem ext,
     FileUpload.name f = (stem ++ ext)%string /\
     FileUpload.isStlExtension ext = true) /\
  (FileUpload.handleDrop dropped = FileUpload.OnFileUpload f <->
   (exists others, dropped = f :: others) /\
   exists stem ext,
     FileUpload.name f = (stem ++ ext)%string /\
     FileUpload.isStlExtension ext = true) /\
  ((forall g, FileUpload.handleFileSelect picked <> FileUpload.OnFileUpload g) ->
   FileUpload.handleFileSelect picked
   = FileUpload.Alert "Please select a valid STL file") /\
  ((forall g, FileUpload.handleDrop dropped <> FileUpload.OnFileUpload g) ->
   FileUpload.handleDrop dropped
   = FileUpload.Alert "Please drop a valid STL file").
Proof.
  split; [| split; [| split]].
  - unfold FileUpload.handleFileSelect.
    destruct picked as [[| f0 others] |].
    + split; [discriminate |]. intros ((o & H) & _). discriminate H.
    + destruct (FileUpload.isStlFile (Some f0)) eqn:E.
      * split.
        -- intros [= ->]. split; [eauto |].
           now apply FileUploadFacts.isStlFile_spec.
        -- intros ((o & [= -> _]) & _). reflexivity.
      * split; [discriminate |].
        intros ((o & [= -> _]) & Hext).
        apply FileUploadFacts.isStlFile_spec in Hext. congruence.
    + split; [discriminate |]. intros ((o & H) & _). discriminate H.
  - unfold FileUpload.handleDrop.
    destruct dropped as [| f0 others].
    + split; [discriminate |]. intros ((o & H) & _). discriminate H.
    + destruct (FileUpload.isStlFile (Some f0)) eqn:E.
      * split.
        -- intros [= ->]. split; [eauto |].
           now apply FileUploadFacts.isStlFile_spec.
        -- intros ((o & [= -> _]) & _). reflexivity.
      * split; [discriminate |].
        intros ((o & [= -> _]) & Hext).
        apply FileUploadFacts.isStlFile_spec in Hext. congruence.
  - unfold FileUpload.handleFileSelect. intros Hno.
    destruct picked as [[| f0 others] |]; try reflexivity.
    destruct (FileUpload.isStlFile (Some f0)); [| reflexivity].
    now specialize (Hno f0).
  - unfold FileUpload.handleDrop. intros Hno.
    destruct dropped as [| f0 others]; try reflexivity.
    destruct (FileUpload.isStlFile (Some f0)); [| reflexivity].
    now specialize (Hno f0).
Qed.

(** ** UUID strings *)

Module UuidFacts.

Import Uuid.
Local Open Scope string_scope.

Lemma hexDigits_spec (n : nat) (s rest : string) :
  hexDigits n s = Some rest <->
  exists h, s = h ++ rest /\ String.length h = n /\ allHex h = true.
Proof.
  revert s. induction n as [| n IH]; intros s; cbn [hexDigits].
  - split.
    + intros [= ->]. exists "". repeat split.
    + intros (h & -> & Hlen & _). destruct h; [reflexivity | discriminate Hlen].
  - destruct s as [| c s].
    + split; [discriminate |].
      intros (h & H & Hlen & _). destruct h; [discriminate Hlen | discriminate H].
    + destruct (isHexDigit c) eqn:Hc.
      * rewrite IH. split.
        -- intros (h & -> & Hlen & Hall). exists (String c h). cbn.
           rewrite Hc, Hall, Hlen. repeat split.
        -- intros (h & H & Hlen & Hall). destruct h as [| c' h]; [discriminate Hlen |].
           cbn in H, Hlen, Hall. injection H as -> ->.
           apply andb_prop in Hall. destruct Hall as [_ Hall].
           exists h. repeat split; [now injection Hlen | exact Hall].
      * split; [discriminate |].
        intros (h & H & Hlen & Hall). destruct h as [| c' h]; [discriminate Hlen |].
        cbn in H, Hall. injection H as -> _. rewrite Hc in Hall. discriminate Hall.
Qed.

Lemma hyphen_spec (s rest : string) :
  hyphen s = Some rest <-> s = "-" ++ rest.
Proof.
  unfold hyphen. destruct s as [| c s]; cbn.
  - split; discriminate.
  - destruct (Ascii.eqb_spec c "-") as [-> | Hne].
    + split; [now intros [= ->] | now intros [= ->]].
    + split; [discriminate | intros [= -> _]; congruence].
Qed.

Lemma andThen_some (r : option string) (k : string -> option string)
      (out : string) :
  andThen r k = Some out <-> exists mid, r = Some mid /\ k mid = Some out.
Proof.
  destruct r as [mid |]; cbn.
  - split; [eauto |]. intros (m & Hm & H). injection Hm as ->. exact H.
  - split; [discriminate |]. intros (m & Hm & _). discriminate Hm.
Qed.

Lemma length_app (a b : string) :
  String.length (a ++ b) = (String.length a + String.length b)%nat.
Proof. induction a as [| c a IH]; cbn; [reflexivity | now rewrite IH]. Qed.

Lemma append_empty (a : string) : a ++ "" = a.
Proof. induction a as [| c a IH]; cbn; [reflexivity | now rewrite IH]. Qed.

End UuidFacts.

(** X15.  [isUUID] accepts exactly the strings made of five groups of
    8, 4, 4, 4 and 12 hexadecimal digits (either letter case) joined by
    single hyphens, which have 36 characters; nothing about the version
    or variant digits is checked.  [validateUUID] returns for those
    strings and throws "Invalid UUID: ..." for all others. *)
Theorem isUUID_accepts_exactly_8_4_4_4_12 (str : string) :
  (Uuid.isUUID str = true <->
   exists a b c d e,
     str = (a ++ "-" ++ b ++ "-" ++ c ++ "-" ++ d ++ "-" ++ e)%string /\
     String.length a = 8%nat /\ String.length b = 4%nat /\
     String.length c = 4%nat /\ String.length d = 4%nat /\
     String.length e = 12%nat /\
     Uuid.allHex a = true /\ Uuid.allHex b = true /\ Uuid.allHex c = true /\
     Uuid.allHex d = true /\ Uuid.allHex e = true) /\
  (Uuid.isUUID str = true -> String.length str = 36%nat) /\
  (Uuid.validateUUID str = Returns tt <-> Uuid.isUUID str = true) /\
  (Uuid.isUUID str = false ->
   Uuid.validateUUID str = Throws ("Invalid UUID: " ++ str)%string).
Proof.
  assert (Hiff :
    Uuid.isUUID str = true <->
    exists a b c d e,
      str = (a ++ "-" ++ b ++ "-" ++ c ++ "-" ++ d ++ "-" ++ e)%string /\
      String.length a = 8%nat /\ String.length b = 4%nat /\
      String.length c = 4%nat /\ String.length d = 4%nat /\
      String.length e = 12%nat /\
      Uuid.allHex a = true /\ Uuid.allHex b = true /\ Uuid.allHex c = true /\
      Uuid.allHex d = true /\ Uuid.allHex e = true).
  { unfold Uuid.isUUID.
    match goal with
    | |- (match ?r with _ => _ end) = true <-> _ =>
        assert (Hr : (match r with Some EmptyString => true | _ => false end) = true
                     <-> r = Some EmptyString)
          by (destruct r as [[|] |]; split; congruence);
        rewrite Hr; clear Hr
    end.
    split.
    - intros H0.
      apply UuidFacts.andThen_some in H0. destruct H0 as (r8 & H8 & He).
      apply UuidFacts.andThen_some in H8. destruct H8 as (r7 & H7 & Hh4).
      apply UuidFacts.andThen_some in H7. destruct H7 as (r6 & H6 & Hd).
      apply UuidFacts.andThen_some in H6. destruct H6 as (r5 & H5 & Hh3).
      apply UuidFacts.andThen_some in H5. destruct H5 as (r4 & H4 & Hc).
      apply UuidFacts.andThen_some in H4. destruct H4 as (r3 & H3 & Hh2).
      apply UuidFacts.andThen_some in H3. destruct H3 as (r2 & H2 & Hb).
      apply UuidFacts.andThen_some in H2. destruct H2 as (r1 & H1 & Hh1).
      apply UuidFacts.hexDigits_spec in H1, Hb, Hc, Hd, He.
      apply UuidFacts.hyphen_spec in Hh1, Hh2, Hh3, Hh4.
      destruct H1 as (a & E1 & La & Aa). destruct Hb as (b & E2 & Lb & Ab).
      destruct Hc as (c & E3 & Lc & Ac). destruct Hd as (d & E4 & Ld & Ad).
      destruct He as (e & E5 & Le & Ae).
      rewrite UuidFacts.append_empty in E5.
      subst. exists a, b, c, d, e.
      repeat split; try assumption.
    - intros (a & b & c & d & e & -> & La & Lb & Lc & Ld & Le & Aa & Ab & Ac & Ad & Ae).
      apply UuidFacts.andThen_some. exists e.
      split; [| apply UuidFacts.hexDigits_spec; exists e;
                rewrite UuidFacts.append_empty; repeat split; assumption].
      apply UuidFacts.andThen_some. exists ("-" ++ e)%string.
      split; [| now apply UuidFacts.hyphen_spec].
      apply UuidFacts.andThen_some. exists (d ++ "-" ++ e)%string.
      split; [| apply UuidFacts.hexDigits_spec; exists d; repeat split; assumption].
      apply UuidFacts.andThen_some. exists ("-" ++ d ++ "-" ++ e)%string.
      split; [| now apply UuidFacts.hyphen_spec].
      apply UuidFacts.andThen_some. exists (c ++ "-" ++ d ++ "-" ++ e)%string.
      split; [| apply UuidFacts.hexDigits_spec; exists c; repeat split; assumption].
      apply UuidFacts.andThen_some.
      exists ("-" ++ c ++ "-" ++ d ++ "-" ++ e)%string.
      split; [| now apply UuidFacts.hyphen_spec].
      apply UuidFacts.andThen_some.
      exists (b ++ "-" ++ c ++ "-" ++ d ++ "-" ++ e)%string.
      split; [| apply UuidFacts.hexDigits_spec; exists b; repeat split; assumption].
      apply UuidFacts.andThen_some.
      exists ("-" ++ b ++ "-" ++ c ++ "-" ++ d ++ "-" ++ e)%string.
      split; [| now apply UuidFacts.hyphen_spec].
      apply UuidFacts.hexDigits_spec. exists a. repeat split; assumption. }
  split; [exact Hiff |]. split; [| split].
  - intros H. apply Hiff in H.
    destruct H as (a & b & c & d & e & -> & La & Lb & Lc & Ld & Le & _).
    rewrite !UuidFacts.length_app, La, Lb, Lc, Ld, Le. reflexivity.
  - unfold Uuid.validateUUID. destruct (Uuid.isUUID str); cbn; split; congruence.
  - unfold Uuid.validateUUID. intros ->. reflexivity.
Qed.

(** ** The logger *)

Module LoggerFacts.

Import Logger.

(** Induction over JSON values, through arrays and objects. *)
Lemma Json_induction (P : Json -> Prop) :
  P JNull -> (forall b, P (JBool b)) -> (forall n, P (JNum n)) ->
  (forall s, P (JStr s)) ->
  (forall items, Forall P items -> P (JArr items)) ->
  (forall entries, Forall (fun kv => P (snd kv)) entries -> P (JObj entries)) ->
  forall j, P j.
Proof.
  intros Hnull Hbool Hnum Hstr Harr Hobj.
  fix IH 1. intros [| b | n | s | items | entries].
  - exact Hnull.
  - apply Hbool.
  - apply Hnum.
  - apply Hstr.
  - apply Harr. induction items as [| j items IHl]; constructor; [apply IH | exact IHl].
  - apply Hobj. induction entries as [| [k v] entries IHl]; constructor;
      [apply IH | exact IHl].
Qed.

Lemma redacted_primitive (v : Json) :
  isObjectType v = false -> redacted v = true.
Proof. destruct v; cbn; congruence. Qed.

Lemma in_assigned (key : string) (value : Json) (kv : string * Json) :
  In kv (assigned key value) -> kv = (key, value) /\ String.eqb key "__proto__" = false.
Proof.
  unfold assigned. destruct (String.eqb key "__proto__"); [intros [] |].
  intros [<- | []]. now split.
Qed.

(** What [removeSensitive] returns has nothing left under a sensitive
    key. *)
Lemma removeSensitive_redacted (j : Json) : redacted (removeSensitive j) = true.
Proof.
  induction j as [| b | n | s | items IH | entries IH] using Json_induction;
    try reflexivity.
  - cbn [removeSensitive redacted]. rewrite forallb_forall. intros v Hv.
    apply in_map_iff in Hv. destruct Hv as (j & <- & Hj).
    rewrite Forall_forall in IH. now apply IH.
  - cbn [removeSensitive redacted]. rewrite forallb_forall. intros kv Hkv.
    apply in_flat_map in Hkv. destruct Hkv as ([k v] & Hin & Hkv).
    apply in_assigned in Hkv. destruct Hkv as [-> _].
    cbn [fst snd]. rewrite Forall_forall in IH. specialize (IH _ Hin). cbn in IH.
    destruct (isSensitive k); [reflexivity |].
    destruct (isObjectType v) eqn:Ho; [exact IH | now apply redacted_primitive].
Qed.

(** Nor does it have an own property ["__proto__"] anywhere. *)
Lemma removeSensitive_plainKeys (j : Json) :
  plainKeys (removeSensitive j) = true.
Proof.
  induction j as [| b | n | s | items IH | entries IH] using Json_induction;
    try reflexivity.
  - cbn [removeSensitive plainKeys]. rewrite forallb_forall. intros v Hv.
    apply in_map_iff in Hv. destruct Hv as (j & <- & Hj).
    rewrite Forall_forall in IH. now apply IH.
  - cbn [removeSensitive plainKeys]. rewrite forallb_forall. intros kv Hkv.
    apply in_flat_map in Hkv. destruct Hkv as ([k v] & Hin & Hkv).
    apply in_assigned in Hkv. destruct Hkv as [-> Hk].
    cbn [fst snd] in *. rewrite Hk. cbn [negb andb].
    rewrite Forall_forall in IH. specialize (IH _ Hin). cbn in IH.
    destruct (isSensitive k); [reflexivity |].
    destruct (isObjectType v) eqn:Ho; [exact IH |].
    destruct v; try reflexivity; discriminate Ho.
Qed.

Lemma flat_map_singletons {A : Type} (f : A -> list A) (l : list A) :
  (forall a, In a l -> f a = [a]) -> flat_map f l = l.
Proof.
  induction l as [| a l IH]; intros H; [reflexivity |].
  cbn [flat_map]. rewrite (H a) by now left.
  cbn [app]. f_equal. apply IH. intros b Hb. apply H. now right.
Qed.

(** On data with nothing under a sensitive key but "[REDACTED]" and no
    property ["__proto__"], [removeSensitive] changes nothing. *)
Lemma redacted_fixed (j : Json) :
  redacted j = true -> plainKeys j = true -> removeSensitive j = j.
Proof.
  induction j as [| b | n | s | items IH | entries IH] using Json_induction;
    try reflexivity.
  - cbn [removeSensitive redacted plainKeys]. intros H Hp. f_equal.
    rewrite forallb_forall in H, Hp. rewrite Forall_forall in IH.
    rewrite <- (map_id items) at 2. apply map_ext_in. intros v Hv. auto.
  - cbn [removeSensitive redacted plainKeys]. intros H Hp. f_equal.
    rewrite forallb_forall in H, Hp. rewrite Forall_forall in IH.
    apply flat_map_singletons. intros [k v] Hin.
    specialize (H _ Hin). specialize (Hp _ Hin). specialize (IH _ Hin).
    cbn [fst snd] in *. apply andb_prop in Hp. destruct Hp as [Hk Hv].
    apply negb_true_iff in Hk. unfold assigned. rewrite Hk.
    destruct (isSensitive k).
    + destruct v; try discriminate H. apply String.eqb_eq in H. now subst.
    + destruct (isObjectType v); [now rewrite IH | reflexivity].
Qed.

Lemma sanitizeData_plainKeys (d : option Json) :
  plainKeysData (sanitizeData d) = true.
Proof.
  destruct d as [j |]; [| reflexivity]. cbn [sanitizeData].
  destruct (falsy j) eqn:F; cbn [plainKeysData].
  - destruct j; try reflexivity; discriminate F.
  - apply removeSensitive_plainKeys.
Qed.

Lemma sanitizeData_redacted (d : option Json) :
  redactedData (sanitizeData d) = true.
Proof.
  destruct d as [j |]; [| reflexivity]. cbn [sanitizeData].
  destruct (falsy j) eqn:F; cbn [redactedData].
  - destruct j; try reflexivity; discriminate F.
  - apply removeSensitive_redacted.
Qed.

(** *** The two buffers *)

Lemma sliceLast_length {A : Type} (n : nat) (l : list A) :
  (List.length (sliceLast n l) <= n)%nat.
Proof. unfold sliceLast. rewrite length_skipn. lia. Qed.

Lemma sliceLast_all {A : Type} (n : nat) (l : list A) :
  (List.length l <= n)%nat -> sliceLast n l = l.
Proof.
  intros H. unfold sliceLast.
  replace (List.length l - n)%nat with 0%nat by lia. reflexivity.
Qed.

(** Trimming to a positive size keeps the element pushed last. *)
Lemma skipn_keeps_last {A : Type} (n : nat) (l : list A) (a : A) :
  exists dropped,
    skipn (List.length (l ++ [a]) - S n) (l ++ [a]) = dropped ++ [a].
Proof.
  rewrite length_app. cbn [List.length].
  replace (List.length l + 1 - S n)%nat with (List.length l - n)%nat by lia.
  rewrite skipn_app.
  replace (List.length l - n - List.length l)%nat with 0%nat by lia.
  cbn [skipn]. eauto.
Qed.

Lemma pushLog_logs (e : LogEntry) (st : State) :
  logs (pushLog e st) = sliceLast maxLogs (logs st ++ [e]) /\
  actions (pushLog e st) = actions st /\
  currentUserId (pushLog e st) = currentUserId st /\
  currentSessionId (pushLog e st) = currentSessionId st.
Proof.
  unfold pushLog, trimLogs. cbn [logs actions currentUserId currentSessionId].
  destruct (Nat.ltb_spec maxLogs (List.length (logs st ++ [e]))); cbn.
  - repeat split.
  - rewrite sliceLast_all by assumption. repeat split.
Qed.

Lemma pushAction_actions (a : UserAction) (st : State) :
  actions (pushAction a st) = sliceLast maxActions (actions st ++ [a]) /\
  logs (pushAction a st) = logs st /\
  currentUserId (pushAction a st) = currentUserId st /\
  currentSessionId (pushAction a st) = currentSessionId st.
Proof.
  unfold pushAction, trimActions. cbn [logs actions currentUserId currentSessionId].
  destruct (Nat.ltb_spec maxActions (List.length (actions st ++ [a]))); cbn.
  - repeat split.
  - rewrite sliceLast_all by assumption. repeat split.
Qed.

#[local] Opaque maxLogs maxActions.

Lemma pushLog_bounded (e : LogEntry) (st : State) :
  (List.length (actions st) <= maxActions)%nat -> bounded (pushLog e st).
Proof.
  intros H. destruct (pushLog_logs e st) as (Hl & Ha & _).
  unfold bounded. rewrite Hl, Ha. split; [apply sliceLast_length | exact H].
Qed.

Lemma pushAction_bounded (a : UserAction) (st : State) :
  (List.length (logs st) <= maxLogs)%nat -> bounded (pushAction a st).
Proof.
  intros H. destruct (pushAction_actions a st) as (Ha & Hl & _).
  unfold bounded. rewrite Hl, Ha. split; [exact H | apply sliceLast_length].
Qed.

Lemma perform_bounded (env : Env) (c : Call) (st : State) :
  bounded st -> bounded (perform env c st).
Proof.
  intros [Hl Ha]. destruct c; cbn [perform].
  - now apply pushLog_bounded.
  - now apply pushLog_bounded.
  - now apply pushLog_bounded.
  - unfold debug. destruct (development env);
      [now apply pushLog_bounded | now split].
  - unfold trackAction, info. apply pushLog_bounded.
    now apply pushAction_bounded.
  - unfold trackError. destruct (errorText e); cbn [snd]; [| now split].
    unfold error. apply pushLog_bounded. now apply pushAction_bounded.
  - cbn [startTimer snd]. unfold debug. destruct (development env);
      [now apply pushLog_bounded | now split].
  - unfold setUserId, info. now apply pushLog_bounded.
  - unfold clearUserId.
    destruct (currentUserId st) as [id |]; [| now split].
    destruct (String.eqb id ""); [now split |].
    unfold info. destruct (pushLog_bounded
                             (createLogEntry env st LevelInfo "user_session"
                                "User session ended"
                                (Some (JObj [("userId", JStr id)]))) st Ha).
    now split.
  - unfold clearLogs, info. apply pushLog_bounded. cbn. lia.
Qed.

End LoggerFacts.

Module LoggerRuns.

Import Logger.

Lemma performAll_bounded (calls : list (Env * Call)) (st : State) :
  bounded st -> bounded (performAll calls st).
Proof.
  revert st. induction calls as [| [env c] calls IH]; intros st H; cbn.
  - exact H.
  - apply IH. now apply LoggerFacts.perform_bounded.
Qed.

Lemma Forall_sliceLast {A : Type} (P : A -> Prop) (n : nat) (l : list A) :
  Forall P l -> Forall P (sliceLast n l).
Proof.
  unfold sliceLast. generalize (List.length l - n)%nat as k. intros k.
  revert l. induction k as [| k IH]; intros l H; [exact H |].
  destruct l as [| a l]; [constructor |]. cbn. apply IH. now inversion H.
Qed.

Lemma pushLog_allRedacted (e : LogEntry) (st : State) :
  redactedData (data e) = true -> allRedacted st -> allRedacted (pushLog e st).
Proof.
  intros He [Hl Ha]. destruct (LoggerFacts.pushLog_logs e st) as (El & Ea & _).
  unfold allRedacted. rewrite El, Ea. split; [| exact Ha].
  apply Forall_sliceLast. apply Forall_app. split; [exact Hl |].
  constructor; [exact He | constructor].
Qed.

Lemma pushAction_allRedacted (a : UserAction) (st : State) :
  redactedData (actionData a) = true -> allRedacted st ->
  allRedacted (pushAction a st).
Proof.
  intros He [Hl Ha]. destruct (LoggerFacts.pushAction_actions a st) as (Ea & El & _).
  unfold allRedacted. rewrite El, Ea. split; [exact Hl |].
  apply Forall_sliceLast. apply Forall_app. split; [exact Ha |].
  constructor; [exact He | constructor].
Qed.

Lemma perform_allRedacted (env : Env) (c : Call) (st : State) :
  allRedacted st -> allRedacted (perform env c st).
Proof.
  intros H.
  assert (Hlog : forall lvl cat msg d st',
             allRedacted st' ->
             allRedacted (pushLog (createLogEntry env st' lvl cat msg d) st')).
  { intros lvl cat msg d st' H'. apply pushLog_allRedacted; [| exact H'].
    cbn [createLogEntry data]. apply LoggerFacts.sanitizeData_redacted. }
  destruct c; cbn [perform].
  - apply Hlog, H.
  - apply Hlog, H.
  - apply Hlog, H.
  - unfold debug. destruct (development env); [apply Hlog, H | exact H].
  - unfold trackAction, info. apply Hlog. apply pushAction_allRedacted; [| exact H].
    cbn [actionData]. apply LoggerFacts.sanitizeData_redacted.
  - unfold trackError. destruct (errorText e); cbn [snd]; [| exact H].
    unfold error. apply Hlog. apply pushAction_allRedacted; [| exact H].
    cbn [actionData]. apply LoggerFacts.sanitizeData_redacted.
  - cbn [startTimer snd]. unfold debug.
    destruct (development env); [apply Hlog, H | exact H].
  - unfold setUserId, info. apply Hlog. exact H.
  - unfold clearUserId.
    destruct (currentUserId st) as [id |] eqn:Hid; [| exact H].
    destruct (String.eqb id ""); [exact H |].
    unfold info.
    specialize (Hlog LevelInfo "user_session" "User session ended"
                     (Some (JObj [("userId", JStr id)])) st H).
    exact Hlog.
  - unfold clearLogs, info. apply Hlog. split; constructor.
Qed.

Lemma performAll_allRedacted (calls : list (Env * Call)) (st : State) :
  allRedacted st -> allRedacted (performAll calls st).
Proof.
  revert st. induction calls as [| [env c] calls IH]; intros st H; cbn.
  - exact H.
  - apply IH. now apply perform_allRedacted.
Qed.

End LoggerRuns.

(** X16.  The logger's buffers are bounded: whatever calls are made, in
    whatever order, [logs] never holds more than 1000 entries and
    [actions] never more than 500. *)
Theorem logger_buffers_stay_bounded
  (session : string) (calls : list (Logger.Env * Logger.Call)) :
  (List.length (Logger.logs (Logger.performAll calls (Logger.create session)))
   <= 1000)%nat /\
  (List.length (Logger.actions (Logger.performAll calls (Logger.create session)))
   <= 500)%nat /\
  (forall st, Logger.bounded st -> Logger.bounded (Logger.performAll calls st)).
Proof.
  assert (H0 : Logger.bounded (Logger.create session)).
  { split; cbn; apply Nat.le_0_l. }
  destruct (LoggerRuns.performAll_bounded calls _ H0) as [Hl Ha].
  split; [exact Hl |]. split; [exact Ha |].
  intros st. apply LoggerRuns.performAll_bounded.
Qed.

(** X17.  Nothing sensitive is ever stored: after any calls, no log
    entry and no recorded action holds, at any depth of its data, a
    value other than "[REDACTED]" under a key that contains password,
    token, key, secret or auth. *)
Theorem logger_never_stores_sensitive_values
  (session : string) (calls : list (Logger.Env * Logger.Call)) :
  Logger.allRedacted (Logger.performAll calls (Logger.create session)) /\
  (forall st, Logger.allRedacted st ->
              Logger.allRedacted (Logger.performAll calls st)).
Proof.
  split.
  - apply LoggerRuns.performAll_allRedacted. split; constructor.
  - intros st. apply LoggerRuns.performAll_allRedacted.
Qed.

(** X18.  What [sanitizeData] returns has "[REDACTED]" under every
    sensitive key at every depth and no own property named
    ["__proto__"]: an entry under that key is lost, whatever its value,
    because the copy is built by assignment.  Data that is already
    redacted and has no such property is returned unchanged; so
    sanitising twice equals sanitising once. *)
Theorem sanitizeData_redacts_once_and_for_all (d : option Logger.Json) :
  Logger.redactedData (Logger.sanitizeData d) = true /\
  Logger.plainKeysData (Logger.sanitizeData d) = true /\
  (Logger.redactedData d = true -> Logger.plainKeysData d = true ->
   Logger.sanitizeData d = d) /\
  Logger.sanitizeData (Logger.sanitizeData d) = Logger.sanitizeData d /\
  (forall value rest,
      Logger.sanitizeData (Some (Logger.JObj (("__proto__", value) :: rest)))
      = Logger.sanitizeData (Some (Logger.JObj rest))).
Proof.
  assert (Hfix : forall d', Logger.redactedData d' = true ->
                            Logger.plainKeysData d' = true ->
                            Logger.sanitizeData d' = d').
  { intros [j |] H Hp; [| reflexivity]. cbn [Logger.sanitizeData].
    destruct (Logger.falsy j); [reflexivity |].
    cbn in H, Hp. now rewrite LoggerFacts.redacted_fixed. }
  split; [apply LoggerFacts.sanitizeData_redacted |].
  split; [apply LoggerFacts.sanitizeData_plainKeys |].
  split; [apply Hfix |].
  split; [| reflexivity].
  apply Hfix; [apply LoggerFacts.sanitizeData_redacted
              | apply LoggerFacts.sanitizeData_plainKeys].
Qed.

Module LoggerKeys.

Import Logger.
Local Open Scope string_scope.

Lemma prefix_spec (p s : string) :
  String.prefix p s = true <-> exists rest, s = p ++ rest.
Proof.
  revert s. induction p as [| c p IH]; intros s.
  - split; [intros _; now exists s | intros _; now destruct s].
  - destruct s as [| c' s]; cbn [String.prefix].
    + split; [discriminate | intros (rest & H); discriminate H].
    + destruct (ascii_dec c c') as [-> | Hne].
      * rewrite IH. split.
        -- intros (rest & ->). now exists rest.
        -- intros (rest & H). injection H as ->. now exists rest.
      * split; [discriminate |]. intros (rest & H). injection H as <- _.
        congruence.
Qed.

Lemma includes_spec (s sub : string) :
  includes s sub = true <-> exists before after, s = before ++ sub ++ after.
Proof.
  induction s as [| c s IH]; cbn [includes].
  - rewrite orb_false_r, prefix_spec. split.
    + intros (rest & H). now exists "", rest.
    + intros (before & after & H).
      destruct before; cbn in H; [now exists after | discriminate H].
  - rewrite orb_true_iff, prefix_spec, IH. split.
    + intros [(rest & H) | (before & after & ->)].
      * now exists "", rest.
      * now exists (String c before), after.
    + intros (before & after & H). destruct before as [| c' before]; cbn in H.
      * left. now exists after.
      * injection H as _ H'. right. now exists before, after.
Qed.

End LoggerKeys.

(** X19.  A key counts as sensitive exactly when its lower-cased form
    contains one of the words password, token, key, secret, auth
    anywhere inside it: the test is on substrings, not on whole key
    names. *)
Theorem sensitive_key_is_substring_match (key : string) :
  Logger.isSensitive key = true <->
  exists word before after,
    In word ["password"; "token"; "key"; "secret"; "auth"] /\
    toLowerCase key = (before ++ word ++ after)%string.
Proof.
  unfold Logger.isSensitive. rewrite existsb_exists. split.
  - intros (word & Hin & H). apply LoggerKeys.includes_spec in H.
    destruct H as (before & after & E). now exists word, before, after.
  - intros (word & before & after & Hin & E). exists word. split; [exact Hin |].
    apply LoggerKeys.includes_spec. now exists before, after.
Qed.

(** X20.  [withErrorLogging] hands on what the wrapped function does
    and records it, after the function's own logger use.  When [fn]
    returns, the wrapper returns the same value and appends one action
    with [success] true.  When [fn] throws a value from which
    [error.message || String(error)] can be read, the wrapper rethrows
    that value and appends one action with [success] false.  The action
    carries the given name and category and the time that passed (none
    when the start time read 0) and is the newest in the buffer.  When
    [fn] throws [null] or [undefined], reading [error.message] throws
    inside [trackError]: the wrapper throws that [TypeError] instead of
    the value, and the logger is left as [fn] left it. *)
Theorem withErrorLogging_records_outcome
  {R : Type} (fn : Logger.State -> Logger.Outcome R * Logger.State)
  (cat act : string) (nargs : nat) (started finished : Logger.Env)
  (st : Logger.State) :
  let wrapped := Logger.withErrorLogging fn cat act nargs started finished st in
  let recordedWith (ok : bool) :=
    exists recorded,
      Logger.actions (snd wrapped)
      = Logger.sliceLast 500 (Logger.actions (snd (fn st)) ++ [recorded]) /\
      Logger.action recorded = act /\
      Logger.actionCategory recorded = cat /\
      Logger.success recorded = ok /\
      Logger.duration recorded
      = (if (Logger.now started =? 0)%Z then None
         else Some (Logger.now finished - Logger.now started)%Z) /\
      Logger.isSuffix [recorded] (Logger.actions (snd wrapped)) in
  (forall result,
      fst (fn st) = Logger.Returned result ->
      fst wrapped = Logger.Returned result /\ recordedWith true) /\
  (forall e text,
      fst (fn st) = Logger.Threw e ->
      Logger.errorText e = Logger.Returned text ->
      fst wrapped = Logger.Threw e /\ recordedWith false) /\
  (forall e,
      fst (fn st) = Logger.Threw e ->
      e = Logger.ThrownNull \/ e = Logger.ThrownUndefined ->
      exists raised,
        fst wrapped = Logger.Threw raised /\ raised <> e /\
        snd wrapped = snd (fn st)).
Proof.
  cbv zeta. unfold Logger.withErrorLogging.
  destruct (fn st) as [[result | e] st']; cbn [fst snd].
  - split; [| split; intros; discriminate].
    intros r [= <-]. split; [reflexivity |].
    unfold Logger.trackAction, Logger.info.
    match goal with
    | |- context [Logger.pushAction ?a st'] => set (entry := a)
    end.
    match goal with
    | |- context [Logger.pushLog ?l (Logger.pushAction entry st')] =>
        destruct (LoggerFacts.pushLog_logs l (Logger.pushAction entry st'))
          as (_ & Ha & _)
    end.
    destruct (LoggerFacts.pushAction_actions entry st') as (Ea & _).
    exists entry. rewrite Ha, Ea.
    repeat split.
    unfold Logger.isSuffix, Logger.sliceLast.
    apply LoggerFacts.skipn_keeps_last.
  - split; [intros; discriminate |]. split.
    + intros e0 text [= <-] Htext. unfold Logger.trackError. rewrite Htext.
      cbn [fst snd]. split; [reflexivity |].
      unfold Logger.error.
      match goal with
      | |- context [Logger.pushAction ?a st'] => set (entry := a)
      end.
      match goal with
      | |- context [Logger.pushLog ?l (Logger.pushAction entry st')] =>
          destruct (LoggerFacts.pushLog_logs l (Logger.pushAction entry st'))
            as (_ & Ha & _)
      end.
      destruct (LoggerFacts.pushAction_actions entry st') as (Ea & _).
      exists entry. rewrite Ha, Ea.
      repeat split.
      unfold Logger.isSuffix, Logger.sliceLast.
      apply LoggerFacts.skipn_keeps_last.
    + intros e0 [= <-] [-> | ->]; cbn; eexists;
        (split; [reflexivity |]); split; try reflexivity; discriminate.
Qed.
